(** * Link tracker: token store, click recording and click statistics

    A shallow embedding of [tracker.py] (class [LinkTracker]) and proofs of
    its specification.

    Conventions of the embedding.
    - A Python [str] is a Rocq [string]; each [ascii] stands for one code
      point below 256, so slicing and splitting count characters exactly as
      Python does on such strings.
    - Python integers are [Z].
    - The two class-level dictionaries [_tokens] and [_clicks] are finite
      maps keyed by the token string.
    - The clock ([datetime.utcnow]) and the random source
      ([secrets.token_urlsafe]) are oracles of the environment; each call
      consumes the next answer, which is a value or a raised exception.
    - Code that can raise runs in a state-and-exception monad: a raised
      exception keeps the mutations done before it, as in Python.
    - Calls to [logger] do not touch the store and are left out. *)

From Stdlib Require Import ZArith Ascii String List Lia Bool.
From stdpp Require Import base option list gmap strings fin_maps.

Local Open Scope string_scope.
Local Open Scope Z_scope.

(** ** Python strings *)

Module PyStr.

Definition code (c : ascii) : Z := Z.of_nat (nat_of_ascii c).
Definition chr (n : Z) : ascii := ascii_of_nat (Z.to_nat n).

(** [s[:n]] *)
Fixpoint take (n : nat) (s : string) : string :=
  match n, s with
  | S n', String c s' => String c (take n' s')
  | _, _ => EmptyString
  end.

(** [s.split(sep)[0]] for a one-character separator: the text before the
    first occurrence of [sep], the whole string when there is none. *)
Fixpoint before (sep : ascii) (s : string) : string :=
  match s with
  | EmptyString => EmptyString
  | String c s' => if Ascii.eqb c sep then EmptyString else String c (before sep s')
  end.

Definition hex_digit (n : Z) : ascii :=
  if n <? 10 then chr (48 + n) else chr (87 + n).

(** [str.isprintable] on one code point below 256. *)
Definition printable (c : ascii) : bool :=
  let n := code c in
  ((32 <=? n) && (n <? 127)) || ((161 <=? n) && negb (n =? 173)).

Fixpoint mem (x : ascii) (s : string) : bool :=
  match s with
  | EmptyString => false
  | String c s' => Ascii.eqb c x || mem x s'
  end.

Definition repr_char (quote : ascii) (c : ascii) : string :=
  if Ascii.eqb c quote || Ascii.eqb c "\"
  then String "\" (String c EmptyString)
  else if Ascii.eqb c "010" then "\n"
  else if Ascii.eqb c "013" then "\r"
  else if Ascii.eqb c "009" then "\t"
  else if printable c then String c EmptyString
  else String "\" (String "x"
         (String (hex_digit (code c / 16)) (String (hex_digit (code c mod 16)) EmptyString))).

Fixpoint repr_body (quote : ascii) (s : string) : string :=
  match s with
  | EmptyString => EmptyString
  | String c s' => repr_char quote c ++ repr_body quote s'
  end.

(** [repr(s)]: single quotes, unless the text has a single quote and no
    double quote. *)
Definition repr (s : string) : string :=
  let quote : ascii := if mem "'" s && negb (mem "034" s) then "034"%char else "'"%char in
  String quote (repr_body quote s ++ String quote EmptyString).

(** [s.encode()]: UTF-8, as a list of byte values. *)
Fixpoint encode (s : string) : list Z :=
  match s with
  | EmptyString => []
  | String c s' =>
      let n := code c in
      if n <? 128 then n :: encode s'
      else Z.lor 192 (Z.shiftr n 6) :: Z.lor 128 (Z.land n 63) :: encode s'
  end.

End PyStr.

(** ** SHA-256 ([hashlib.sha256(...).hexdigest()]) *)

Module Sha256.

Definition w32 (x : Z) : Z := x mod 2 ^ 32.
Definition add32 (x y : Z) : Z := w32 (x + y).
Definition rotr (n x : Z) : Z := w32 (Z.lor (Z.shiftr x n) (Z.shiftl x (32 - n))).
Definition ch (x y z : Z) : Z := Z.lxor (Z.land x y) (Z.land (w32 (Z.lnot x)) z).
Definition maj (x y z : Z) : Z := Z.lxor (Z.lxor (Z.land x y) (Z.land x z)) (Z.land y z).
Definition bsig0 (x : Z) : Z := Z.lxor (Z.lxor (rotr 2 x) (rotr 13 x)) (rotr 22 x).
Definition bsig1 (x : Z) : Z := Z.lxor (Z.lxor (rotr 6 x) (rotr 11 x)) (rotr 25 x).
Definition ssig0 (x : Z) : Z := Z.lxor (Z.lxor (rotr 7 x) (rotr 18 x)) (Z.shiftr x 3).
Definition ssig1 (x : Z) : Z := Z.lxor (Z.lxor (rotr 17 x) (rotr 19 x)) (Z.shiftr x 10).

(** The round constants and the initial hash value are the first 32 bits of
    the fractional parts of the cube roots of the first 64 primes and of the
    square roots of the first 8 primes. *)
Definition is_prime (n : Z) : bool :=
  forallb (fun d => negb (n mod Z.of_nat d =? 0)) (seq 2 (Z.to_nat n - 2)).

Definition primes : list Z := filter (fun n => is_prime n = true) (map Z.of_nat (seq 2 310)).

(** The integer cube root, one bit after the other. *)
Definition cbrt (n : Z) : Z :=
  fold_left (fun r b => let r' := r + 2 ^ Z.of_nat b in if r' * r' * r' <=? n then r' else r)
    (rev (seq 0 40)) 0.

Definition K : list Z :=
  Eval vm_compute in map (fun p => w32 (cbrt (p * 2 ^ 96))) primes.

Definition H0 : list Z :=
  Eval vm_compute in map (fun p => w32 (Z.sqrt (p * 2 ^ 64))) (firstn 8 primes).

Definition at_ (l : list Z) (i : nat) : Z := default 0 (l !! i).

(** Big-endian bytes of [x], [n] of them. *)
Fixpoint be_bytes (n : nat) (x : Z) : list Z :=
  match n with
  | O => []
  | S n' => be_bytes n' (x / 256) ++ [x mod 256]
  end.

Definition be_word (bs : list Z) : Z := fold_left (fun acc b => acc * 256 + b) bs 0.

Definition pad (msg : list Z) : list Z :=
  let len := Z.of_nat (length msg) in
  let zeros := Z.to_nat ((55 - len) mod 64) in
  msg ++ [128] ++ repeat 0 zeros ++ be_bytes 8 (8 * len).

Fixpoint words (n : nat) (bs : list Z) : list Z :=
  match n with
  | O => []
  | S n' => be_word (firstn 4 bs) :: words n' (skipn 4 bs)
  end.

Fixpoint schedule (n : nat) (w : list Z) : list Z :=
  match n with
  | O => w
  | S n' =>
      let t := length w in
      schedule n'
        (w ++ [add32 (add32 (ssig1 (at_ w (t - 2))) (at_ w (t - 7)))
                     (add32 (ssig0 (at_ w (t - 15))) (at_ w (t - 16)))])
  end.

Definition round (s : list Z) (kw : Z * Z) : list Z :=
  match s with
  | [a; b; c; d; e; f; g; h] =>
      let t1 := add32 (add32 (add32 h (bsig1 e)) (add32 (ch e f g) (fst kw))) (snd kw) in
      let t2 := add32 (bsig0 a) (maj a b c) in
      [add32 t1 t2; a; b; c; add32 d t1; e; f; g]
  | _ => s
  end.

Definition compress (h : list Z) (block : list Z) : list Z :=
  let w := schedule 48 (words 16 block) in
  let s := fold_left round (combine K w) h in
  map (fun p => add32 (fst p) (snd p)) (combine h s).

Fixpoint blocks (n : nat) (h : list Z) (bs : list Z) : list Z :=
  match n with
  | O => h
  | S n' => blocks n' (compress h (firstn 64 bs)) (skipn 64 bs)
  end.

Definition digest (msg : list Z) : list Z :=
  let p := pad msg in
  concat (map (be_bytes 4) (blocks (length p / 64) H0 p)).

Definition hex_byte (b : Z) : string :=
  String (PyStr.hex_digit (b / 16)) (String (PyStr.hex_digit (b mod 16)) EmptyString).

Definition hexdigest (msg : list Z) : string :=
  fold_right (fun b acc => hex_byte b ++ acc) EmptyString (digest msg).

End Sha256.


(** ** Exceptions and results *)

Inductive exception :=
| OSError (msg : string)
| OverflowError (msg : string)
| ValueError (msg : string)
| KeyError (key : string)
| KeyboardInterrupt.

(** [isinstance(e, Exception)]: what [except Exception] catches.
    [KeyboardInterrupt] derives from [BaseException] only. *)
Definition is_Exception (e : exception) : bool :=
  match e with
  | KeyboardInterrupt => false
  | _ => true
  end.

(** [str(e)] *)
Definition exc_str (e : exception) : string :=
  match e with
  | OSError msg | OverflowError msg | ValueError msg => msg
  | KeyError key => PyStr.repr key
  | KeyboardInterrupt => EmptyString
  end.

Inductive result (A : Type) :=
| Ok (a : A)
| Raise (e : exception).
Arguments Ok {A} a.
Arguments Raise {A} e.

(** ** Datetime, after CPython's [datetime] module *)

Module Datetime.

Record datetime := mk_datetime {
  year : Z; month : Z; day : Z;
  hour : Z; minute : Z; second : Z; microsecond : Z
}.

Definition MAXORDINAL : Z := 3652059.
Definition DAYS_IN_MONTH : list Z := [-1; 31; 28; 31; 30; 31; 30; 31; 31; 30; 31; 30; 31].
Definition DAYS_BEFORE_MONTH : list Z := [-1; 0; 31; 59; 90; 120; 151; 181; 212; 243; 273; 304; 334].
Definition tbl (l : list Z) (i : Z) : Z := default 0 (l !! Z.to_nat i).

Definition is_leap (y : Z) : bool :=
  (y mod 4 =? 0) && (negb (y mod 100 =? 0) || (y mod 400 =? 0)).

Definition days_before_year (y : Z) : Z :=
  let y := y - 1 in y * 365 + y / 4 - y / 100 + y / 400.

Definition days_in_month (y m : Z) : Z :=
  if (m =? 2) && is_leap y then 29 else tbl DAYS_IN_MONTH m.

Definition days_before_month (y m : Z) : Z :=
  tbl DAYS_BEFORE_MONTH m + (if (2 <? m) && is_leap y then 1 else 0).

Definition ymd2ord (y m d : Z) : Z :=
  days_before_year y + days_before_month y m + d.

Definition DI400Y : Z := 146097.
Definition DI100Y : Z := 36524.
Definition DI4Y : Z := 1461.

Definition ord2ymd (n : Z) : Z * Z * Z :=
  let n := n - 1 in
  let n400 := n / DI400Y in let n := n mod DI400Y in
  let y := n400 * 400 + 1 in
  let n100 := n / DI100Y in let n := n mod DI100Y in
  let n4 := n / DI4Y in let n := n mod DI4Y in
  let n1 := n / 365 in let n := n mod 365 in
  let y := y + n100 * 100 + n4 * 4 + n1 in
  if (n1 =? 4) || (n100 =? 4) then (y - 1, 12, 31)
  else
    let leapyear := (n1 =? 3) && (negb (n4 =? 24) || (n100 =? 3)) in
    let m := Z.shiftr (n + 50) 5 in
    let preceding := tbl DAYS_BEFORE_MONTH m + (if (2 <? m) && leapyear then 1 else 0) in
    if n <? preceding
    then
      let m := m - 1 in
      let preceding := preceding - (tbl DAYS_IN_MONTH m + (if (m =? 2) && leapyear then 1 else 0)) in
      (y, m, n - preceding + 1)
    else (y, m, n - preceding + 1).

(** The range checks of the constructor ([_check_date_fields],
    [_check_time_fields]). *)
Definition valid (d : datetime) : bool :=
  (1 <=? year d) && (year d <=? 9999) &&
  (1 <=? month d) && (month d <=? 12) &&
  (1 <=? day d) && (day d <=? days_in_month (year d) (month d)) &&
  (0 <=? hour d) && (hour d <=? 23) &&
  (0 <=? minute d) && (minute d <=? 59) &&
  (0 <=? second d) && (second d <=? 59) &&
  (0 <=? microsecond d) && (microsecond d <=? 999999).

(** [datetime(y, m, d, hh, mm, ss, us)]: every datetime object is built by
    the checked constructor, which raises [ValueError] on a field out of
    range (CPython's message names the field). *)
Definition new (d : datetime) : result datetime :=
  if valid d then Ok d else Raise (ValueError "datetime field out of range").

(** [dt + timedelta(days=n)] *)
Definition add_days (d : datetime) (n : Z) : result datetime :=
  let o := ymd2ord (year d) (month d) (day d) + n in
  if (0 <? o) && (o <=? MAXORDINAL)
  then
    let '(y, m, dd) := ord2ymd o in
    new (mk_datetime y m dd (hour d) (minute d) (second d) (microsecond d))
  else Raise (OverflowError "date value out of range").

(** Microseconds since the start of day 0 of the proleptic calendar. *)
Definition to_micros (d : datetime) : Z :=
  (((ymd2ord (year d) (month d) (day d) * 24 + hour d) * 60 + minute d) * 60 + second d)
  * 1000000 + microsecond d.

(** Comparison of naive datetimes: lexicographic on the seven fields. *)
Definition fields (d : datetime) : list Z :=
  [year d; month d; day d; hour d; minute d; second d; microsecond d].

Fixpoint cmp_list (a b : list Z) : comparison :=
  match a, b with
  | x :: a', y :: b' =>
      match x ?= y with
      | Eq => cmp_list a' b'
      | c => c
      end
  | [], [] => Eq
  | [], _ => Lt
  | _, [] => Gt
  end.

Definition cmp (a b : datetime) : comparison := cmp_list (fields a) (fields b).

(** [a > b] *)
Definition gtb (a b : datetime) : bool :=
  match cmp a b with Gt => true | _ => false end.

(** [a < b] and [a <= b] *)
Definition lt (a b : datetime) : Prop := cmp a b = Lt.
Definition le (a b : datetime) : Prop := cmp a b <> Gt.

(** [%0wd] for [0 <= n < 10^w]. *)
Definition digit (n : Z) : ascii := PyStr.chr (48 + n).

Fixpoint pad_dec (w : nat) (n : Z) (rest : string) : string :=
  match w with
  | O => rest
  | S w' => pad_dec w' (n / 10) (String (digit (n mod 10)) rest)
  end.

(** [d.date().isoformat()]: [YYYY-MM-DD]. *)
Definition date_isoformat (d : datetime) (rest : string) : string :=
  pad_dec 4 (year d) (String "-" (pad_dec 2 (month d) (String "-" (pad_dec 2 (day d) rest)))).

(** [d.isoformat()]: [YYYY-MM-DDTHH:MM:SS], followed by [.ffffff] when the
    microsecond field is not zero. *)
Definition isoformat (d : datetime) : string :=
  date_isoformat d
    (String "T" (pad_dec 2 (hour d) (String ":" (pad_dec 2 (minute d) (String ":"
       (pad_dec 2 (second d)
          (if microsecond d =? 0 then EmptyString
           else String "." (pad_dec 6 (microsecond d) EmptyString)))))))).

Definition digit_val (c : ascii) : option Z :=
  let n := PyStr.code c in
  if (48 <=? n) && (n <=? 57) then Some (n - 48) else None.

(** Reads exactly [w] decimal digits. *)
Fixpoint read_dec (w : nat) (acc : Z) (s : string) : option (Z * string) :=
  match w with
  | O => Some (acc, s)
  | S w' =>
      match s with
      | String c s' =>
          match digit_val c with
          | Some v => read_dec w' (acc * 10 + v) s'
          | None => None
          end
      | EmptyString => None
      end
  end.

Definition expect (c : ascii) (s : string) : option string :=
  match s with
  | String c' s' => if Ascii.eqb c' c then Some s' else None
  | EmptyString => None
  end.

Definition parse_fields (s : string) : option datetime :=
  '(y, s) ← read_dec 4 0 s;
  s ← expect "-" s;
  '(m, s) ← read_dec 2 0 s;
  s ← expect "-" s;
  '(d, s) ← read_dec 2 0 s;
  s ← expect "T" s;
  '(hh, s) ← read_dec 2 0 s;
  s ← expect ":" s;
  '(mm, s) ← read_dec 2 0 s;
  s ← expect ":" s;
  '(ss, s) ← read_dec 2 0 s;
  match s with
  | EmptyString => Some (mk_datetime y m d hh mm ss 0)
  | _ =>
      s ← expect "." s;
      '(us, s) ← read_dec 6 0 s;
      match s with
      | EmptyString => Some (mk_datetime y m d hh mm ss us)
      | _ => None
      end
  end.

(** [datetime.fromisoformat(s)] on the two layouts that [isoformat]
    produces for a naive datetime.  Other text raises [ValueError] here;
    CPython reads some further layouts, none of which the tracker stores. *)
Definition fromisoformat (s : string) : result datetime :=
  match parse_fields s with
  | Some d => new d
  | None => Raise (ValueError ("Invalid isoformat string: " ++ PyStr.repr s))
  end.

End Datetime.

(** ** Regular expressions ([re.match] on the two fixed patterns) *)

Module Regex.

Inductive regex :=
| Void
| Eps
| Class (p : ascii → bool)
| Cat (r1 r2 : regex)
| Alt (r1 r2 : regex)
| Star (r : regex).

Fixpoint nullable (r : regex) : bool :=
  match r with
  | Void => false
  | Eps => true
  | Class _ => false
  | Cat r1 r2 => nullable r1 && nullable r2
  | Alt r1 r2 => nullable r1 || nullable r2
  | Star _ => true
  end.

Fixpoint deriv (c : ascii) (r : regex) : regex :=
  match r with
  | Void => Void
  | Eps => Void
  | Class p => if p c then Eps else Void
  | Cat r1 r2 =>
      if nullable r1 then Alt (Cat (deriv c r1) r2) (deriv c r2)
      else Cat (deriv c r1) r2
  | Alt r1 r2 => Alt (deriv c r1) (deriv c r2)
  | Star r1 => Cat (deriv c r1) (Star r1)
  end.

(** The text is exactly a word of [r]. *)
Fixpoint fullmatch (r : regex) (s : string) : bool :=
  match s with
  | EmptyString => nullable r
  | String c s' => fullmatch (deriv c r) s'
  end.

Definition newline : ascii := "010".

(** [re.match('^' r '$', s) is not None] without [re.MULTILINE]: the match
    starts at the beginning, and [$] holds at the end of the text and also
    just before a newline that is its last character. *)
Fixpoint match_to_end (r : regex) (s : string) : bool :=
  match s with
  | EmptyString => nullable r
  | String c s' =>
      (Ascii.eqb c newline && (match s' with EmptyString => true | _ => false end) && nullable r)
      || match_to_end (deriv c r) s'
  end.

Definition in_range (lo hi : Z) (c : ascii) : bool :=
  (lo <=? PyStr.code c) && (PyStr.code c <=? hi).

Definition lower (c : ascii) : bool := in_range 97 122 c.
Definition upper (c : ascii) : bool := in_range 65 90 c.
Definition alpha (c : ascii) : bool := lower c || upper c.
Definition decimal (c : ascii) : bool := in_range 48 57 c.
Definition one_of (s : string) (c : ascii) : bool := PyStr.mem c s.

(** [\s] of a [str] pattern, on code points below 256. *)
Definition space (c : ascii) : bool :=
  in_range 9 13 c || in_range 28 32 c || (PyStr.code c =? 133) || (PyStr.code c =? 160).

Definition to_lower (c : ascii) : ascii :=
  if upper c then PyStr.chr (PyStr.code c + 32) else c.

(** A literal character. *)
Definition lit (c : ascii) : regex := Class (Ascii.eqb c).
(** A literal character under [re.IGNORECASE]. *)
Definition lit_i (c : ascii) : regex := Class (fun x => Ascii.eqb (to_lower x) (to_lower c)).
(** [.] without [re.DOTALL] *)
Definition dot : regex := Class (fun c => negb (Ascii.eqb c newline)).
(** [r+], [r?], [r{2,}] *)
Definition plus (r : regex) : regex := Cat r (Star r).
Definition opt (r : regex) : regex := Alt r Eps.
Definition at_least_2 (r : regex) : regex := Cat r (Cat r (Star r)).

Fixpoint seq (rs : list regex) : regex :=
  match rs with
  | [] => Eps
  | [r] => r
  | r :: rs' => Cat r (seq rs')
  end.

(** [[a-zA-Z0-9._%+-]] *)
Definition email_local (c : ascii) : bool := alpha c || decimal c || one_of "._%+-" c.
(** [[a-zA-Z0-9.-]] *)
Definition email_domain (c : ascii) : bool := alpha c || decimal c || one_of ".-" c.
(** [[^\s/$.?#]] *)
Definition url_first (c : ascii) : bool := negb (space c || one_of "/$.?#" c).
(** [[^\s]] *)
Definition non_space (c : ascii) : bool := negb (space c).

(** [^[a-zA-Z0-9._%+-]+@[a-zA-Z0-9.-]+\.[a-zA-Z]{2,}$] between its anchors. *)
Definition email_pattern : regex :=
  seq [plus (Class email_local); lit "@"; plus (Class email_domain); lit ".";
       at_least_2 (Class alpha)].

(** [^https?://[^\s/$.?#].[^\s]*$] under [re.IGNORECASE], between its anchors. *)
Definition url_pattern : regex :=
  seq [lit_i "h"; lit_i "t"; lit_i "t"; lit_i "p"; opt (lit_i "s"); lit_i ":"; lit_i "/"; lit_i "/";
       Class url_first; dot; Star (Class non_space)].

(** The words of a regular expression. *)
Inductive lang : regex → string → Prop :=
| lang_eps : lang Eps EmptyString
| lang_class p c : p c = true → lang (Class p) (String c EmptyString)
| lang_cat r1 r2 s1 s2 : lang r1 s1 → lang r2 s2 → lang (Cat r1 r2) (s1 ++ s2)
| lang_alt_l r1 r2 s : lang r1 s → lang (Alt r1 r2) s
| lang_alt_r r1 r2 s : lang r2 s → lang (Alt r1 r2) s
| lang_star_nil r : lang (Star r) EmptyString
| lang_star_cons r s1 s2 : lang r s1 → lang (Star r) s2 → lang (Star r) (s1 ++ s2).

End Regex.

(** ** The tracker *)

Record token_data := mk_token_data {
  target_url : string;
  email : option string;
  campaign : string;
  created_at : string;
  expires_at : string;
  click_count : Z
}.

Record click_data := mk_click_data {
  ip_address : string;
  user_agent : string;
  timestamp : string;
  click_hash : string
}.

(** The environment: the answers of the clock and of the random source, and
    how many of each have been consumed. *)
Record world := mk_world {
  clock : nat → result Datetime.datetime;
  clock_reads : nat;
  token_source : nat → result string;
  token_draws : nat
}.

Record state := mk_state {
  _tokens : gmap string token_data;
  _clicks : gmap string (list click_data);
  env : world
}.

Definition M (A : Type) : Type := state → result A * state.

#[global] Instance M_ret : MRet M := fun A (a : A) st => (Ok a, st).
#[global] Instance M_bind : MBind M := fun A B (f : A → M B) (m : M A) st =>
  match m st with
  | (Ok a, st') => f a st'
  | (Raise e, st') => (Raise e, st')
  end.

Definition raise {A} (e : exception) : M A := fun st => (Raise e, st).
Definition lift {A} (r : result A) : M A := fun st => (r, st).
Definition get : M state := fun st => (Ok st, st).

(** [try: body except Exception as e: handler(e)] *)
Definition try_except {A} (body : M A) (handler : exception → M A) : M A := fun st =>
  match body st with
  | (Raise e, st') => if is_Exception e then handler e st' else (Raise e, st')
  | r => r
  end.

(** The state after one more clock reading, and after one more draw from
    the random source. *)
Definition tick (st : state) : state :=
  let w := env st in
  mk_state (_tokens st) (_clicks st)
    (mk_world (clock w) (S (clock_reads w)) (token_source w) (token_draws w)).

Definition draw (st : state) : state :=
  let w := env st in
  mk_state (_tokens st) (_clicks st)
    (mk_world (clock w) (clock_reads w) (token_source w) (S (token_draws w))).

(** [datetime.utcnow()]: the next answer of the clock, built into a datetime
    object by the checked constructor. *)
Definition utcnow : M Datetime.datetime := fun st =>
  (match clock (env st) (clock_reads (env st)) with
   | Ok d => Datetime.new d
   | Raise e => Raise e
   end, tick st).

(** [secrets.token_urlsafe(nbytes)]: the next answer of the random source. *)
Definition token_urlsafe (nbytes : Z) : M string := fun st =>
  (token_source (env st) (token_draws (env st)), draw st).

Definition token_length : Z := 32.

Definition set_tokens (t : gmap string token_data) : M unit := fun st =>
  (Ok tt, mk_state t (_clicks st) (env st)).
Definition set_clicks (c : gmap string (list click_data)) : M unit := fun st =>
  (Ok tt, mk_state (_tokens st) c (env st)).

Definition _generate_click_hash (token ip_address : string) : string :=
  let data := token ++ ":" ++ ip_address in
  Sha256.hexdigest (PyStr.encode data).

(** The [try] block of [generate_token]. *)
Definition generate_token_body (target_url : string) (email : option string)
    (campaign : string) : M string :=
  token ← token_urlsafe token_length;
  created ← utcnow;
  now ← utcnow;
  expires ← lift (Datetime.add_days now 90);
  st ← get;
  set_tokens (<[token := mk_token_data target_url email campaign
                           (Datetime.isoformat created) (Datetime.isoformat expires) 0]>
                (_tokens st));;
  st ← get;
  set_clicks (<[token := []]> (_clicks st));;
  mret token.

(** The handler logs and raises again. *)
Definition generate_token (target_url : string) (email : option string) (campaign : string)
  : M string :=
  try_except (generate_token_body target_url email campaign) (fun e => raise e).

Inductive track_result :=
| TrackSuccess (target_url : string) (timestamp : string) (click_count : Z)
| TrackFailure (error : string).

(** The [try] block of [track_click]. *)
Definition track_click_body (token ip_address user_agent : string) : M track_result :=
  st ← get;
  match _tokens st !! token with
  | None => mret (TrackFailure "Invalid token")
  | Some token_data =>
      expires ← lift (Datetime.fromisoformat (expires_at token_data));
      now ← utcnow;
      if Datetime.gtb now expires then mret (TrackFailure "Token expired")
      else
        stamp ← utcnow;
        let click := mk_click_data ip_address user_agent (Datetime.isoformat stamp)
                       (_generate_click_hash token ip_address) in
        st ← get;
        match _clicks st !! token with
        | None => raise (KeyError token)
        | Some clicks =>
            set_clicks (<[token := (clicks ++ [click])%list]> (_clicks st));;
            (* token_data is the dictionary stored under the token: the
               increment is seen through the store *)
            let token_data' :=
              mk_token_data (target_url token_data) (email token_data) (campaign token_data)
                (created_at token_data) (expires_at token_data) (click_count token_data + 1) in
            st ← get;
            set_tokens (<[token := token_data']> (_tokens st));;
            mret (TrackSuccess (target_url token_data') (timestamp click)
                    (click_count token_data'))
        end
  end.

(** The handler logs and returns the failure as an outcome. *)
Definition track_click (token ip_address user_agent : string) : M track_result :=
  try_except (track_click_body token ip_address user_agent)
    (fun e => mret (TrackFailure (exc_str e))).

(** The result shares the click list with the store; what a caller does to
    it afterwards is outside the tracker. *)
Definition get_token_info (st : state) (token : string)
  : option (token_data * list click_data) :=
  match _tokens st !! token with
  | None => None
  | Some token_data => Some (token_data, default [] (_clicks st !! token))
  end.

Record click_stats := mk_click_stats {
  total_clicks : Z;
  unique_ips : Z;
  clicks_by_date : gmap string Z;
  clicks_by_user_agent : gmap string Z;
  first_click : option string;
  last_click : option string
}.

(** [for click in clicks: k = key(click); d[k] = d.get(k, 0) + 1] *)
Definition count_by (key : click_data → string) (clicks : list click_data) : gmap string Z :=
  fold_left (fun d click => <[key click := default 0 (d !! key click) + 1]> d) clicks ∅.

Definition get_click_stats (st : state) (token : string) : option click_stats :=
  match _tokens st !! token with
  | None => None
  | Some _ =>
      let clicks := default [] (_clicks st !! token) in
      Some (mk_click_stats
              (Z.of_nat (length clicks))
              (Z.of_nat (size (list_to_set (map ip_address clicks) : gset string)))
              (count_by (fun click => PyStr.before "T" (timestamp click)) clicks)
              (count_by (fun click => PyStr.take 50 (user_agent click)) clicks)
              (timestamp <$> head clicks)
              (timestamp <$> last clicks))
  end.

Definition validate_email (email : string) : bool :=
  Regex.match_to_end Regex.email_pattern email.

Definition validate_url (url : string) : bool :=
  Regex.match_to_end Regex.url_pattern url.

Definition get_current_timestamp : M string :=
  now ← utcnow; mret (Datetime.isoformat now).

Definition clear_all : M unit :=
  set_tokens ∅;; set_clicks ∅.

(** The store when the class is loaded, in environment [w]. *)
Definition initial (w : world) : state := mk_state ∅ ∅ w.

(** A caller's view: calls on the tracker, one after the other. *)
Inductive call :=
| Generate (target_url : string) (email : option string) (campaign : string)
| Track (token ip_address user_agent : string)
| Stats (token : string)
| Info (token : string)
| Clear.

Definition run_call (st : state) (c : call) : state :=
  match c with
  | Generate u e c => snd (generate_token u e c st)
  | Track t ip ua => snd (track_click t ip ua st)
  | Stats _ | Info _ => st
  | Clear => snd (clear_all st)
  end.

Definition run_calls (st : state) (cs : list call) : state := fold_left run_call cs st.

(** ** Vocabulary of the statements *)

(** The record that [generate_token] stores. *)
Definition fresh_token_data (target_url : string) (email : option string) (campaign : string)
    (created expires : Datetime.datetime) : token_data :=
  mk_token_data target_url email campaign
    (Datetime.isoformat created) (Datetime.isoformat expires) 0.

(** The record of a token after one more click. *)
Definition clicked (td : token_data) : token_data :=
  mk_token_data (target_url td) (email td) (campaign td)
    (created_at td) (expires_at td) (click_count td + 1).

(** The click record that [track_click] appends. *)
Definition new_click (token ip_address user_agent : string) (stamp : Datetime.datetime)
  : click_data :=
  mk_click_data ip_address user_agent (Datetime.isoformat stamp)
    (_generate_click_hash token ip_address).

(** What the handler of [track_click] makes of an exception raised in its
    body. *)
Definition caught (e : exception) : result track_result :=
  if is_Exception e then Ok (TrackFailure (exc_str e)) else Raise e.

(** The states the tracker can be in. *)
Definition reachable (st : state) : Prop :=
  ∃ (w : world) (cs : list call), st = run_calls (initial w) cs.

(** A click record stamped by [isoformat]. *)
Definition stamped (c : click_data) : Prop :=
  ∃ stamp, Datetime.valid stamp = true ∧ timestamp c = Datetime.isoformat stamp.

(** Every stored token has its click list, as long as its counter says, and
    an expiry written by [isoformat]; every stored click is stamped. *)
Definition store_ok (st : state) : Prop :=
  (∀ token td, _tokens st !! token = Some td →
    (∃ clicks, _clicks st !! token = Some clicks ∧ click_count td = Z.of_nat (length clicks)) ∧
    (∃ expires, Datetime.valid expires = true ∧ expires_at td = Datetime.isoformat expires)) ∧
  (∀ token clicks, _clicks st !! token = Some clicks → Forall stamped clicks).

(** The number of clicks whose key is [k]. *)
Definition clicks_with (key : click_data → string) (k : string) (clicks : list click_data) : Z :=
  Z.of_nat (length (filter (fun c => key c = k) clicks)).

(** A counting dictionary has a key once something was counted under it. *)
Definition entry (n : Z) : option Z := if n =? 0 then None else Some n.

(** The click list of a token, empty when it has none. *)
Definition clicks_of (st : state) (token : string) : list click_data :=
  default [] (_clicks st !! token).

(** ** Sample environments and stores *)

Definition answers {A} (l : list (result A)) (i : nat) : result A :=
  default (Raise (OSError "source exhausted")) (l !! i).

Definition at_time (y m d hh mm ss us : Z) : result Datetime.datetime :=
  Ok (Datetime.mk_datetime y m d hh mm ss us).

Definition sample_token : string := "pV5xZ0q3mJ8Kc1uWf7RrT2yN4bHs6LdAe9GiXoQwEtU".
Definition sample_url : string := "https://example.com/x".

(** Two tokens are issued, the first is clicked three times; then the clock
    fails once and later shows a date after the expiry. *)
Definition sample_world : world :=
  mk_world
    (answers [at_time 2024 1 1 12 0 0 0; at_time 2024 1 1 12 0 0 7;
              at_time 2024 1 2 9 30 0 0; at_time 2024 1 2 9 30 0 250;
              at_time 2024 1 2 23 59 59 0; at_time 2024 1 2 23 59 59 999999;
              at_time 2024 1 3 0 0 1 0; at_time 2024 1 3 0 0 1 15;
              Raise (OSError "clock failure");
              at_time 2024 6 1 8 0 0 0])
    0
    (answers [Ok sample_token; Raise (OSError "random source failure")])
    0.

Definition sample_calls : list call :=
  [Generate sample_url (Some "a@b.co") "spring";
   Track sample_token "1.1.1.1" "Mozilla/5.0";
   Track sample_token "1.1.1.1" "curl/8.0";
   Track sample_token "2.2.2.2" "Mozilla/5.0"].

Definition issued : state := run_calls (initial sample_world) (firstn 1 sample_calls).
Definition clicked_thrice : state := run_calls (initial sample_world) sample_calls.

(** One token clicked by two browsers whose user agents agree on their first
    50 characters. *)
Definition agent_prefix : string := "Mozilla/5.0 (X11; Linux x86_64) AppleWebKit/537.36".

Definition two_agents : state :=
  run_calls (initial sample_world)
    [Generate sample_url None "default";
     Track sample_token "1.1.1.1" (agent_prefix ++ " Chrome/120.0")%string;
     Track sample_token "2.2.2.2" (agent_prefix ++ " Safari/537.36")%string].

(** After the three clicks a fourth one meets the failing clock; the reading
    that follows is past the expiry. *)
Definition lapsed : state :=
  run_calls (initial sample_world)
    (sample_calls ++ [Track sample_token "3.3.3.3" "Mozilla/5.0"]).

(** ** Shapes of accepted addresses *)

(** Every character of [s] satisfies [p]. *)
Fixpoint all_chars (p : ascii → bool) (s : string) : bool :=
  match s with
  | EmptyString => true
  | String c s' => p c && all_chars p s'
  end.

Fixpoint lower_string (s : string) : string :=
  match s with
  | EmptyString => EmptyString
  | String c s' => String (Regex.to_lower c) (lower_string s')
  end.

Definition with_newline (s : string) : string := s ++ String Regex.newline EmptyString.

(** Removes the prefix [p], compared without regard to letter case. *)
Fixpoint strip_prefix_i (p s : string) : option string :=
  match p, s with
  | EmptyString, _ => Some s
  | String a p', String b s' =>
      if Ascii.eqb (Regex.to_lower a) (Regex.to_lower b) then strip_prefix_i p' s' else None
  | String _ _, EmptyString => None
  end.

Definition non_space_body (body : string) : bool :=
  match body with
  | EmptyString => false
  | _ => all_chars Regex.non_space body
  end.

(** The URL shape in the words of the specification: an [http] or [https]
    scheme, in any letter case, followed by a body without whitespace. *)
Definition url_shape_spec (s : string) : bool :=
  match strip_prefix_i "https://" s with
  | Some body => non_space_body body
  | None =>
      match strip_prefix_i "http://" s with
      | Some body => non_space_body body
      | None => false
      end
  end.

(** The address shape in the words of the specification: a local part, [@],
    a domain and a top-level domain of at least two letters, that is a word
    of the pattern between its anchors. *)
Definition email_shape_spec (s : string) : bool :=
  Regex.fullmatch Regex.email_pattern s.

(** What [email_pattern] matches: [local@domain.tld]. *)
Definition email_shape (w : string) : Prop :=
  ∃ local domain tld,
    w = local ++ "@" ++ domain ++ "." ++ tld ∧
    local ≠ EmptyString ∧ all_chars Regex.email_local local = true ∧
    domain ≠ EmptyString ∧ all_chars Regex.email_domain domain = true ∧
    (2 <= String.length tld)%nat ∧ all_chars Regex.alpha tld = true.

(** What [url_pattern] matches: the scheme, [://], one character that is
    neither whitespace nor one of [/$.?#], one character that is not a
    newline, and characters that are not whitespace. *)
Definition url_shape (w : string) : Prop :=
  ∃ scheme c1 c2 rest,
    w = scheme ++ "://" ++ String c1 (String c2 rest) ∧
    (lower_string scheme = "http" ∨ lower_string scheme = "https") ∧
    Regex.url_first c1 = true ∧ c2 ≠ Regex.newline ∧
    all_chars Regex.non_space rest = true.

(** A shape, or a shape followed by one newline that ends the text. *)
Definition up_to_newline (shape : string → Prop) (s : string) : Prop :=
  shape s ∨ ∃ w, s = with_newline w ∧ shape w.

(** * Further vocabulary *)

(** The random source answers the same token twice. *)
Definition collision_world : world :=
  mk_world
    (answers [at_time 2024 1 1 12 0 0 0; at_time 2024 1 1 12 0 0 7;
              at_time 2024 1 2 9 30 0 0; at_time 2024 1 2 9 30 0 250;
              at_time 2024 2 1 0 0 0 0; at_time 2024 2 1 0 0 0 3])
    0
    (answers [Ok sample_token; Ok sample_token])
    0.

(** A token is issued and clicked once; the next draw repeats the token. *)
Definition before_collision : state :=
  run_calls (initial collision_world)
    [Generate sample_url None "default"; Track sample_token "1.1.1.1" "Mozilla/5.0"].

(** The sum of the counts of a counting dictionary. *)
Definition sum_counts (d : gmap string Z) : Z := map_fold (fun _ n acc => n + acc) 0 d.

(** The two dictionaries have the same keys; every record has a creation
    time written by [isoformat]; every click carries the hash of its token
    and address. *)
Definition records_ok (st : state) : Prop :=
  (∀ token, _tokens st !! token = None ↔ _clicks st !! token = None) ∧
  (∀ token td, _tokens st !! token = Some td →
     ∃ created, Datetime.valid created = true ∧ created_at td = Datetime.isoformat created) ∧
  (∀ token clicks c, _clicks st !! token = Some clicks → c ∈ clicks →
     click_hash c = _generate_click_hash token (ip_address c)).

(** The number of occurrences of [c] in [s]. *)
Fixpoint count_char (c : ascii) (s : string) : nat :=
  match s with
  | EmptyString => O
  | String x s' => ((if Ascii.eqb x c then 1 else 0) + count_char c s')%nat
  end.

(** A visible ASCII character: code 33 to 126. *)
Definition visible_ascii (c : ascii) : bool := Regex.in_range 33 126 c.

(** Every character class of [r] takes a letter and its lower-case form
    alike. *)
Fixpoint case_blind (r : Regex.regex) : Prop :=
  match r with
  | Regex.Void | Regex.Eps => True
  | Regex.Class p => ∀ x, p x = p (Regex.to_lower x)
  | Regex.Cat r1 r2 | Regex.Alt r1 r2 => case_blind r1 ∧ case_blind r2
  | Regex.Star r1 => case_blind r1
  end.

(** * The spreadsheet log ([sheets_api.py]) *)

Module Sheets.

(** What [execute()] raises: [HttpError], or something else. *)
Inductive fault :=
| HttpError (msg : string)
| Fault (e : exception).

(** [str(e)] *)
Definition fault_str (f : fault) : string :=
  match f with
  | HttpError msg => msg
  | Fault e => exc_str e
  end.

(** [isinstance(e, Exception)]; [HttpError] is an [Exception]. *)
Definition fault_is_Exception (f : fault) : bool :=
  match f with
  | HttpError _ => true
  | Fault e => is_Exception e
  end.

Inductive outcome (A : Type) :=
| Done (a : A)
| Raised (f : fault).
Arguments Done {A} a.
Arguments Raised {A} f.

(** The service behind [self.service]: the rows of the two sheets, the
    header first, each row a list of cell texts as [values().get] returns
    them; and for each request sent, whether it is executed or raises. *)
Record service := mk_service {
  token_rows : list (list string);
  click_rows : list (list string);
  replies : nat → option fault;
  requests : nat
}.

(** The service after one more request. *)
Definition sent (sv : service) : service :=
  mk_service (token_rows sv) (click_rows sv) (replies sv) (S (requests sv)).

(** The reply to the next request. *)
Definition reply (sv : service) : option fault := replies sv (requests sv).

(** The row that [log_click] appends; the count cell holds the number 1. *)
Definition click_values (token ip_address user_agent timestamp : string) : list string :=
  [timestamp; token; ip_address; PyStr.take 100 user_agent; "1"].

(** Only [HttpError] is caught. *)
Definition log_click (token ip_address user_agent timestamp target_url : string)
    (sv : service) : outcome unit * service :=
  let values := click_values token ip_address user_agent timestamp in
  match reply sv with
  | None =>
      (Done tt,
       mk_service (token_rows sv) (click_rows sv ++ [values])%list (replies sv)
         (S (requests sv)))
  | Some (HttpError _) => (Done tt, sent sv)
  | Some (Fault e) => (Raised (Fault e), sent sv)
  end.

(** [email or 'N/A'] *)
Definition email_or_na (email : option string) : string :=
  match email with
  | Some (String c s) => String c s
  | _ => "N/A"
  end.

(** The row that [log_token_creation] appends. *)
Definition token_values (timestamp token target_url : string) (email : option string)
    (campaign : string) : list string :=
  [timestamp; token; target_url; email_or_na email; campaign; "Active"].

Record stats := mk_stats {
  total_clicks : Z;
  unique_ips : Z;
  clicks_by_date : gmap string Z;
  clicks_by_user_agent : gmap string Z
}.

(** [len(row) > 1 and row[1] == token] *)
Definition of_token (token : string) (row : list string) : bool :=
  bool_decide (1 < length row)%nat && bool_decide (row !! 1%nat = Some token).

(** [for click in clicks: if len(click) > i: k = key(click[i]); d[k] = d.get(k, 0) + 1] *)
Definition count_column (i : nat) (key : string → string) (clicks : list (list string))
  : gmap string Z :=
  fold_left
    (fun d click =>
       match click !! i with
       | Some cell => <[key cell := default 0 (d !! key cell) + 1]> d
       | None => d
       end)
    clicks ∅.

(** The computation of [get_click_stats] on the rows read. *)
Definition summarize (values : list (list string)) (token : string) : option stats :=
  let clicks := List.filter (of_token token) (tail values) in
  match clicks with
  | [] => None
  | _ =>
      Some (mk_stats
              (Z.of_nat (length clicks))
              (Z.of_nat (size (list_to_set (omap (fun click => click !! 2%nat) clicks)
                                 : gset string)))
              (count_column 0 (PyStr.before "T") clicks)
              (count_column 3 (PyStr.take 50) clicks))
  end.

(** Every [Exception] is caught and turned into [None]. *)
Definition get_click_stats (token : string) (sv : service)
  : outcome (option stats) * service :=
  match reply sv with
  | None => (Done (summarize (click_rows sv) token), sent sv)
  | Some f => (if fault_is_Exception f then Done None else Raised f, sent sv)
  end.

(** The handler logs and raises again. *)
Definition check_connection (sv : service) : outcome bool * service :=
  match reply sv with
  | None => (Done true, sent sv)
  | Some f => (Raised f, sent sv)
  end.

(** The time stamp is read inside the [try] block, whose handler catches
    [HttpError] only: a failure of the clock leaves the call. *)
Definition log_token_creation (token target_url : string) (email : option string)
    (campaign : string) (st : state) (sv : service) : outcome unit * state * service :=
  match fst (utcnow st) with
  | Raise e => (Raised (Fault e), tick st, sv)
  | Ok now =>
      let values := token_values (Datetime.isoformat now) token target_url email campaign in
      match reply sv with
      | None =>
          (Done tt, tick st,
           mk_service (token_rows sv ++ [values])%list (click_rows sv) (replies sv)
             (S (requests sv)))
      | Some (HttpError _) => (Done tt, tick st, sent sv)
      | Some (Fault e) => (Raised (Fault e), tick st, sent sv)
      end
  end.

End Sheets.

(** * The routes ([main.py]) *)

Module Main.

(** The tracker and the spreadsheet log of the application. *)
Record app := mk_app {
  tracker : state;
  sheets_api : Sheets.service
}.

(** What the track route reads of a request. *)
Record click_request := mk_click_request {
  remote_addr : string;
  user_agent_header : option string
}.

(** The JSON body of a request to issue a token; a field is [None] when
    its key is missing, and a text otherwise. *)
Record token_request := mk_token_request {
  req_target_url : option string;
  req_email : option string;
  req_campaign : option string
}.

Inductive body :=
| Message (text : string)
| Error (text : string)
| Created (token tracker_url target_url campaign : string)
| ClickStats (token : string) (total_clicks unique_ips : Z)
    (clicks_by_date clicks_by_user_agent : gmap string Z)
| Healthy (timestamp : string)
| Unhealthy (error : string).

(** [redirect(url)], or [jsonify(body), status]. *)
Inductive response :=
| Redirect (location : string)
| Reply (status : Z) (b : body).

Definition internal_error : response := Reply 500 (Error "Internal server error").

(** The handler [except Exception] of a route. *)
Definition handled (e : exception) : result response :=
  if is_Exception e then Ok internal_error else Raise e.

Definition handled_fault (f : Sheets.fault) : result response :=
  match f with
  | Sheets.HttpError _ => Ok internal_error
  | Sheets.Fault e => handled e
  end.

Definition track_click (token : string) (request : click_request) (a : app)
  : result response * app :=
  let ip_address := remote_addr request in
  let user_agent := default "Unknown" (user_agent_header request) in
  match track_click token ip_address user_agent (tracker a) with
  | (Raise e, st) => (handled e, mk_app st (sheets_api a))
  | (Ok (TrackFailure _), st) =>
      (Ok (Reply 404 (Error "Invalid or expired token")), mk_app st (sheets_api a))
  | (Ok (TrackSuccess target_url timestamp _), st) =>
      match Sheets.log_click token ip_address user_agent timestamp target_url (sheets_api a) with
      | (Sheets.Raised f, sv) => (handled_fault f, mk_app st sv)
      | (Sheets.Done _, sv) =>
          (Ok (match target_url with
               | EmptyString => Reply 200 (Message "Click tracked successfully")
               | _ => Redirect target_url
               end),
           mk_app st sv)
      end
  end.

Definition get_stats (token : string) (a : app) : result response * app :=
  match Sheets.get_click_stats token (sheets_api a) with
  | (Sheets.Raised f, sv) => (handled_fault f, mk_app (tracker a) sv)
  | (Sheets.Done None, sv) =>
      (Ok (Reply 404 (Error "Token not found")), mk_app (tracker a) sv)
  | (Sheets.Done (Some stats), sv) =>
      (Ok (Reply 200 (ClickStats token (Sheets.total_clicks stats) (Sheets.unique_ips stats)
                        (Sheets.clicks_by_date stats) (Sheets.clicks_by_user_agent stats))),
       mk_app (tracker a) sv)
  end.

(** The handler answers 503 with [str(e)]. *)
Definition health_check (a : app) : result response * app :=
  match Sheets.check_connection (sheets_api a) with
  | (Sheets.Raised f, sv) =>
      (match f with
       | Sheets.Fault e =>
           if is_Exception e then Ok (Reply 503 (Unhealthy (exc_str e))) else Raise e
       | _ => Ok (Reply 503 (Unhealthy (Sheets.fault_str f)))
       end,
       mk_app (tracker a) sv)
  | (Sheets.Done _, sv) =>
      match get_current_timestamp (tracker a) with
      | (Ok timestamp, st) => (Ok (Reply 200 (Healthy timestamp)), mk_app st sv)
      | (Raise e, st) =>
          (if is_Exception e then Ok (Reply 503 (Unhealthy (exc_str e))) else Raise e,
           mk_app st sv)
      end
  end.

(** [TRACKER_BASE_URL] is read from the environment, a parameter here. *)
Definition generate_token (TRACKER_BASE_URL : string) (data : token_request) (a : app)
  : result response * app :=
  match req_target_url data with
  | None | Some EmptyString => (Ok (Reply 400 (Error "target_url is required")), a)
  | Some target_url =>
      let email := req_email data in
      let campaign := default "default" (req_campaign data) in
      match generate_token target_url email campaign (tracker a) with
      | (Raise e, st) => (handled e, mk_app st (sheets_api a))
      | (Ok token, st) =>
          match Sheets.log_token_creation token target_url email campaign st (sheets_api a) with
          | (Sheets.Raised f, st', sv) => (handled_fault f, mk_app st' sv)
          | (Sheets.Done _, st', sv) =>
              let tracker_url := TRACKER_BASE_URL ++ "/track/" ++ token in
              (Ok (Reply 201 (Created token tracker_url target_url campaign)), mk_app st' sv)
          end
      end
  end.

End Main.

(** ** Sample service and requests *)

Definition token_header : list string :=
  ["Timestamp"; "Token"; "Target URL"; "Email"; "Campaign"; "Status"].
Definition click_header : list string :=
  ["Timestamp"; "Token"; "IP Address"; "User Agent"; "Click Count"].

(** Both sheets hold their header; the fourth request meets [HttpError], the
    fifth a network failure. *)
Definition sample_service : Sheets.service :=
  Sheets.mk_service [token_header] [click_header]
    (fun i =>
       match i with
       | 3%nat => Some (Sheets.HttpError "quota exceeded")
       | 4%nat => Some (Sheets.Fault (OSError "network unreachable"))
       | _ => None
       end)
    0.

(** A service whose sheets are empty, headers included. *)
Definition bare_service : Sheets.service :=
  Sheets.mk_service [] [] (fun _ => None) 0.

(** The row of the Clicks sheet for a click of the tracker. *)
Definition row_of_click (token : string) (c : click_data) : list string :=
  Sheets.click_values token (ip_address c) (user_agent c) (timestamp c).


(** The application at start: the sample environment and service. *)
Definition sample_app : Main.app := Main.mk_app (initial sample_world) sample_service.

Definition sample_request : Main.click_request :=
  Main.mk_click_request "1.1.1.1" (Some "Mozilla/5.0").

(** The application after the three clicks of [clicked_thrice]: the clock is
    about to fail. *)
Definition clicked_app : Main.app := Main.mk_app clicked_thrice sample_service.

(** The application with the lapsed token. *)
Definition lapsed_app : Main.app := Main.mk_app lapsed sample_service.

Definition not_found : Main.response :=
  Main.Reply 404 (Main.Error "Invalid or expired token").




Definition offline_app : Main.app :=
  Main.mk_app issued (Sheets.mk_service [token_header] [click_header]
                        (Sheets.replies sample_service) 4).

(** A request whose URL and address both fail the validators. *)
Definition unchecked_request : Main.token_request :=
  Main.mk_token_request (Some "ftp://bad") (Some "not-an-email") None.

(** The application at start with the service off line. *)
Definition offline_start : Main.app :=
  Main.mk_app (initial sample_world)
    (Sheets.mk_service [token_header] [click_header] (Sheets.replies sample_service) 4).

Definition token_not_found : Main.response := Main.Reply 404 (Main.Error "Token not found").

(** The application after three clicks that the service never logged. *)
Definition unlogged_app : Main.app := Main.mk_app clicked_thrice sample_service.



Definition issue_request : Main.token_request :=
  Main.mk_token_request (Some sample_url) None (Some "spring").

(** ** Runs of the application *)

(** Requests to the routes, one after the other. *)
Inductive visit :=
| PostGenerate (data : Main.token_request)
| GetTrack (token : string) (request : Main.click_request)
| GetStats (token : string)
| GetHealth.

Definition serve (base : string) (a : Main.app) (v : visit) : Main.app :=
  match v with
  | PostGenerate data => snd (Main.generate_token base data a)
  | GetTrack token request => snd (Main.track_click token request a)
  | GetStats token => snd (Main.get_stats token a)
  | GetHealth => snd (Main.health_check a)
  end.

Definition serve_all (base : string) (a : Main.app) (vs : list visit) : Main.app :=
  fold_left (serve base) vs a.

(** The random source never returns the same token twice. *)
Definition tokens_distinct (w : world) : Prop :=
  ∀ i j token, token_source w i = Ok token → token_source w j = Ok token → i = j.

(** The service executes every request. *)
Definition reliable (sv : Sheets.service) : Prop := ∀ n, Sheets.replies sv n = None.

(** Every stored token was drawn from the source of [w] and has its click
    list, and token by token the rows of the Clicks sheet, below the header,
    stand in relation [R] to the rows of the clicks the tracker holds. *)
Definition log_related (R : relation (list (list string))) (w : world) (a : Main.app) : Prop :=
  token_source (env (Main.tracker a)) = token_source w ∧
  Sheets.click_rows (Main.sheets_api a) ≠ [] ∧
  (∀ token, _tokens (Main.tracker a) !! token = None →
            _clicks (Main.tracker a) !! token = None) ∧
  (∀ token, is_Some (_tokens (Main.tracker a) !! token) →
            ∃ i, (i < token_draws (env (Main.tracker a)))%nat ∧ token_source w i = Ok token) ∧
  (∀ token,
     R (List.filter (Sheets.of_token token) (tail (Sheets.click_rows (Main.sheets_api a))))
       (map (row_of_click token) (clicks_of (Main.tracker a) token))).

(** [R] is kept when both logs take the same row, and when only the tracker
    takes one. *)
Definition keeps_row (R : relation (list (list string))) : Prop :=
  ∀ l l' x, R l l' → R (l ++ [x])%list (l' ++ [x])%list.
Definition allows_loss (R : relation (list (list string))) : Prop :=
  ∀ l l' x, R l l' → R l (l' ++ [x])%list.

(** What the statistics route answers when it reports the statistics
    [stats] of the tracker. *)
Definition reported (token : string) (stats : click_stats) : Main.response :=
  Main.Reply 200
    (Main.ClickStats token (total_clicks stats) (unique_ips stats)
       (clicks_by_date stats) (clicks_by_user_agent stats)).

(** A service with both headers that executes every request. *)
Definition reliable_service : Sheets.service :=
  Sheets.mk_service [token_header] [click_header] (fun _ => None) 0.

Definition sample_visits : list visit :=
  [PostGenerate issue_request;
   GetTrack sample_token sample_request;
   GetHealth;
   GetTrack "doesnotexist" sample_request;
   GetStats sample_token;
   GetTrack sample_token (Main.mk_click_request "2.2.2.2" None)].

(** Visits to an application whose service fails on its fourth and fifth
    request: the row of the second click is lost. *)
Definition lossy_visits : list visit :=
  [PostGenerate issue_request;
   GetStats sample_token;
   GetTrack sample_token sample_request;
   GetTrack sample_token (Main.mk_click_request "2.2.2.2" None);
   GetHealth].

(** ** Setting up the spreadsheet *)

Module Setup.

(** The spreadsheet as [_initialize_sheets] sees it: the titles of its
    sheets, and the service with the rows of the sheets named Tokens and
    Clicks. *)
Record book := mk_book {
  titles : list string;
  content : Sheets.service
}.

(** [values().update] on the first row of a sheet: the cells given replace
    the cells they cover. *)
Definition set_first_row (headers : list string) (rows : list (list string))
  : list (list string) :=
  match rows with
  | [] => [headers]
  | row :: rest => (headers ++ drop (length headers) row)%list :: rest
  end.

Definition with_rows (sheet_name : string) (f : list (list string) → list (list string))
    (sv : Sheets.service) : Sheets.service :=
  if bool_decide (sheet_name = "Tokens") then
    Sheets.mk_service (f (Sheets.token_rows sv)) (Sheets.click_rows sv)
      (Sheets.replies sv) (Sheets.requests sv)
  else if bool_decide (sheet_name = "Clicks") then
    Sheets.mk_service (Sheets.token_rows sv) (f (Sheets.click_rows sv))
      (Sheets.replies sv) (Sheets.requests sv)
  else sv.

(** The handler logs and raises again. *)
Definition _create_sheet (title : string) (b : book) : Sheets.outcome unit * book :=
  match Sheets.reply (content b) with
  | None => (Sheets.Done tt, mk_book (titles b ++ [title])%list (Sheets.sent (content b)))
  | Some f => (Sheets.Raised f, mk_book (titles b) (Sheets.sent (content b)))
  end.

(** The handler logs every [Exception] and returns. *)
Definition _set_sheet_headers (sheet_name : string) (headers : list string) (b : book)
  : Sheets.outcome unit * book :=
  match Sheets.reply (content b) with
  | None =>
      (Sheets.Done tt,
       mk_book (titles b) (Sheets.sent (with_rows sheet_name (set_first_row headers) (content b))))
  | Some f =>
      (if Sheets.fault_is_Exception f then Sheets.Done tt else Sheets.Raised f,
       mk_book (titles b) (Sheets.sent (content b)))
  end.

(** The handler of [HttpError] logs and raises again, so that every failure
    leaves the call. *)
Definition _initialize_sheets (b : book) : Sheets.outcome unit * book :=
  match Sheets.reply (content b) with
  | Some f => (Sheets.Raised f, mk_book (titles b) (Sheets.sent (content b)))
  | None =>
      let existing_sheets := titles b in
      let b0 := mk_book (titles b) (Sheets.sent (content b)) in
      let '(r1, b1) :=
        if bool_decide ("Tokens" ∈ existing_sheets) then (Sheets.Done tt, b0)
        else
          match _create_sheet "Tokens" b0 with
          | (Sheets.Raised f, b') => (Sheets.Raised f, b')
          | (Sheets.Done _, b') =>
              _set_sheet_headers "Tokens"
                ["Timestamp"; "Token"; "Target URL"; "Email"; "Campaign"; "Status"] b'
          end in
      match r1 with
      | Sheets.Raised f => (Sheets.Raised f, b1)
      | Sheets.Done _ =>
          if bool_decide ("Clicks" ∈ existing_sheets) then (Sheets.Done tt, b1)
          else
            match _create_sheet "Clicks" b1 with
            | (Sheets.Raised f, b') => (Sheets.Raised f, b')
            | (Sheets.Done _, b') =>
                _set_sheet_headers "Clicks"
                  ["Timestamp"; "Token"; "IP Address"; "User Agent"; "Click Count"] b'
            end
      end
  end.

End Setup.

(** A sheet that is not in the spreadsheet has no rows. *)
Definition book_ok (b : Setup.book) : Prop :=
  ("Tokens" ∉ Setup.titles b → Sheets.token_rows (Setup.content b) = []) ∧
  ("Clicks" ∉ Setup.titles b → Sheets.click_rows (Setup.content b) = []).

(** A new spreadsheet with its default sheet; and one whose fifth request,
    the header of the Clicks sheet, times out. *)
Definition new_book : Setup.book :=
  Setup.mk_book ["Sheet1"] (Sheets.mk_service [] [] (fun _ => None) 0).
Definition flaky_book : Setup.book :=
  Setup.mk_book ["Sheet1"]
    (Sheets.mk_service [] []
       (fun i => match i with
                 | 4%nat => Some (Sheets.Fault (OSError "timed out"))
                 | _ => None
                 end)
       0).

(** The number of requests that [_initialize_sheets] sends before the header
    of the Clicks sheet. *)
Definition before_click_header (b : Setup.book) : nat :=
  if bool_decide ("Tokens" ∈ Setup.titles b) then 2%nat else 4%nat.

(** Every row of the Tokens sheet, below the header, is the row of a token
    the tracker holds, with the target URL, address and campaign of its
    record. *)
Definition tokens_logged (a : Main.app) : Prop :=
  ∀ row, row ∈ tail (Sheets.token_rows (Main.sheets_api a)) →
    ∃ timestamp token td,
      _tokens (Main.tracker a) !! token = Some td ∧
      row = Sheets.token_values timestamp token (target_url td) (email td) (campaign td).
(** * Properties *)

(** ** Test vectors of the hash *)

Example sha256_constants :
  length Sha256.K = 64%nat ∧ Sha256.K !! 0%nat = Some 0x428a2f98 ∧
  Sha256.K !! 63%nat = Some 0xc67178f2 ∧ Sha256.H0 !! 0%nat = Some 0x6a09e667.
Proof. repeat split. Qed.

Example sha256_abc :
  Sha256.hexdigest (PyStr.encode "abc")
  = "ba7816bf8f01cfea414140de5dae2223b00361a396177a9cb410ff61f20015ad".
Proof. vm_compute. reflexivity. Qed.

Example sha256_empty :
  Sha256.hexdigest (PyStr.encode EmptyString)
  = "e3b0c44298fc1c149afbf4c8996fb92427ae41e4649b934ca495991b7852b855".
Proof. vm_compute. reflexivity. Qed.

Example sha256_two_blocks :
  Sha256.hexdigest (PyStr.encode "abcdbcdecdefdefgefghfghighijhijkijkljklmklmnlmnomnopnopq")
  = "248d6a61d20638b8e5c026930c3e6039a33ce45964ff2167f6ecedd419db06c1".
Proof. vm_compute. reflexivity. Qed.

(** ** Datetime *)

Example ord2ymd_first : Datetime.ord2ymd 1 = (1, 1, 1).
Proof. reflexivity. Qed.

Example ord2ymd_last : Datetime.ord2ymd Datetime.MAXORDINAL = (9999, 12, 31).
Proof. reflexivity. Qed.

Example ymd2ord_2024 : Datetime.ymd2ord 2024 2 29 = 738945.
Proof. reflexivity. Qed.

Example add_days_leap :
  Datetime.add_days (Datetime.mk_datetime 2024 1 1 12 30 5 0) 90
  = Ok (Datetime.mk_datetime 2024 3 31 12 30 5 0).
Proof. reflexivity. Qed.

Example add_days_overflow :
  Datetime.add_days (Datetime.mk_datetime 9999 12 1 0 0 0 0) 90
  = Raise (OverflowError "date value out of range").
Proof. reflexivity. Qed.

Example isoformat_plain :
  Datetime.isoformat (Datetime.mk_datetime 2024 3 31 12 30 5 0) = "2024-03-31T12:30:05".
Proof. reflexivity. Qed.

Example isoformat_micro :
  Datetime.isoformat (Datetime.mk_datetime 2024 3 31 12 30 5 42) = "2024-03-31T12:30:05.000042".
Proof. reflexivity. Qed.

Example fromisoformat_micro :
  Datetime.fromisoformat "2024-03-31T12:30:05.000042"
  = Ok (Datetime.mk_datetime 2024 3 31 12 30 5 42).
Proof. reflexivity. Qed.

Example fromisoformat_bad_day :
  Datetime.fromisoformat "2023-02-29T00:00:00"
  = Raise (ValueError "datetime field out of range").
Proof. reflexivity. Qed.

(** A decimal digit reads back as its value. *)
Lemma digit_val_digit (v : Z) : 0 <= v < 10 → Datetime.digit_val (Datetime.digit v) = Some v.
Proof.
  intros Hv.
  assert (Hc : v = 0 ∨ v = 1 ∨ v = 2 ∨ v = 3 ∨ v = 4 ∨ v = 5 ∨ v = 6 ∨ v = 7 ∨ v = 8 ∨ v = 9)
    by lia.
  repeat (destruct Hc as [-> | Hc]; [reflexivity |]). subst v. reflexivity.
Qed.

(** Reading [w] digits off a number padded to [w] digits. *)
Lemma read_dec_pad_dec (w k : nat) (n acc : Z) (rest : string) :
  0 <= n < 10 ^ Z.of_nat w →
  Datetime.read_dec (w + k) acc (Datetime.pad_dec w n rest)
  = Datetime.read_dec k (acc * 10 ^ Z.of_nat w + n) rest.
Proof.
  revert k n rest. induction w as [| w IH]; intros k n rest Hn.
  - simpl in *. f_equal. lia.
  - replace (S w + k)%nat with (w + S k)%nat by lia.
    cbn [Datetime.pad_dec].
    assert (Hpow : 10 ^ Z.of_nat (S w) = 10 * 10 ^ Z.of_nat w).
    { rewrite Nat2Z.inj_succ, Z.pow_succ_r by lia. reflexivity. }
    rewrite IH.
    + cbn [Datetime.read_dec]. rewrite digit_val_digit by (apply Z.mod_pos_bound; lia).
      f_equal. rewrite Hpow.
      pose proof (Z.div_mod n 10 ltac:(lia)). lia.
    + rewrite Hpow in Hn. split.
      * apply Z.div_pos; lia.
      * apply Z.div_lt_upper_bound; lia.
Qed.

Lemma read_dec_pad (w : nat) (n : Z) (rest : string) :
  0 <= n < 10 ^ Z.of_nat w →
  Datetime.read_dec w 0 (Datetime.pad_dec w n rest) = Some (n, rest).
Proof.
  intros Hn. pose proof (read_dec_pad_dec w 0 n 0 rest Hn) as H.
  rewrite Nat.add_0_r in H. rewrite H. reflexivity.
Qed.

Lemma days_in_month_le (y m : Z) : Datetime.days_in_month y m <= 31.
Proof.
  unfold Datetime.days_in_month. destruct (_ && _); [lia |].
  unfold Datetime.tbl.
  destruct (Z.to_nat m) as [| [| [| [| [| [| [| [| [| [| [| [| [| k]]]]]]]]]]]]];
    cbn; try lia.
  destruct k; cbn; lia.
Qed.

(** What the constructor's check gives on each field. *)
Lemma valid_bounds (d : Datetime.datetime) :
  Datetime.valid d = true →
  1 <= Datetime.year d <= 9999 ∧ 1 <= Datetime.month d <= 12 ∧
  1 <= Datetime.day d <= Datetime.days_in_month (Datetime.year d) (Datetime.month d) ∧
  0 <= Datetime.hour d <= 23 ∧ 0 <= Datetime.minute d <= 59 ∧
  0 <= Datetime.second d <= 59 ∧ 0 <= Datetime.microsecond d <= 999999.
Proof.
  unfold Datetime.valid. rewrite !andb_true_iff, !Z.leb_le. tauto.
Qed.

Lemma new_valid (d : Datetime.datetime) : Datetime.valid d = true → Datetime.new d = Ok d.
Proof. unfold Datetime.new. intros ->. reflexivity. Qed.

Lemma new_Ok (d d' : Datetime.datetime) :
  Datetime.new d = Ok d' → d' = d ∧ Datetime.valid d = true.
Proof. unfold Datetime.new. destruct (Datetime.valid d); [intros [= <-]; auto | discriminate]. Qed.

(** [fromisoformat] undoes [isoformat] on every datetime object. *)
Lemma fromisoformat_isoformat (d : Datetime.datetime) :
  Datetime.valid d = true → Datetime.fromisoformat (Datetime.isoformat d) = Ok d.
Proof.
  intros Hv. destruct (valid_bounds d Hv) as (Hy & Hm & Hd & Hh & Hmi & Hs & Hu).
  pose proof (days_in_month_le (Datetime.year d) (Datetime.month d)) as Hdim.
  unfold Datetime.fromisoformat, Datetime.parse_fields, Datetime.isoformat,
    Datetime.date_isoformat.
  rewrite read_dec_pad by (simpl; lia). cbn [mbind option_bind Datetime.expect Ascii.eqb Bool.eqb].
  rewrite read_dec_pad by (simpl; lia). cbn [mbind option_bind Datetime.expect Ascii.eqb Bool.eqb].
  rewrite read_dec_pad by (simpl; lia). cbn [mbind option_bind Datetime.expect Ascii.eqb Bool.eqb].
  rewrite read_dec_pad by (simpl; lia). cbn [mbind option_bind Datetime.expect Ascii.eqb Bool.eqb].
  rewrite read_dec_pad by (simpl; lia). cbn [mbind option_bind Datetime.expect Ascii.eqb Bool.eqb].
  rewrite read_dec_pad by (simpl; lia). cbn [mbind option_bind].
  destruct (Datetime.microsecond d =? 0) eqn:Hz.
  - apply Z.eqb_eq in Hz. destruct d; simpl in *; subst. apply new_valid, Hv.
  - cbn [mbind option_bind Datetime.expect Ascii.eqb Bool.eqb].
    rewrite read_dec_pad by (simpl; lia). cbn [mbind option_bind].
    destruct d; simpl in *. apply new_valid, Hv.
Qed.

Lemma cmp_list_antisym (a b : list Z) :
  Datetime.cmp_list b a = CompOpp (Datetime.cmp_list a b).
Proof.
  revert b. induction a as [| x a IH]; intros [| y b]; simpl; try reflexivity.
  rewrite (Z.compare_antisym x y). destruct (x ?= y); simpl; auto.
Qed.

Lemma cmp_antisym (a b : Datetime.datetime) :
  Datetime.cmp b a = CompOpp (Datetime.cmp a b).
Proof. apply cmp_list_antisym. Qed.

(** [now > expires] holds exactly when [expires] lies strictly before [now]. *)
Lemma gtb_true_iff_lt (now expires : Datetime.datetime) :
  Datetime.gtb now expires = true ↔ Datetime.lt expires now.
Proof.
  unfold Datetime.gtb, Datetime.lt. rewrite (cmp_antisym now expires).
  destruct (Datetime.cmp now expires); simpl; split; congruence.
Qed.

Lemma gtb_false_iff_le (now expires : Datetime.datetime) :
  Datetime.gtb now expires = false ↔ Datetime.le now expires.
Proof.
  unfold Datetime.gtb, Datetime.le.
  destruct (Datetime.cmp now expires); simpl; split; congruence.
Qed.

(** ** Field order is chronological order *)

Lemma month_cases (m : Z) :
  1 <= m <= 12 →
  m = 1 ∨ m = 2 ∨ m = 3 ∨ m = 4 ∨ m = 5 ∨ m = 6 ∨ m = 7 ∨ m = 8 ∨ m = 9 ∨ m = 10 ∨ m = 11
  ∨ m = 12.
Proof. lia. Qed.

(** The days of a year before the end of month [m]. *)
Lemma days_through_month (y m d : Z) :
  1 <= m <= 12 → 1 <= d <= Datetime.days_in_month y m →
  1 <= Datetime.days_before_month y m + d <= 365 + (if Datetime.is_leap y then 1 else 0).
Proof.
  intros Hm Hd. unfold Datetime.days_before_month, Datetime.days_in_month in *.
  destruct (Datetime.is_leap y);
    destruct (month_cases m Hm) as [-> | [-> | [-> | [-> | [-> | [-> | [-> | [-> | [-> | [-> | [-> | ->]]]]]]]]]]];
    unfold Datetime.tbl, Datetime.DAYS_IN_MONTH, Datetime.DAYS_BEFORE_MONTH in *; simpl in *; lia.
Qed.

Lemma days_before_month_mono (y m m' d : Z) :
  1 <= m → m < m' → m' <= 12 → 1 <= d <= Datetime.days_in_month y m →
  Datetime.days_before_month y m + d <= Datetime.days_before_month y m'.
Proof.
  intros Hm Hlt Hm' Hd. unfold Datetime.days_before_month, Datetime.days_in_month in *.
  destruct (Datetime.is_leap y);
    destruct (month_cases m ltac:(lia)) as [-> | [-> | [-> | [-> | [-> | [-> | [-> | [-> | [-> | [-> | [-> | ->]]]]]]]]]]];
    destruct (month_cases m' ltac:(lia)) as [-> | [-> | [-> | [-> | [-> | [-> | [-> | [-> | [-> | [-> | [-> | ->]]]]]]]]]]];
    unfold Datetime.tbl, Datetime.DAYS_IN_MONTH, Datetime.DAYS_BEFORE_MONTH in *; simpl in *; lia.
Qed.

Lemma days_before_next_year (y : Z) :
  Datetime.days_before_year (y + 1)
  = Datetime.days_before_year y + 365 + (if Datetime.is_leap y then 1 else 0).
Proof.
  unfold Datetime.days_before_year, Datetime.is_leap.
  replace (y + 1 - 1) with y by lia.
  destruct (y mod 4 =? 0) eqn:H4; destruct (y mod 100 =? 0) eqn:H100;
    destruct (y mod 400 =? 0) eqn:H400; cbn [andb orb negb];
    rewrite ?Z.eqb_eq, ?Z.eqb_neq in *; Z.div_mod_to_equations; lia.
Qed.

Lemma days_before_year_mono (y y' : Z) :
  y <= y' → Datetime.days_before_year y <= Datetime.days_before_year y'.
Proof.
  intros H. unfold Datetime.days_before_year. Z.div_mod_to_equations. lia.
Qed.

Lemma ymd2ord_lt_year (y m d y' m' d' : Z) :
  1 <= m <= 12 → 1 <= d <= Datetime.days_in_month y m →
  1 <= m' <= 12 → 1 <= d' <= Datetime.days_in_month y' m' →
  y < y' → Datetime.ymd2ord y m d < Datetime.ymd2ord y' m' d'.
Proof.
  intros Hm Hd Hm' Hd' Hlt. unfold Datetime.ymd2ord.
  pose proof (days_through_month y m d Hm Hd).
  pose proof (days_through_month y' m' d' Hm' Hd').
  pose proof (days_before_next_year y).
  pose proof (days_before_year_mono (y + 1) y' ltac:(lia)).
  lia.
Qed.

Lemma ymd2ord_lt_month (y m d m' d' : Z) :
  1 <= m <= 12 → 1 <= d <= Datetime.days_in_month y m →
  1 <= m' <= 12 → 1 <= d' <= Datetime.days_in_month y m' →
  m < m' → Datetime.ymd2ord y m d < Datetime.ymd2ord y m' d'.
Proof.
  intros Hm Hd Hm' Hd' Hlt. unfold Datetime.ymd2ord.
  pose proof (days_before_month_mono y m m' d ltac:(lia) Hlt ltac:(lia) Hd).
  lia.
Qed.

(** On datetime objects the order of the fields is the order of the instants. *)
Lemma cmp_chronological (a b : Datetime.datetime) :
  Datetime.valid a = true → Datetime.valid b = true →
  Datetime.cmp a b = (Datetime.to_micros a ?= Datetime.to_micros b).
Proof.
  intros Ha Hb.
  destruct (valid_bounds a Ha) as (Hy & Hm & Hd & Hh & Hmi & Hs & Hu).
  destruct (valid_bounds b Hb) as (Hy' & Hm' & Hd' & Hh' & Hmi' & Hs' & Hu').
  destruct a as [y m d hh mi ss us], b as [y' m' d' hh' mi' ss' us'].
  unfold Datetime.cmp, Datetime.fields, Datetime.to_micros. cbn [Datetime.cmp_list] in *.
  cbn [Datetime.year Datetime.month Datetime.day Datetime.hour Datetime.minute
       Datetime.second Datetime.microsecond] in *.
  symmetry.
  destruct (Z.compare_spec y y') as [-> | Hlt | Hlt].
  2: { pose proof (ymd2ord_lt_year y m d y' m' d' Hm Hd Hm' Hd' Hlt).
       apply Z.compare_lt_iff. lia. }
  2: { pose proof (ymd2ord_lt_year y' m' d' y m d Hm' Hd' Hm Hd Hlt).
       apply Z.compare_gt_iff. lia. }
  destruct (Z.compare_spec m m') as [-> | Hlt | Hlt].
  2: { pose proof (ymd2ord_lt_month y' m d m' d' Hm Hd Hm' Hd' Hlt).
       apply Z.compare_lt_iff. lia. }
  2: { pose proof (ymd2ord_lt_month y' m' d' m d Hm' Hd' Hm Hd Hlt).
       apply Z.compare_gt_iff. lia. }
  set (o := Datetime.days_before_year y' + Datetime.days_before_month y' m').
  unfold Datetime.ymd2ord. fold o.
  destruct (Z.compare_spec d d') as [-> | Hlt | Hlt];
    [| apply Z.compare_lt_iff; lia | apply Z.compare_gt_iff; lia].
  destruct (Z.compare_spec hh hh') as [-> | Hlt | Hlt];
    [| apply Z.compare_lt_iff; lia | apply Z.compare_gt_iff; lia].
  destruct (Z.compare_spec mi mi') as [-> | Hlt | Hlt];
    [| apply Z.compare_lt_iff; lia | apply Z.compare_gt_iff; lia].
  destruct (Z.compare_spec ss ss') as [-> | Hlt | Hlt];
    [| apply Z.compare_lt_iff; lia | apply Z.compare_gt_iff; lia].
  destruct (Z.compare_spec us us') as [-> | Hlt | Hlt];
    [| apply Z.compare_lt_iff; lia | apply Z.compare_gt_iff; lia].
  apply Z.compare_refl.
Qed.

Lemma lt_chronological (a b : Datetime.datetime) :
  Datetime.valid a = true → Datetime.valid b = true →
  (Datetime.lt a b ↔ Datetime.to_micros a < Datetime.to_micros b).
Proof.
  intros Ha Hb. unfold Datetime.lt. rewrite (cmp_chronological a b Ha Hb).
  apply Z.compare_lt_iff.
Qed.

Lemma le_chronological (a b : Datetime.datetime) :
  Datetime.valid a = true → Datetime.valid b = true →
  (Datetime.le a b ↔ Datetime.to_micros a <= Datetime.to_micros b).
Proof.
  intros Ha Hb. unfold Datetime.le. rewrite (cmp_chronological a b Ha Hb).
  apply Z.compare_le_iff.
Qed.

Lemma fromisoformat_Ok_valid (s : string) (d : Datetime.datetime) :
  Datetime.fromisoformat s = Ok d → Datetime.valid d = true.
Proof.
  unfold Datetime.fromisoformat. destruct (Datetime.parse_fields s) as [r |]; [| discriminate].
  intros H. apply new_Ok in H. destruct H as [-> H]. exact H.
Qed.

(** [now > expires], the test of [track_click], in terms of instants. *)
Lemma gtb_true_chronological (now expires : Datetime.datetime) :
  Datetime.valid now = true → Datetime.valid expires = true →
  (Datetime.gtb now expires = true ↔ Datetime.to_micros expires < Datetime.to_micros now).
Proof.
  intros Hn He. rewrite gtb_true_iff_lt. apply lt_chronological; assumption.
Qed.

Lemma gtb_false_chronological (now expires : Datetime.datetime) :
  Datetime.valid now = true → Datetime.valid expires = true →
  (Datetime.gtb now expires = false ↔ Datetime.to_micros now <= Datetime.to_micros expires).
Proof.
  intros Hn He. rewrite gtb_false_iff_le. apply le_chronological; assumption.
Qed.

(** ** Ordinals and calendar dates *)

Lemma leap_flag (a b c e : Z) :
  0 <= b <= 3 → 0 <= c <= 24 → 0 <= e <= 3 →
  Datetime.is_leap (a * 400 + 1 + b * 100 + c * 4 + e)
  = (e =? 3) && (negb (c =? 24) || (b =? 3)).
Proof.
  intros Hb Hc He. unfold Datetime.is_leap.
  destruct (e =? 3) eqn:E3; destruct (c =? 24) eqn:C24; destruct (b =? 3) eqn:B3;
    cbn [andb orb negb];
    rewrite ?Z.eqb_eq, ?Z.eqb_neq in *;
    rewrite ?andb_true_iff, ?andb_false_iff, ?orb_true_iff, ?orb_false_iff,
      ?negb_true_iff, ?negb_false_iff, ?Z.eqb_eq, ?Z.eqb_neq;
    Z.div_mod_to_equations; lia.
Qed.

Lemma days_before_year_split (a b c e : Z) :
  0 <= b <= 3 → 0 <= c <= 24 → 0 <= e <= 3 →
  Datetime.days_before_year (a * 400 + 1 + b * 100 + c * 4 + e)
  = a * 146097 + b * 36524 + c * 1461 + e * 365.
Proof.
  intros Hb Hc He. unfold Datetime.days_before_year. Z.div_mod_to_equations. lia.
Qed.

(** The month and the day of the [r]-th day of a year, [r] counted from 0. *)
Lemma month_of_day (leap : bool) (r : Z) :
  0 <= r <= 364 →
  ∃ m d,
    (let m0 := Z.shiftr (r + 50) 5 in
     let preceding :=
       Datetime.tbl Datetime.DAYS_BEFORE_MONTH m0 + (if (2 <? m0) && leap then 1 else 0) in
     if r <? preceding
     then (m0 - 1,
           r - (preceding - (Datetime.tbl Datetime.DAYS_IN_MONTH (m0 - 1)
                             + (if (m0 - 1 =? 2) && leap then 1 else 0))) + 1)
     else (m0, r - preceding + 1)) = (m, d) ∧
    1 <= m <= 12 ∧
    1 <= d <= (if (m =? 2) && leap then 29 else Datetime.tbl Datetime.DAYS_IN_MONTH m) ∧
    Datetime.tbl Datetime.DAYS_BEFORE_MONTH m + (if (2 <? m) && leap then 1 else 0) + d = r + 1.
Proof.
  intros Hr. cbv zeta. rewrite Z.shiftr_div_pow2 by lia.
  change (2 ^ 5) with 32.
  assert (Hm : 1 <= (r + 50) / 32 <= 12) by (Z.div_mod_to_equations; lia).
  assert (Hq : 32 * ((r + 50) / 32) <= r + 50 < 32 * ((r + 50) / 32) + 32)
    by (Z.div_mod_to_equations; lia).
  set (m0 := (r + 50) / 32) in *.
  destruct leap;
    destruct (month_cases m0 Hm) as [E | [E | [E | [E | [E | [E | [E | [E | [E | [E | [E | E]]]]]]]]]]];
    rewrite E in *; clear E;
    unfold Datetime.tbl, Datetime.DAYS_IN_MONTH, Datetime.DAYS_BEFORE_MONTH; simpl;
    match goal with
    | |- context [r <? ?p] => destruct (Z.ltb_spec r p)
    end;
    eexists; eexists; (split; [reflexivity |]); simpl; lia.
Qed.

(** [ord2ymd] yields a calendar date, the one that [ymd2ord] numbers [n]. *)
Lemma ord2ymd_spec (n : Z) :
  1 <= n <= Datetime.MAXORDINAL →
  ∃ y m d,
    Datetime.ord2ymd n = (y, m, d) ∧
    1 <= y <= 9999 ∧ 1 <= m <= 12 ∧ 1 <= d <= Datetime.days_in_month y m ∧
    Datetime.ymd2ord y m d = n.
Proof.
  unfold Datetime.MAXORDINAL. intros Hn.
  unfold Datetime.ord2ymd, Datetime.DI400Y, Datetime.DI100Y, Datetime.DI4Y. cbv zeta.
  pose proof (Z.div_mod (n - 1) 146097 ltac:(lia)) as E1.
  pose proof (Z.mod_pos_bound (n - 1) 146097 ltac:(lia)) as B1.
  set (a := (n - 1) / 146097) in *. set (r1 := (n - 1) mod 146097) in *.
  pose proof (Z.div_mod r1 36524 ltac:(lia)) as E2.
  pose proof (Z.mod_pos_bound r1 36524 ltac:(lia)) as B2.
  set (b := r1 / 36524) in *. set (r2 := r1 mod 36524) in *.
  pose proof (Z.div_mod r2 1461 ltac:(lia)) as E3.
  pose proof (Z.mod_pos_bound r2 1461 ltac:(lia)) as B3.
  set (c := r2 / 1461) in *. set (r3 := r2 mod 1461) in *.
  pose proof (Z.div_mod r3 365 ltac:(lia)) as E4.
  pose proof (Z.mod_pos_bound r3 365 ltac:(lia)) as B4.
  set (e := r3 / 365) in *. set (r := r3 mod 365) in *.
  assert (Ha : 0 <= a <= 24) by lia.
  assert (Hb : 0 <= b <= 4) by lia.
  assert (Hc : 0 <= c <= 24) by lia.
  assert (He : 0 <= e <= 4) by lia.
  destruct ((e =? 4) || (b =? 4)) eqn:Hsp.
  - exists (a * 400 + 1 + b * 100 + c * 4 + e - 1), 12, 31.
    split; [reflexivity |].
    apply orb_true_iff in Hsp. rewrite !Z.eqb_eq in Hsp.
    split; [lia |]. split; [lia |].
    split; [unfold Datetime.days_in_month, Datetime.tbl; simpl; lia |].
    unfold Datetime.ymd2ord, Datetime.days_before_month, Datetime.days_before_year,
      Datetime.is_leap.
    change (Datetime.tbl Datetime.DAYS_BEFORE_MONTH 12) with 334.
    change (2 <? 12) with true. cbn [andb].
    set (Y := a * 400 + 1 + b * 100 + c * 4 + e - 1) in *.
    destruct (Y mod 4 =? 0) eqn:H4; destruct (Y mod 100 =? 0) eqn:H100;
      destruct (Y mod 400 =? 0) eqn:H400; cbn [andb orb negb];
      rewrite ?Z.eqb_eq, ?Z.eqb_neq in *; subst Y; Z.div_mod_to_equations; lia.
  - apply orb_false_iff in Hsp. rewrite !Z.eqb_neq in Hsp.
    assert (Hb' : 0 <= b <= 3) by lia. assert (He' : 0 <= e <= 3) by lia.
    set (leap := (e =? 3) && (negb (c =? 24) || (b =? 3))).
    destruct (month_of_day leap r ltac:(lia)) as (m & d & Hmd & Hm & Hd & Hsum).
    cbv zeta in Hmd.
    exists (a * 400 + 1 + b * 100 + c * 4 + e), m, d.
    split.
    + destruct (r <? _); injection Hmd as <- <-; reflexivity.
    + pose proof (leap_flag a b c e Hb' Hc He') as Hleap. fold leap in Hleap.
      pose proof (days_before_year_split a b c e Hb' Hc He') as Hdby.
      split; [lia |]. split; [lia |].
      unfold Datetime.days_in_month, Datetime.ymd2ord, Datetime.days_before_month.
      rewrite Hleap, Hdby. split; [exact Hd | lia].
Qed.

(** Adding days moves the instant by that many days. *)
Lemma to_micros_add_days (t : Datetime.datetime) (n : Z) (t' : Datetime.datetime) :
  Datetime.add_days t n = Ok t' →
  Datetime.to_micros t' = Datetime.to_micros t + n * 86400000000.
Proof.
  unfold Datetime.add_days.
  set (o := Datetime.ymd2ord (Datetime.year t) (Datetime.month t) (Datetime.day t) + n).
  destruct (_ && _) eqn:Hrange; [| discriminate].
  apply andb_true_iff in Hrange. rewrite Z.ltb_lt, Z.leb_le in Hrange.
  destruct (ord2ymd_spec o ltac:(lia)) as (y & m & d & -> & _ & _ & _ & Hord).
  intros H. apply new_Ok in H. destruct H as [-> _].
  unfold Datetime.to_micros. simpl. rewrite Hord. subst o. lia.
Qed.

(** Adding days fails only past the last day of year 9999 (or before the
    first day of year 1). *)
Lemma add_days_in_range (t : Datetime.datetime) (n : Z) :
  Datetime.valid t = true →
  0 < Datetime.ymd2ord (Datetime.year t) (Datetime.month t) (Datetime.day t) + n
    <= Datetime.MAXORDINAL →
  ∃ t', Datetime.add_days t n = Ok t'.
Proof.
  intros Hv Hrange. unfold Datetime.add_days.
  set (o := Datetime.ymd2ord (Datetime.year t) (Datetime.month t) (Datetime.day t) + n) in *.
  destruct (valid_bounds t Hv) as (_ & _ & _ & Hh & Hmi & Hs & Hu).
  replace ((0 <? o) && (o <=? Datetime.MAXORDINAL)) with true
    by (symmetry; apply andb_true_iff; rewrite Z.ltb_lt, Z.leb_le; lia).
  destruct (ord2ymd_spec o ltac:(lia)) as (y & m & d & -> & Hy & Hm & Hd & _).
  eexists. apply new_valid. unfold Datetime.valid. simpl.
  rewrite !andb_true_iff, !Z.leb_le. lia.
Qed.

(** ** The tracker, step by step *)


Lemma utcnow_Ok_valid st d : fst (utcnow st) = Ok d → Datetime.valid d = true.
Proof.
  unfold utcnow. simpl. destruct (clock _ _) as [r | e]; [| discriminate].
  intros H. apply new_Ok in H. destruct H as [-> H]. exact H.
Qed.

(** [generate_token], one oracle answer after the other. *)
Lemma generate_token_unfold st u em c :
  generate_token u em c st =
  match fst (token_urlsafe token_length st) with
  | Raise e => (Raise e, draw st)
  | Ok token =>
      match fst (utcnow (draw st)) with
      | Raise e => (Raise e, tick (draw st))
      | Ok created =>
          match fst (utcnow (tick (draw st))) with
          | Raise e => (Raise e, tick (tick (draw st)))
          | Ok now =>
              match Datetime.add_days now 90 with
              | Raise e => (Raise e, tick (tick (draw st)))
              | Ok expires =>
                  (Ok token,
                   mk_state (<[token := fresh_token_data u em c created expires]> (_tokens st))
                     (<[token := []]> (_clicks st))
                     (env (tick (tick (draw st)))))
              end
          end
      end
  end.
Proof.
  unfold generate_token, generate_token_body, try_except, mbind, M_bind, lift, raise, get, set_tokens, set_clicks, mret, M_ret.
  change (token_urlsafe token_length st) with ((token_urlsafe token_length st).1, draw st).
  destruct ((token_urlsafe token_length st).1) as [token | e]; cbn [fst snd];
    [| destruct (is_Exception e); reflexivity].
  change (utcnow (draw st)) with ((utcnow (draw st)).1, tick (draw st)).
  destruct ((utcnow (draw st)).1) as [created | e]; cbn [fst snd];
    [| destruct (is_Exception e); reflexivity].
  change (utcnow (tick (draw st))) with ((utcnow (tick (draw st))).1, tick (tick (draw st))).
  destruct ((utcnow (tick (draw st))).1) as [now | e]; cbn [fst snd];
    [| destruct (is_Exception e); reflexivity].
  destruct (Datetime.add_days now 90) as [expires | e];
    [| destruct (is_Exception e); reflexivity].
  reflexivity.
Qed.

(** [track_click], one step after the other. *)
Lemma track_click_unfold st token ip ua :
  track_click token ip ua st =
  match _tokens st !! token with
  | None => (Ok (TrackFailure "Invalid token"), st)
  | Some td =>
      match Datetime.fromisoformat (expires_at td) with
      | Raise e => (caught e, st)
      | Ok expires =>
          match fst (utcnow st) with
          | Raise e => (caught e, tick st)
          | Ok now =>
              if Datetime.gtb now expires then (Ok (TrackFailure "Token expired"), tick st)
              else
                match fst (utcnow (tick st)) with
                | Raise e => (caught e, tick (tick st))
                | Ok stamp =>
                    match _clicks st !! token with
                    | None => (caught (KeyError token), tick (tick st))
                    | Some clicks =>
                        (Ok (TrackSuccess (target_url td) (Datetime.isoformat stamp)
                               (click_count td + 1)),
                         mk_state (<[token := clicked td]> (_tokens st))
                           (<[token := (clicks ++ [new_click token ip ua stamp])%list]> (_clicks st))
                           (env (tick (tick st))))
                    end
                end
          end
      end
  end.
Proof.
  unfold track_click, track_click_body, try_except, mbind, M_bind, lift, raise, get, set_tokens, set_clicks,
    mret, M_ret, caught.
  destruct (_tokens st !! token) as [td |]; [| reflexivity].
  destruct (Datetime.fromisoformat (expires_at td)) as [expires | e];
    [| destruct (is_Exception e); reflexivity].
  change (utcnow st) with ((utcnow st).1, tick st).
  destruct ((utcnow st).1) as [now | e]; cbn [fst snd];
    [| destruct (is_Exception e); reflexivity].
  destruct (Datetime.gtb now expires); [reflexivity |].
  change (utcnow (tick st)) with ((utcnow (tick st)).1, tick (tick st)).
  destruct ((utcnow (tick st)).1) as [stamp | e]; cbn [fst snd];
    [| destruct (is_Exception e); reflexivity].
  change (_clicks (tick (tick st))) with (_clicks st).
  destruct (_clicks st !! token) as [clicks |]; reflexivity.
Qed.

(** ** The store invariant *)

Lemma store_ok_initial w : store_ok (initial w).
Proof. split; intros token x H; simpl in H; rewrite lookup_empty in H; discriminate. Qed.

Lemma add_days_valid d n d' : Datetime.add_days d n = Ok d' → Datetime.valid d' = true.
Proof.
  unfold Datetime.add_days. destruct (_ && _); [| discriminate].
  destruct (Datetime.ord2ymd _) as [[y m] dd]. intros H. apply new_Ok in H.
  destruct H as [-> H]. exact H.
Qed.

Lemma store_ok_generate_token st u em c :
  store_ok st → store_ok (snd (generate_token u em c st)).
Proof.
  intros Hok. rewrite generate_token_unfold.
  destruct (fst (token_urlsafe _ _)) as [token | e]; [| exact Hok].
  destruct (fst (utcnow (draw st))) as [created | e]; [| exact Hok].
  destruct (fst (utcnow (tick (draw st)))) as [now | e]; [| exact Hok].
  destruct (Datetime.add_days now 90) as [expires | e] eqn:Hadd; [| exact Hok].
  destruct Hok as [Htok Hclk]. split.
  - intros token' td'. cbn [snd _tokens _clicks].
    destruct (decide (token = token')) as [<- | Hne].
    + rewrite !lookup_insert_eq. intros [= <-]. split.
      * exists []. auto.
      * exists expires. split; [eapply add_days_valid; eauto | reflexivity].
    + rewrite !lookup_insert_ne by done. apply Htok.
  - intros token' clicks. cbn [snd _clicks].
    destruct (decide (token = token')) as [<- | Hne].
    + rewrite lookup_insert_eq. intros [= <-]. constructor.
    + rewrite lookup_insert_ne by done. apply Hclk.
Qed.

Lemma store_ok_track_click st token ip ua :
  store_ok st → store_ok (snd (track_click token ip ua st)).
Proof.
  intros Hok. rewrite track_click_unfold.
  destruct (_tokens st !! token) as [td |] eqn:Htd; [| exact Hok].
  destruct (Datetime.fromisoformat _) as [expires | e]; [| exact Hok].
  destruct (fst (utcnow st)) as [now | e]; [| exact Hok].
  destruct (Datetime.gtb now expires); [exact Hok |].
  destruct (fst (utcnow (tick st))) as [stamp | e] eqn:Hstamp; [| exact Hok].
  destruct (_clicks st !! token) as [clicks |] eqn:Hcl; [| exact Hok].
  destruct Hok as [Htok Hclk]. split.
  - intros token' td'. cbn [snd _tokens _clicks].
    destruct (decide (token = token')) as [<- | Hne].
    + rewrite !lookup_insert_eq. intros [= <-].
      destruct (Htok token td Htd) as [(clicks0 & Hc0 & Hlen) Hexp].
      rewrite Hcl in Hc0. injection Hc0 as <-. split.
      * eexists. split; [reflexivity |]. simpl. rewrite length_app. simpl. lia.
      * exact Hexp.
    + rewrite !lookup_insert_ne by done. apply Htok.
  - intros token' clicks'. cbn [snd _clicks].
    destruct (decide (token = token')) as [<- | Hne].
    + rewrite lookup_insert_eq. intros [= <-]. apply Forall_app. split.
      * eapply Hclk, Hcl.
      * constructor; [| constructor]. exists stamp. split; [| reflexivity].
        eapply utcnow_Ok_valid, Hstamp.
    + rewrite lookup_insert_ne by done. apply Hclk.
Qed.

Lemma store_ok_clear_all st : store_ok (snd (clear_all st)).
Proof. split; intros token x H; simpl in H; rewrite lookup_empty in H; discriminate. Qed.

Lemma store_ok_run_call st c : store_ok st → store_ok (run_call st c).
Proof.
  destruct c; simpl; intros Hok.
  - apply store_ok_generate_token, Hok.
  - apply store_ok_track_click, Hok.
  - exact Hok.
  - exact Hok.
  - apply store_ok_clear_all.
Qed.

Lemma store_ok_run_calls cs : ∀ st, store_ok st → store_ok (run_calls st cs).
Proof.
  induction cs as [| c cs IH]; intros st Hok; simpl; [exact Hok |].
  apply IH, store_ok_run_call, Hok.
Qed.

Lemma reachable_store_ok st : reachable st → store_ok st.
Proof. intros (w & cs & ->). apply store_ok_run_calls, store_ok_initial. Qed.

(** ** Statistics *)

Lemma size_list_to_set_remove_dups (l : list string) :
  size (list_to_set l : gset string) = length (remove_dups l).
Proof.
  rewrite <- (size_list_to_set (C := gset string) (remove_dups l))
    by apply NoDup_remove_dups.
  f_equal. apply set_eq. intros x.
  rewrite !elem_of_list_to_set, elem_of_remove_dups. reflexivity.
Qed.

Lemma count_by_snoc key clicks c :
  count_by key (clicks ++ [c])
  = <[key c := default 0 (count_by key clicks !! key c) + 1]> (count_by key clicks).
Proof. unfold count_by. rewrite fold_left_app. reflexivity. Qed.

Lemma clicks_with_snoc key k clicks c :
  clicks_with key k (clicks ++ [c])
  = clicks_with key k clicks + (if decide (key c = k) then 1 else 0).
Proof.
  unfold clicks_with. rewrite filter_app, length_app.
  rewrite filter_cons, filter_nil. destruct (decide (key c = k)); simpl; lia.
Qed.

Lemma clicks_with_nonneg key k clicks : 0 <= clicks_with key k clicks.
Proof. unfold clicks_with. lia. Qed.

Lemma default_entry n : default 0 (entry n) = n.
Proof. unfold entry. destruct (n =? 0) eqn:H; simpl; [apply Z.eqb_eq in H; lia | reflexivity]. Qed.

(** Each bucket of a counting loop holds the number of clicks with that key. *)
Lemma count_by_lookup key clicks k :
  count_by key clicks !! k = entry (clicks_with key k clicks).
Proof.
  induction clicks as [| c clicks IH] using rev_ind.
  - unfold count_by. simpl. rewrite lookup_empty. reflexivity.
  - rewrite count_by_snoc, clicks_with_snoc.
    destruct (decide (key c = k)) as [-> | Hne].
    + rewrite lookup_insert_eq, IH, default_entry.
      pose proof (clicks_with_nonneg key k clicks).
      unfold entry. destruct (_ =? 0) eqn:H0; [apply Z.eqb_eq in H0; lia | reflexivity].
    + rewrite lookup_insert_ne by done. rewrite IH. f_equal. lia.
Qed.

(** C4. [get_click_stats] returns [None] exactly for a token that is not in
    the token store.  Otherwise [total_clicks] is the number of click
    records of the token, [unique_ips] the number of distinct [ip_address]
    values among them, in whatever order the records are taken, and
    [first_click] and [last_click] are the timestamps of the first and of
    the last record as inserted ([None] when there is no record). *)
Theorem get_click_stats_spec (st : state) (token : string) :
  (get_click_stats st token = None ↔ _tokens st !! token = None) ∧
  (∀ stats, get_click_stats st token = Some stats →
     let clicks := clicks_of st token in
     total_clicks stats = Z.of_nat (length clicks) ∧
     (∀ clicks', clicks' ≡ₚ clicks →
        unique_ips stats = Z.of_nat (length (remove_dups (map ip_address clicks')))) ∧
     first_click stats = timestamp <$> clicks !! 0%nat ∧
     last_click stats = timestamp <$> clicks !! (length clicks - 1)%nat ∧
     (clicks = [] → first_click stats = None ∧ last_click stats = None)).
Proof.
  unfold get_click_stats, clicks_of. split.
  - destruct (_tokens st !! token); split; congruence.
  - intros stats. destruct (_tokens st !! token); [| discriminate].
    intros [= <-]. cbn [total_clicks unique_ips first_click last_click].
    set (clicks := default [] (_clicks st !! token)).
    repeat split.
    + intros clicks' Hperm. rewrite <- size_list_to_set_remove_dups.
      do 2 f_equal. apply list_to_set_perm_L. rewrite Hperm. reflexivity.
    + rewrite head_lookup. reflexivity.
    + rewrite last_lookup. do 2 f_equal. lia.
    + rewrite H. reflexivity.
    + rewrite H. reflexivity.
Qed.

Lemma get_click_stats_spec_witness :
  ∃ stats, get_click_stats clicked_thrice sample_token = Some stats ∧
    total_clicks stats = 3 ∧ unique_ips stats = 2 ∧
    first_click stats = Some "2024-01-02T09:30:00.000250" ∧
    last_click stats = Some "2024-01-03T00:00:01.000015".
Proof.
  destruct (get_click_stats clicked_thrice sample_token) as [stats |] eqn:Hs;
    [| vm_compute in Hs; discriminate].
  exists stats. split; [reflexivity |].
  destruct (get_click_stats_spec clicked_thrice sample_token) as [_ H].
  destruct (H stats Hs) as (Ht & Hu & Hf & Hl & _).
  rewrite Ht, (Hu _ (reflexivity _)), Hf, Hl.
  vm_compute. repeat split.
Defined.

(** C9. [clear_all] empties the token store and the click store;
    afterwards [get_click_stats] returns [None] for every token string,
    those stored before the call included. *)
Theorem clear_all_empties (st : state) :
  fst (clear_all st) = Ok tt ∧
  _tokens (snd (clear_all st)) = ∅ ∧
  _clicks (snd (clear_all st)) = ∅ ∧
  ∀ token, get_click_stats (snd (clear_all st)) token = None.
Proof.
  split; [reflexivity |]. split; [reflexivity |]. split; [reflexivity |].
  intros token. unfold get_click_stats. simpl.
  rewrite lookup_empty. reflexivity.
Qed.

(** C2. [track_click] on a token string that is not in the store returns
    the outcome [{success: False, error: "Invalid token"}] and leaves the
    whole state as it was: no token record, counter or click list is
    created or changed. *)
Theorem track_click_unknown_token (st : state) (token ip ua : string) :
  _tokens st !! token = None →
  track_click token ip ua st = (Ok (TrackFailure "Invalid token"), st).
Proof. intros H. rewrite track_click_unfold, H. reflexivity. Qed.

Lemma track_click_unknown_token_witness :
  _tokens clicked_thrice !! "doesnotexist" = None ∧
  track_click "doesnotexist" "1.1.1.1" "Mozilla/5.0" clicked_thrice
  = (Ok (TrackFailure "Invalid token"), clicked_thrice).
Proof.
  split; [vm_compute; reflexivity |].
  apply (track_click_unknown_token clicked_thrice "doesnotexist" "1.1.1.1" "Mozilla/5.0").
  vm_compute. reflexivity.
Defined.

(** C10. After any sequence of [generate_token], [track_click],
    [get_click_stats], [get_token_info] and [clear_all] calls, in any
    environment, every token of the token store has a click list, the
    stored [click_count] is the length of that list, and so the
    [total_clicks] that [get_click_stats] reports is the stored
    [click_count]. *)
Theorem store_invariant (w : world) (cs : list call) (token : string) (td : token_data) :
  _tokens (run_calls (initial w) cs) !! token = Some td →
  ∃ clicks stats,
    _clicks (run_calls (initial w) cs) !! token = Some clicks ∧
    click_count td = Z.of_nat (length clicks) ∧
    get_click_stats (run_calls (initial w) cs) token = Some stats ∧
    total_clicks stats = click_count td.
Proof.
  intros Htd.
  assert (Hok : store_ok (run_calls (initial w) cs))
    by (apply store_ok_run_calls, store_ok_initial).
  destruct (proj1 Hok token td Htd) as [(clicks & Hcl & Hlen) _].
  exists clicks. unfold get_click_stats. rewrite Htd, Hcl.
  eexists. repeat split; try eassumption. simpl. lia.
Qed.

Lemma store_invariant_witness :
  _tokens clicked_thrice !! sample_token
  = Some (mk_token_data sample_url (Some "a@b.co") "spring"
            "2024-01-01T12:00:00" "2024-03-31T12:00:00.000007" 3) ∧
  ∃ clicks stats,
    _clicks clicked_thrice !! sample_token = Some clicks ∧
    3 = Z.of_nat (length clicks) ∧
    get_click_stats clicked_thrice sample_token = Some stats ∧
    total_clicks stats = 3.
Proof.
  split; [vm_compute; reflexivity |].
  apply (store_invariant sample_world sample_calls sample_token
           (mk_token_data sample_url (Some "a@b.co") "spring"
              "2024-01-01T12:00:00" "2024-03-31T12:00:00.000007" 3)).
  vm_compute. reflexivity.
Defined.

Lemma digit_not_T (v : Z) : 0 <= v < 10 → Ascii.eqb (Datetime.digit v) "T" = false.
Proof.
  intros Hv.
  assert (Hc : v = 0 ∨ v = 1 ∨ v = 2 ∨ v = 3 ∨ v = 4 ∨ v = 5 ∨ v = 6 ∨ v = 7 ∨ v = 8 ∨ v = 9)
    by lia.
  repeat (destruct Hc as [-> | Hc]; [reflexivity |]). subst v. reflexivity.
Qed.

Lemma before_T_pad_dec (w : nat) (n : Z) (rest : string) :
  PyStr.before "T" (Datetime.pad_dec w n rest) = Datetime.pad_dec w n (PyStr.before "T" rest).
Proof.
  revert n rest. induction w as [| w IH]; intros n rest; [reflexivity |].
  cbn [Datetime.pad_dec]. rewrite IH. cbn [PyStr.before].
  rewrite digit_not_T by (apply Z.mod_pos_bound; lia). reflexivity.
Qed.

(** The text before the [T] of an ISO timestamp is its calendar date. *)
Lemma before_T_isoformat (d : Datetime.datetime) :
  PyStr.before "T" (Datetime.isoformat d) = Datetime.date_isoformat d EmptyString.
Proof.
  unfold Datetime.isoformat, Datetime.date_isoformat.
  rewrite before_T_pad_dec. cbn [PyStr.before Ascii.eqb Bool.eqb]. f_equal.
  rewrite before_T_pad_dec. cbn [PyStr.before Ascii.eqb Bool.eqb]. f_equal.
  rewrite before_T_pad_dec. reflexivity.
Qed.

(** C7. In the statistics of a known token, [clicks_by_date] maps each
    date (the text before the [T] of a click's timestamp, which for every
    click the tracker records is the calendar date [YYYY-MM-DD] of its UTC
    timestamp) to the number of clicks of that day, and
    [clicks_by_user_agent] maps each user agent cut to its first 50
    characters to the number of clicks whose user agent starts with those 50
    characters: two clicks sharing that prefix fall into the same bucket. *)
Theorem click_buckets (st : state) (token : string) (stats : click_stats) :
  get_click_stats st token = Some stats →
  (∀ date, clicks_by_date stats !! date
           = entry (clicks_with (fun c => PyStr.before "T" (timestamp c)) date
                      (clicks_of st token))) ∧
  (∀ ua, clicks_by_user_agent stats !! ua
         = entry (clicks_with (fun c => PyStr.take 50 (user_agent c)) ua (clicks_of st token))) ∧
  (∀ c1 c2, c1 ∈ clicks_of st token → c2 ∈ clicks_of st token →
     PyStr.take 50 (user_agent c1) = PyStr.take 50 (user_agent c2) →
     ∃ n, clicks_by_user_agent stats !! PyStr.take 50 (user_agent c1) = Some n ∧
          clicks_by_user_agent stats !! PyStr.take 50 (user_agent c2) = Some n ∧
          (c1 ≠ c2 → 2 <= n)) ∧
  (reachable st → ∀ c, c ∈ clicks_of st token →
     ∃ stamp, Datetime.valid stamp = true ∧ timestamp c = Datetime.isoformat stamp ∧
       PyStr.before "T" (timestamp c) = Datetime.date_isoformat stamp EmptyString).
Proof.
  unfold get_click_stats. destruct (_tokens st !! token); [| discriminate].
  intros [= <-]. cbn [clicks_by_date clicks_by_user_agent]. fold (clicks_of st token).
  split; [intros; apply count_by_lookup |].
  split; [intros; apply count_by_lookup |].
  split.
  - intros c1 c2 H1 H2 Heq. rewrite <- Heq, count_by_lookup.
    set (key := fun c => PyStr.take 50 (user_agent c)).
    set (k := PyStr.take 50 (user_agent c1)).
    assert (Hin1 : c1 ∈ filter (fun c => key c = k) (clicks_of st token))
      by (apply list_elem_of_filter; split; [reflexivity | exact H1]).
    assert (Hin2 : c2 ∈ filter (fun c => key c = k) (clicks_of st token))
      by (apply list_elem_of_filter; split; [symmetry; exact Heq | exact H2]).
    exists (clicks_with key k (clicks_of st token)).
    unfold clicks_with, entry.
    destruct (filter _ _) as [| a [| b l]] eqn:Hf.
    + apply elem_of_nil in Hin1. contradiction.
    + split; [reflexivity |]. split; [reflexivity |]. intros Hne.
      apply list_elem_of_singleton in Hin1, Hin2. congruence.
    + split; [reflexivity |]. split; [reflexivity |]. intros _. simpl length. lia.
  - intros Hreach c Hc. apply reachable_store_ok in Hreach. destruct Hreach as [_ Hclk].
    unfold clicks_of in Hc. destruct (_clicks st !! token) as [clicks |] eqn:Hcl.
    + simpl in Hc. pose proof (Hclk token clicks Hcl) as Hall.
      rewrite Forall_forall in Hall. destruct (Hall c Hc) as (stamp & Hv & Hts).
      exists stamp. split; [exact Hv |]. split; [exact Hts |].
      rewrite Hts. apply before_T_isoformat.
    + simpl in Hc. apply elem_of_nil in Hc. contradiction.
Qed.

Lemma click_buckets_witness :
  ∃ stats, get_click_stats two_agents sample_token = Some stats ∧
    clicks_by_date stats !! "2024-01-02" = Some 2 ∧
    clicks_by_date stats !! "2024-01-03" = None ∧
    clicks_by_user_agent stats !! agent_prefix = Some 2.
Proof.
  destruct (get_click_stats two_agents sample_token) as [stats |] eqn:Hs;
    [| vm_compute in Hs; discriminate].
  exists stats. split; [reflexivity |].
  destruct (click_buckets two_agents sample_token stats Hs) as (Hd & Hu & _).
  rewrite !Hd, Hu. vm_compute. repeat split.
Defined.

(** ** Recording a click *)

Lemma reachable_expiry_parses st token td :
  reachable st → _tokens st !! token = Some td →
  ∃ expires, Datetime.fromisoformat (expires_at td) = Ok expires.
Proof.
  intros Hr Htd. apply reachable_store_ok in Hr.
  destruct (proj1 Hr token td Htd) as [_ (expires & Hv & ->)].
  exists expires. apply fromisoformat_isoformat, Hv.
Qed.

(** An accepted click, as one step of the store. *)
Lemma track_click_accepted st token ip ua td expires now stamp clicks :
  _tokens st !! token = Some td →
  Datetime.fromisoformat (expires_at td) = Ok expires →
  fst (utcnow st) = Ok now →
  Datetime.gtb now expires = false →
  fst (utcnow (tick st)) = Ok stamp →
  _clicks st !! token = Some clicks →
  track_click token ip ua st
  = (Ok (TrackSuccess (target_url td) (Datetime.isoformat stamp) (click_count td + 1)),
     mk_state (<[token := clicked td]> (_tokens st))
       (<[token := (clicks ++ [new_click token ip ua stamp])%list]> (_clicks st))
       (env (tick (tick st)))).
Proof.
  intros Htd Hexp Hnow Hg Hstamp Hcl.
  rewrite track_click_unfold, Htd, Hexp, Hnow, Hg, Hstamp, Hcl. reflexivity.
Qed.

(** C1. For a token of the store whose expiry is not before the instant
    that the clock shows at the check, [track_click] appends exactly one click record,
    carrying the given [ip_address] and [user_agent], the timestamp read
    from the clock during the call and the hash computed from the token and
    the address; it adds exactly 1 to the [click_count] of that token and
    returns [{success: True, target_url, timestamp, click_count}].  A
    [get_click_stats] right after shows [total_clicks] one higher than
    before and [last_click] equal to the timestamp just recorded. *)
Theorem track_click_records (st : state) (token ip ua : string) (td : token_data)
    (expires now stamp : Datetime.datetime) :
  reachable st →
  _tokens st !! token = Some td →
  Datetime.fromisoformat (expires_at td) = Ok expires →
  fst (utcnow st) = Ok now →
  Datetime.to_micros now <= Datetime.to_micros expires →
  fst (utcnow (tick st)) = Ok stamp →
  ∃ clicks stats stats',
    _clicks st !! token = Some clicks ∧
    fst (track_click token ip ua st)
    = Ok (TrackSuccess (target_url td) (Datetime.isoformat stamp) (click_count td + 1)) ∧
    _clicks (snd (track_click token ip ua st))
    = <[token := (clicks ++ [mk_click_data ip ua (Datetime.isoformat stamp)
                               (Sha256.hexdigest (PyStr.encode (token ++ ":" ++ ip)))])%list]>
        (_clicks st) ∧
    _tokens (snd (track_click token ip ua st)) = <[token := clicked td]> (_tokens st) ∧
    click_count (clicked td) = click_count td + 1 ∧
    get_click_stats st token = Some stats ∧
    get_click_stats (snd (track_click token ip ua st)) token = Some stats' ∧
    total_clicks stats' = total_clicks stats + 1 ∧
    last_click stats' = Some (Datetime.isoformat stamp).
Proof.
  intros Hr Htd Hexp Hnow Hle Hstamp.
  apply reachable_store_ok in Hr.
  destruct (proj1 Hr token td Htd) as [(clicks & Hcl & Hlen) _].
  apply gtb_false_chronological in Hle;
    [| eapply utcnow_Ok_valid; eassumption | eapply fromisoformat_Ok_valid; eassumption].
  rewrite (track_click_accepted st token ip ua td expires now stamp clicks)
    by assumption.
  cbn [fst snd _tokens _clicks].
  unfold get_click_stats. cbn [_tokens _clicks]. rewrite Htd, Hcl, !lookup_insert_eq.
  exists clicks. eexists. eexists.
  split; [reflexivity |]. split; [reflexivity |]. split; [reflexivity |].
  split; [reflexivity |]. split; [reflexivity |]. split; [reflexivity |].
  split; [reflexivity |]. split.
  - cbn [total_clicks default from_option id]. rewrite length_app. simpl. lia.
  - cbn [last_click default from_option id]. rewrite last_snoc. reflexivity.
Qed.

Lemma track_click_records_witness :
  ∃ clicks stats stats',
    _clicks issued !! sample_token = Some clicks ∧
    fst (track_click sample_token "1.1.1.1" "Mozilla/5.0" issued)
    = Ok (TrackSuccess sample_url "2024-01-02T09:30:00.000250" (0 + 1)) ∧
    _clicks (snd (track_click sample_token "1.1.1.1" "Mozilla/5.0" issued))
    = <[sample_token :=
          (clicks ++ [mk_click_data "1.1.1.1" "Mozilla/5.0" "2024-01-02T09:30:00.000250"
                        (Sha256.hexdigest (PyStr.encode (sample_token ++ ":" ++ "1.1.1.1")))])%list]>
        (_clicks issued) ∧
    _tokens (snd (track_click sample_token "1.1.1.1" "Mozilla/5.0" issued))
    = <[sample_token := clicked (mk_token_data sample_url (Some "a@b.co") "spring"
                                   "2024-01-01T12:00:00" "2024-03-31T12:00:00.000007" 0)]>
        (_tokens issued) ∧
    0 + 1 = 0 + 1 ∧
    get_click_stats issued sample_token = Some stats ∧
    get_click_stats (snd (track_click sample_token "1.1.1.1" "Mozilla/5.0" issued)) sample_token
    = Some stats' ∧
    total_clicks stats' = total_clicks stats + 1 ∧
    last_click stats' = Some "2024-01-02T09:30:00.000250".
Proof.
  apply (track_click_records issued sample_token "1.1.1.1" "Mozilla/5.0"
           (mk_token_data sample_url (Some "a@b.co") "spring"
              "2024-01-01T12:00:00" "2024-03-31T12:00:00.000007" 0)
           (Datetime.mk_datetime 2024 3 31 12 0 0 7)
           (Datetime.mk_datetime 2024 1 2 9 30 0 0)
           (Datetime.mk_datetime 2024 1 2 9 30 0 250)).
  - exists sample_world, (firstn 1 sample_calls). reflexivity.
  - vm_compute. reflexivity.
  - vm_compute. reflexivity.
  - vm_compute. reflexivity.
  - vm_compute. discriminate.
  - vm_compute. reflexivity.
Defined.

(** C3. For a stored token whose expiry lies strictly before the instant
    that the clock shows at the check, [track_click] returns
    [{success: False, error: "Token expired"}], an outcome other than the
    one of an unknown token, and records no click; when the reading is at or
    before the expiry, the click is accepted. *)
Theorem track_click_expiry (st : state) (token ip ua : string) (td : token_data) :
  reachable st →
  _tokens st !! token = Some td →
  ∃ expires, Datetime.fromisoformat (expires_at td) = Ok expires ∧
    ∀ now, fst (utcnow st) = Ok now →
      (Datetime.to_micros expires < Datetime.to_micros now →
         fst (track_click token ip ua st) = Ok (TrackFailure "Token expired") ∧
         TrackFailure "Token expired" ≠ TrackFailure "Invalid token" ∧
         _tokens (snd (track_click token ip ua st)) = _tokens st ∧
         _clicks (snd (track_click token ip ua st)) = _clicks st) ∧
      (Datetime.to_micros now <= Datetime.to_micros expires →
         ∀ stamp, fst (utcnow (tick st)) = Ok stamp →
           fst (track_click token ip ua st)
           = Ok (TrackSuccess (target_url td) (Datetime.isoformat stamp) (click_count td + 1))).
Proof.
  intros Hr Htd.
  destruct (reachable_expiry_parses st token td Hr Htd) as [expires Hexp].
  exists expires. split; [exact Hexp |]. intros now Hnow.
  assert (Hvn : Datetime.valid now = true) by (eapply utcnow_Ok_valid; eassumption).
  assert (Hve : Datetime.valid expires = true) by (eapply fromisoformat_Ok_valid; eassumption).
  split.
  - intros Hlt. apply (gtb_true_chronological now expires Hvn Hve) in Hlt.
    rewrite track_click_unfold, Htd, Hexp, Hnow, Hlt.
    split; [reflexivity |]. split; [discriminate |]. split; reflexivity.
  - intros Hle stamp Hstamp.
    apply reachable_store_ok in Hr.
    destruct (proj1 Hr token td Htd) as [(clicks & Hcl & _) _].
    apply (gtb_false_chronological now expires Hvn Hve) in Hle.
    rewrite (track_click_accepted st token ip ua td expires now stamp clicks)
      by assumption.
    reflexivity.
Qed.

Lemma track_click_expiry_witness :
  fst (track_click sample_token "9.9.9.9" "Mozilla/5.0" lapsed)
  = Ok (TrackFailure "Token expired") ∧
  _clicks (snd (track_click sample_token "9.9.9.9" "Mozilla/5.0" lapsed)) = _clicks lapsed.
Proof.
  destruct (track_click_expiry lapsed sample_token "9.9.9.9" "Mozilla/5.0"
              (mk_token_data sample_url (Some "a@b.co") "spring"
                 "2024-01-01T12:00:00" "2024-03-31T12:00:00.000007" 3))
    as (expires & Hexp & H).
  - exists sample_world, (sample_calls ++ [Track sample_token "3.3.3.3" "Mozilla/5.0"])%list.
    reflexivity.
  - vm_compute. reflexivity.
  - vm_compute in Hexp. injection Hexp as <-.
    destruct (H (Datetime.mk_datetime 2024 6 1 8 0 0 0)) as (Hlapsed & _).
    + vm_compute. reflexivity.
    + destruct Hlapsed as (Hres & _ & _ & Hclk).
      * vm_compute. reflexivity.
      * split; [exact Hres | exact Hclk].
Defined.

(** ** Issuing a token *)

(** C5, as the code has it.  When the random source answers [token], the
    clock answers [created] and then [now], and the day 90 days after [now]
    is not past the last day of year 9999, [generate_token] returns [token]
    and stores under it a record with [click_count = 0], [created_at] the
    ISO text of [created] and [expires_at] the ISO text of the instant 90
    days after [now], together with an empty click list.  The expiry is
    [created_at] plus 90 days exactly when both readings of the clock show
    the same instant. *)
Theorem generate_token_stores (st : state) (u : string) (em : option string) (c : string)
    (token : string) (created now : Datetime.datetime) :
  fst (token_urlsafe token_length st) = Ok token →
  fst (utcnow (draw st)) = Ok created →
  fst (utcnow (tick (draw st))) = Ok now →
  Datetime.ymd2ord (Datetime.year now) (Datetime.month now) (Datetime.day now) + 90
    <= Datetime.MAXORDINAL →
  ∃ expires,
    fst (generate_token u em c st) = Ok token ∧
    _tokens (snd (generate_token u em c st)) !! token
    = Some (mk_token_data u em c (Datetime.isoformat created) (Datetime.isoformat expires) 0) ∧
    _clicks (snd (generate_token u em c st)) !! token = Some [] ∧
    Datetime.fromisoformat (Datetime.isoformat created) = Ok created ∧
    Datetime.fromisoformat (Datetime.isoformat expires) = Ok expires ∧
    Datetime.to_micros expires = Datetime.to_micros now + 90 * 86400000000 ∧
    (Datetime.to_micros expires = Datetime.to_micros created + 90 * 86400000000
     ↔ Datetime.to_micros now = Datetime.to_micros created).
Proof.
  intros Htok Hcreated Hnow Hrange.
  assert (Hvn : Datetime.valid now = true) by (eapply utcnow_Ok_valid; eassumption).
  destruct (valid_bounds now Hvn) as (Hy & Hm & Hd & _).
  assert (Hpos : 0 < Datetime.ymd2ord (Datetime.year now) (Datetime.month now)
                       (Datetime.day now)).
  { unfold Datetime.ymd2ord.
    pose proof (days_through_month _ _ _ Hm Hd).
    pose proof (days_before_year_mono 1 (Datetime.year now) ltac:(lia)) as H1.
    change (Datetime.days_before_year 1) with 0 in H1. lia. }
  destruct (add_days_in_range now 90 Hvn ltac:(lia)) as [expires Hadd].
  exists expires.
  rewrite generate_token_unfold, Htok, Hcreated, Hnow, Hadd. cbn [fst snd _tokens _clicks].
  rewrite !lookup_insert_eq.
  pose proof (to_micros_add_days now 90 expires Hadd) as Hmicros.
  split; [reflexivity |]. split; [reflexivity |]. split; [reflexivity |].
  split; [apply fromisoformat_isoformat; eapply utcnow_Ok_valid; eassumption |].
  split; [apply fromisoformat_isoformat; eapply add_days_valid; eassumption |].
  split; [exact Hmicros | lia].
Qed.

Lemma generate_token_stores_witness :
  ∃ expires,
    fst (generate_token sample_url (Some "a@b.co") "spring" (initial sample_world))
    = Ok sample_token ∧
    _tokens (snd (generate_token sample_url (Some "a@b.co") "spring" (initial sample_world)))
      !! sample_token
    = Some (mk_token_data sample_url (Some "a@b.co") "spring"
              "2024-01-01T12:00:00" (Datetime.isoformat expires) 0) ∧
    _clicks (snd (generate_token sample_url (Some "a@b.co") "spring" (initial sample_world)))
      !! sample_token = Some [].
Proof.
  destruct (generate_token_stores (initial sample_world) sample_url (Some "a@b.co") "spring"
              sample_token
              (Datetime.mk_datetime 2024 1 1 12 0 0 0)
              (Datetime.mk_datetime 2024 1 1 12 0 0 7))
    as (expires & Hres & Htok & Hclk & _).
  - vm_compute. reflexivity.
  - vm_compute. reflexivity.
  - vm_compute. reflexivity.
  - vm_compute. discriminate.
  - exists expires. split; [exact Hres |]. split; [exact Htok | exact Hclk].
Defined.

(** C5 as stated fails: with clock readings 7 microseconds apart the stored
    expiry is not the stored creation time plus 90 days. *)
Lemma generate_token_expiry_counterexample :
  fst (generate_token sample_url (Some "a@b.co") "spring" (initial sample_world))
  = Ok sample_token ∧
  created_at <$>
    _tokens (snd (generate_token sample_url (Some "a@b.co") "spring" (initial sample_world)))
      !! sample_token
  = Some "2024-01-01T12:00:00" ∧
  expires_at <$>
    _tokens (snd (generate_token sample_url (Some "a@b.co") "spring" (initial sample_world)))
      !! sample_token
  = Some "2024-03-31T12:00:00.000007" ∧
  Datetime.fromisoformat "2024-01-01T12:00:00" = Ok (Datetime.mk_datetime 2024 1 1 12 0 0 0) ∧
  Datetime.add_days (Datetime.mk_datetime 2024 1 1 12 0 0 0) 90
  = Ok (Datetime.mk_datetime 2024 3 31 12 0 0 0) ∧
  Datetime.isoformat (Datetime.mk_datetime 2024 3 31 12 0 0 0) = "2024-03-31T12:00:00" ∧
  "2024-03-31T12:00:00.000007" ≠ "2024-03-31T12:00:00" ∧
  Datetime.fromisoformat "2024-03-31T12:00:00.000007"
  = Ok (Datetime.mk_datetime 2024 3 31 12 0 0 7) ∧
  Datetime.to_micros (Datetime.mk_datetime 2024 3 31 12 0 0 7)
  = Datetime.to_micros (Datetime.mk_datetime 2024 1 1 12 0 0 0) + 90 * 86400000000 + 7.
Proof.
  split; [vm_compute; reflexivity |]. split; [vm_compute; reflexivity |].
  split; [vm_compute; reflexivity |]. split; [vm_compute; reflexivity |].
  split; [vm_compute; reflexivity |]. split; [vm_compute; reflexivity |].
  split; [discriminate |]. split; vm_compute; reflexivity.
Qed.

(** ** Faults *)

Lemma generate_token_body_fault_store st u em c e :
  fst (generate_token_body u em c st) = Raise e →
  _tokens (snd (generate_token_body u em c st)) = _tokens st ∧
  _clicks (snd (generate_token_body u em c st)) = _clicks st.
Proof.
  unfold generate_token_body, mbind, M_bind, lift, get, set_tokens, set_clicks, mret, M_ret.
  change (token_urlsafe token_length st) with ((token_urlsafe token_length st).1, draw st).
  destruct ((token_urlsafe token_length st).1) as [token | e0]; cbn [fst snd]; [| auto].
  change (utcnow (draw st)) with ((utcnow (draw st)).1, tick (draw st)).
  destruct ((utcnow (draw st)).1) as [created | e0]; cbn [fst snd]; [| auto].
  change (utcnow (tick (draw st))) with ((utcnow (tick (draw st))).1, tick (tick (draw st))).
  destruct ((utcnow (tick (draw st))).1) as [now | e0]; cbn [fst snd]; [| auto].
  destruct (Datetime.add_days now 90) as [expires | e0]; cbn [fst snd]; [discriminate | auto].
Qed.

Lemma track_click_body_fault_store st token ip ua e :
  fst (track_click_body token ip ua st) = Raise e →
  _tokens (snd (track_click_body token ip ua st)) = _tokens st ∧
  _clicks (snd (track_click_body token ip ua st)) = _clicks st.
Proof.
  unfold track_click_body, mbind, M_bind, lift, raise, get, set_tokens, set_clicks, mret, M_ret.
  destruct (_tokens st !! token) as [td |]; [| discriminate].
  destruct (Datetime.fromisoformat (expires_at td)) as [expires | e0]; [| auto].
  change (utcnow st) with ((utcnow st).1, tick st).
  destruct ((utcnow st).1) as [now | e0]; cbn [fst snd]; [| auto].
  destruct (Datetime.gtb now expires); [discriminate |].
  change (utcnow (tick st)) with ((utcnow (tick st)).1, tick (tick st)).
  destruct ((utcnow (tick st)).1) as [stamp | e0]; cbn [fst snd]; [| auto].
  change (_clicks (tick (tick st))) with (_clicks st).
  destruct (_clicks st !! token) as [clicks |]; [discriminate | auto].
Qed.

(** C6, as the code has it.  A fault raised inside [generate_token]
    reaches the caller as that same exception, the store unchanged; so do a
    failure of the random source and a failure of the clock.  A fault raised
    inside [track_click] is caught when it is an [Exception]: the caller gets
    the outcome [{success: False, error: str(e)}], the store unchanged; only
    an exception outside the [Exception] class leaves [track_click].  Neither
    operation reads the failed source again. *)
Theorem fault_handling (st : state) (e : exception) :
  (∀ u em c, fst (generate_token_body u em c st) = Raise e →
     generate_token u em c st = (Raise e, snd (generate_token_body u em c st)) ∧
     _tokens (snd (generate_token u em c st)) = _tokens st ∧
     _clicks (snd (generate_token u em c st)) = _clicks st) ∧
  (∀ u em c, fst (token_urlsafe token_length st) = Raise e →
     generate_token u em c st = (Raise e, draw st)) ∧
  (∀ u em c token, fst (token_urlsafe token_length st) = Ok token →
     fst (utcnow (draw st)) = Raise e →
     generate_token u em c st = (Raise e, tick (draw st))) ∧
  (∀ token ip ua, fst (track_click_body token ip ua st) = Raise e →
     track_click token ip ua st
     = ((if is_Exception e then Ok (TrackFailure (exc_str e)) else Raise e),
        snd (track_click_body token ip ua st)) ∧
     _tokens (snd (track_click token ip ua st)) = _tokens st ∧
     _clicks (snd (track_click token ip ua st)) = _clicks st) ∧
  (∀ token ip ua td expires, _tokens st !! token = Some td →
     Datetime.fromisoformat (expires_at td) = Ok expires →
     fst (utcnow st) = Raise e →
     track_click token ip ua st
     = ((if is_Exception e then Ok (TrackFailure (exc_str e)) else Raise e), tick st)).
Proof.
  split; [| split; [| split; [| split]]].
  - intros u em c Hbody.
    destruct (generate_token_body_fault_store st u em c e Hbody) as [Ht Hc].
    assert (Hgen : generate_token u em c st = (Raise e, snd (generate_token_body u em c st))).
    { unfold generate_token, try_except, raise.
      destruct (generate_token_body u em c st) as [r st'] eqn:Hb.
      simpl in Hbody. subst r. destruct (is_Exception e); reflexivity. }
    rewrite Hgen. auto.
  - intros u em c Htok. rewrite generate_token_unfold, Htok. reflexivity.
  - intros u em c token Htok Hclock. rewrite generate_token_unfold, Htok, Hclock. reflexivity.
  - intros token ip ua Hbody.
    destruct (track_click_body_fault_store st token ip ua e Hbody) as [Ht Hc].
    assert (Htr : track_click token ip ua st
                  = ((if is_Exception e then Ok (TrackFailure (exc_str e)) else Raise e),
                     snd (track_click_body token ip ua st))).
    { unfold track_click, try_except, mret, M_ret.
      destruct (track_click_body token ip ua st) as [r st'] eqn:Hb.
      simpl in Hbody. subst r. destruct (is_Exception e); reflexivity. }
    rewrite Htr. auto.
  - intros token ip ua td expires Htd Hexp Hclock.
    rewrite track_click_unfold, Htd, Hexp, Hclock. reflexivity.
Qed.

Lemma fault_handling_witness :
  generate_token sample_url None "default" clicked_thrice
  = (Raise (OSError "random source failure"), draw clicked_thrice) ∧
  fst (track_click sample_token "3.3.3.3" "Mozilla/5.0" clicked_thrice)
  = Ok (TrackFailure "clock failure") ∧
  _clicks (snd (track_click sample_token "3.3.3.3" "Mozilla/5.0" clicked_thrice))
  = _clicks clicked_thrice.
Proof.
  split.
  - destruct (fault_handling clicked_thrice (OSError "random source failure"))
      as (_ & Hrandom & _).
    apply Hrandom. vm_compute. reflexivity.
  - destruct (fault_handling clicked_thrice (OSError "clock failure"))
      as (_ & _ & _ & Hbody & _).
    destruct (Hbody sample_token "3.3.3.3" "Mozilla/5.0") as (Hres & _ & Hclk).
    + vm_compute. reflexivity.
    + split; [rewrite Hres; reflexivity | exact Hclk].
Defined.

(** C6 as stated fails for [track_click]: the clock fails during the call
    and the caller receives an ordinary outcome, not the exception. *)
Lemma track_click_fault_counterexample :
  _tokens clicked_thrice !! sample_token
  = Some (mk_token_data sample_url (Some "a@b.co") "spring"
            "2024-01-01T12:00:00" "2024-03-31T12:00:00.000007" 3) ∧
  fst (utcnow clicked_thrice) = Raise (OSError "clock failure") ∧
  fst (track_click sample_token "3.3.3.3" "Mozilla/5.0" clicked_thrice)
  = Ok (TrackFailure "clock failure") ∧
  fst (track_click sample_token "3.3.3.3" "Mozilla/5.0" clicked_thrice)
  ≠ Raise (OSError "clock failure").
Proof.
  split; [vm_compute; reflexivity |]. split; [vm_compute; reflexivity |].
  split; [vm_compute; reflexivity |]. vm_compute. discriminate.
Qed.

(** ** Regular expressions: the matcher decides the language *)

Lemma app_nil_l (s : string) : EmptyString ++ s = s.
Proof. reflexivity. Qed.

Lemma app_cons (c : ascii) (s t : string) : String c s ++ t = String c (s ++ t).
Proof. reflexivity. Qed.

Lemma app_eq_nil (s t : string) : s ++ t = EmptyString → s = EmptyString ∧ t = EmptyString.
Proof. destruct s; [rewrite app_nil_l; auto | rewrite app_cons; discriminate]. Qed.

Lemma app_eq_cons (s t : string) (c : ascii) (u : string) :
  s ++ t = String c u →
  (s = EmptyString ∧ t = String c u) ∨ (∃ s', s = String c s' ∧ u = s' ++ t).
Proof.
  destruct s as [| a s]; [rewrite app_nil_l; auto |].
  rewrite app_cons. intros [= -> <-]. right. eauto.
Qed.

Lemma lang_cat_inv r1 r2 s :
  Regex.lang (Regex.Cat r1 r2) s → ∃ s1 s2, s = s1 ++ s2 ∧ Regex.lang r1 s1 ∧ Regex.lang r2 s2.
Proof. intros H. inversion H; subst. eauto. Qed.

Lemma lang_alt_inv r1 r2 s :
  Regex.lang (Regex.Alt r1 r2) s → Regex.lang r1 s ∨ Regex.lang r2 s.
Proof. intros H. inversion H; subst; auto. Qed.

Lemma lang_class_inv p s :
  Regex.lang (Regex.Class p) s → ∃ c, s = String c EmptyString ∧ p c = true.
Proof. intros H. inversion H; subst. eauto. Qed.

Lemma lang_eps_inv s : Regex.lang Regex.Eps s → s = EmptyString.
Proof. intros H. inversion H; subst. reflexivity. Qed.

Lemma nullable_lang (r : Regex.regex) : Regex.nullable r = true ↔ Regex.lang r EmptyString.
Proof.
  split.
  - induction r; simpl; intros H; try discriminate.
    + constructor.
    + apply andb_true_iff in H. destruct H as [H1 H2].
      change EmptyString with (EmptyString ++ EmptyString). constructor; auto.
    + apply orb_true_iff in H. destruct H as [H | H];
        [apply Regex.lang_alt_l | apply Regex.lang_alt_r]; auto.
    + constructor.
  - intros H. remember EmptyString as s eqn:Hs.
    induction H; simpl; try reflexivity; try discriminate.
    + apply app_eq_nil in Hs. destruct Hs as [-> ->]. rewrite IHlang1, IHlang2; auto.
    + rewrite IHlang; auto.
    + rewrite IHlang; auto. apply orb_true_r.
Qed.

Lemma lang_star_cons_inv (r : Regex.regex) (c : ascii) (s : string) :
  Regex.lang (Regex.Star r) (String c s) →
  ∃ s1 s2, s = s1 ++ s2 ∧ Regex.lang r (String c s1) ∧ Regex.lang (Regex.Star r) s2.
Proof.
  intros H. remember (Regex.Star r) as r0 eqn:Hr. remember (String c s) as s0 eqn:Hs.
  revert s Hs. induction H; intros t Hs; try discriminate.
  injection Hr as ->.
  apply app_eq_cons in Hs. destruct Hs as [[-> ->] | (s1' & -> & ->)].
  - apply IHlang2; reflexivity.
  - exists s1', s2. auto.
Qed.

Lemma deriv_lang (r : Regex.regex) :
  ∀ (c : ascii) (s : string), Regex.lang (Regex.deriv c r) s ↔ Regex.lang r (String c s).
Proof.
  induction r as [| | p | r1 IH1 r2 IH2 | r1 IH1 r2 IH2 | r IH]; intros c s; simpl.
  - split; intros H; inversion H.
  - split; intros H; inversion H.
  - destruct (p c) eqn:Hp; split; intros H; inversion H; subst.
    + constructor. exact Hp.
    + constructor.
    + congruence.
  - assert (Hcat : Regex.lang (Regex.Cat (Regex.deriv c r1) r2) s
                   → Regex.lang (Regex.Cat r1 r2) (String c s)).
    { intros H. inversion H; subst. rewrite <- app_cons. constructor; [apply IH1 |]; auto. }
    assert (Hinv : Regex.lang (Regex.Cat r1 r2) (String c s) →
                   Regex.lang (Regex.Cat (Regex.deriv c r1) r2) s
                   ∨ (Regex.lang r1 EmptyString ∧ Regex.lang (Regex.deriv c r2) s)).
    { intros H. apply lang_cat_inv in H. destruct H as (s1 & s2 & Heq & H1 & H2).
      symmetry in Heq.
      apply app_eq_cons in Heq. destruct Heq as [[-> ->] | (s1' & -> & ->)].
      - right. split; [exact H1 | apply IH2, H2].
      - left. constructor; [apply IH1 |]; auto. }
    destruct (Regex.nullable r1) eqn:Hn.
    + split.
      * intros H. inversion H; subst; [auto |].
        rewrite <- (app_nil_l (String c s)). constructor; [apply nullable_lang, Hn |].
        apply IH2. assumption.
      * intros H. destruct (Hinv H) as [H' | [_ H']];
          [apply Regex.lang_alt_l | apply Regex.lang_alt_r]; assumption.
    + split; [exact Hcat |].
      intros H. destruct (Hinv H) as [H' | [H' _]]; [exact H' |].
      apply nullable_lang in H'. congruence.
  - split; intros H; inversion H; subst.
    + apply Regex.lang_alt_l, IH1. assumption.
    + apply Regex.lang_alt_r, IH2. assumption.
    + apply Regex.lang_alt_l, IH1. assumption.
    + apply Regex.lang_alt_r, IH2. assumption.
  - split.
    + intros H. inversion H; subst. rewrite <- app_cons.
      apply Regex.lang_star_cons; [apply IH |]; assumption.
    + intros H. apply lang_star_cons_inv in H. destruct H as (s1 & s2 & -> & H1 & H2).
      constructor; [apply IH |]; assumption.
Qed.

(** The derivative matcher decides membership. *)
Lemma fullmatch_lang (s : string) :
  ∀ r, Regex.fullmatch r s = true ↔ Regex.lang r s.
Proof.
  induction s as [| c s IH]; intros r; simpl.
  - apply nullable_lang.
  - rewrite IH. apply deriv_lang.
Qed.

(** [$] also holds before one final newline. *)
Lemma match_to_end_lang (s : string) :
  ∀ r, Regex.match_to_end r s = true
       ↔ Regex.lang r s ∨ ∃ w, s = with_newline w ∧ Regex.lang r w.
Proof.
  unfold with_newline.
  induction s as [| c s IH]; intros r; cbn [Regex.match_to_end].
  - rewrite nullable_lang. split; [auto |].
    intros [H | (w & Hw & _)]; [exact H |].
    symmetry in Hw. apply app_eq_nil in Hw. destruct Hw as [_ Hw]. discriminate.
  - rewrite orb_true_iff, !andb_true_iff, IH, nullable_lang. split.
    + intros [[[Hc Hs] Hr] | [H | (w & -> & H)]].
      * apply Ascii.eqb_eq in Hc. subst c. destruct s; [| discriminate].
        right. exists EmptyString. auto.
      * left. apply deriv_lang, H.
      * right. exists (String c w). split; [reflexivity | apply deriv_lang, H].
    + intros [H | (w & Hw & H)].
      * right. left. apply deriv_lang, H.
      * destruct w as [| a w].
        -- rewrite app_nil_l in Hw. injection Hw as -> ->.
           left. split; [split; [apply Ascii.eqb_refl | reflexivity] | exact H].
        -- rewrite app_cons in Hw. injection Hw as -> ->.
           right. right. exists w. split; [reflexivity | apply deriv_lang, H].
Qed.

(** ** The two patterns *)

Lemma lang_lit (c : ascii) (s : string) :
  Regex.lang (Regex.lit c) s ↔ s = String c EmptyString.
Proof.
  unfold Regex.lit. split.
  - intros H. apply lang_class_inv in H. destruct H as (x & -> & Hx).
    apply Ascii.eqb_eq in Hx. subst. reflexivity.
  - intros ->. constructor. apply Ascii.eqb_refl.
Qed.

Lemma lang_lit_i (c : ascii) (s : string) :
  Regex.lang (Regex.lit_i c) s
  ↔ ∃ x, s = String x EmptyString ∧ Regex.to_lower x = Regex.to_lower c.
Proof.
  unfold Regex.lit_i. split.
  - intros H. apply lang_class_inv in H. destruct H as (x & -> & Hx).
    apply Ascii.eqb_eq in Hx. eauto.
  - intros (x & -> & Hx). constructor. apply Ascii.eqb_eq, Hx.
Qed.

Lemma lang_star_class (p : ascii → bool) (s : string) :
  Regex.lang (Regex.Star (Regex.Class p)) s ↔ all_chars p s = true.
Proof.
  split.
  - intros H. remember (Regex.Star (Regex.Class p)) as r eqn:Hr.
    induction H; try discriminate; [reflexivity |].
    injection Hr as ->. apply lang_class_inv in H. destruct H as (c & -> & Hc).
    rewrite app_cons, app_nil_l. simpl. rewrite Hc. apply IHlang2. reflexivity.
  - induction s as [| c s IH]; simpl; intros H; [constructor |].
    apply andb_true_iff in H. destruct H as [Hc Hs].
    change (String c s) with (String c EmptyString ++ s).
    apply Regex.lang_star_cons; [constructor; exact Hc | apply IH, Hs].
Qed.

Lemma lang_plus_class (p : ascii → bool) (s : string) :
  Regex.lang (Regex.plus (Regex.Class p)) s ↔ s ≠ EmptyString ∧ all_chars p s = true.
Proof.
  unfold Regex.plus. split.
  - intros H. apply lang_cat_inv in H. destruct H as (s1 & s2 & -> & H1 & H2).
    apply lang_class_inv in H1. destruct H1 as (c & -> & Hc).
    apply lang_star_class in H2. rewrite app_cons, app_nil_l. simpl.
    rewrite Hc, H2. split; [discriminate | reflexivity].
  - intros [Hne H]. destruct s as [| c s]; [congruence |].
    simpl in H. apply andb_true_iff in H. destruct H as [Hc Hs].
    change (String c s) with (String c EmptyString ++ s).
    constructor; [constructor; exact Hc | apply lang_star_class, Hs].
Qed.

Lemma lang_at_least_2_class (p : ascii → bool) (s : string) :
  Regex.lang (Regex.at_least_2 (Regex.Class p)) s
  ↔ (2 <= String.length s)%nat ∧ all_chars p s = true.
Proof.
  unfold Regex.at_least_2. split.
  - intros H. apply lang_cat_inv in H. destruct H as (s1 & s2 & -> & H1 & H2).
    apply lang_cat_inv in H2. destruct H2 as (s3 & s4 & -> & H3 & H4).
    apply lang_class_inv in H1, H3. destruct H1 as (a & -> & Ha). destruct H3 as (b & -> & Hb).
    apply lang_star_class in H4. rewrite !app_cons, !app_nil_l. simpl.
    rewrite Ha, Hb, H4. split; [lia | reflexivity].
  - intros [Hlen H]. destruct s as [| a [| b s]]; simpl in Hlen; try lia.
    simpl in H. apply andb_true_iff in H. destruct H as [Ha H].
    apply andb_true_iff in H. destruct H as [Hb Hs].
    change (String a (String b s)) with (String a EmptyString ++ String b EmptyString ++ s).
    constructor; [constructor; exact Ha |].
    constructor; [constructor; exact Hb | apply lang_star_class, Hs].
Qed.

Lemma email_pattern_lang (w : string) : Regex.lang Regex.email_pattern w ↔ email_shape w.
Proof.
  unfold Regex.email_pattern, email_shape. cbn [Regex.seq]. split.
  - intros H.
    apply lang_cat_inv in H. destruct H as (local & s & -> & Hl & H).
    apply lang_cat_inv in H. destruct H as (at_ & s' & -> & Hat & H).
    apply lang_cat_inv in H. destruct H as (domain & s & -> & Hd & H).
    apply lang_cat_inv in H. destruct H as (dot & tld & -> & Hdot & Ht).
    apply lang_lit in Hat, Hdot. subst at_ dot.
    apply lang_plus_class in Hl, Hd. apply lang_at_least_2_class in Ht.
    exists local, domain, tld. tauto.
  - intros (local & domain & tld & -> & Hl1 & Hl2 & Hd1 & Hd2 & Ht1 & Ht2).
    constructor; [apply lang_plus_class; auto |].
    constructor; [apply lang_lit; reflexivity |].
    constructor; [apply lang_plus_class; auto |].
    constructor; [apply lang_lit; reflexivity |].
    apply lang_at_least_2_class; auto.
Qed.

Lemma to_lower_colon (x : ascii) : Regex.to_lower x = ":"%char → x = ":"%char.
Proof.
  destruct x as [[] [] [] [] [] [] [] []]; vm_compute; intros H;
    first [reflexivity | discriminate H].
Qed.

Lemma to_lower_slash (x : ascii) : Regex.to_lower x = "/"%char → x = "/"%char.
Proof.
  destruct x as [[] [] [] [] [] [] [] []]; vm_compute; intros H;
    first [reflexivity | discriminate H].
Qed.

Lemma url_pattern_lang (w : string) : Regex.lang Regex.url_pattern w ↔ url_shape w.
Proof.
  unfold Regex.url_pattern, url_shape. cbn [Regex.seq]. split.
  - intros H.
    apply lang_cat_inv in H. destruct H as (s1 & t1 & -> & H1 & H).
    apply lang_cat_inv in H. destruct H as (s2 & t2 & -> & H2 & H).
    apply lang_cat_inv in H. destruct H as (s3 & t3 & -> & H3 & H).
    apply lang_cat_inv in H. destruct H as (s4 & t4 & -> & H4 & H).
    apply lang_cat_inv in H. destruct H as (s5 & t5 & -> & H5 & H).
    apply lang_cat_inv in H. destruct H as (s6 & t6 & -> & H6 & H).
    apply lang_cat_inv in H. destruct H as (s7 & t7 & -> & H7 & H).
    apply lang_cat_inv in H. destruct H as (s8 & t8 & -> & H8 & H).
    apply lang_cat_inv in H. destruct H as (s9 & t9 & -> & H9 & H).
    apply lang_cat_inv in H. destruct H as (s10 & rest & -> & H10 & Hrest).
    apply lang_lit_i in H1, H2, H3, H4, H6, H7, H8.
    destruct H1 as (x1 & -> & E1). destruct H2 as (x2 & -> & E2).
    destruct H3 as (x3 & -> & E3). destruct H4 as (x4 & -> & E4).
    destruct H6 as (x6 & -> & E6). destruct H7 as (x7 & -> & E7).
    destruct H8 as (x8 & -> & E8).
    apply to_lower_colon in E6. apply to_lower_slash in E7, E8. subst x6 x7 x8.
    apply lang_class_inv in H9, H10.
    destruct H9 as (c1 & -> & Hc1). destruct H10 as (c2 & -> & Hc2).
    apply lang_star_class in Hrest.
    apply negb_true_iff, Ascii.eqb_neq in Hc2.
    exists (String x1 (String x2 (String x3 (String x4 s5)))), c1, c2, rest.
    split; [rewrite !app_cons, !app_nil_l; reflexivity |].
    split; [| auto].
    unfold Regex.opt in H5. apply lang_alt_inv in H5. destruct H5 as [H5 | H5].
    + apply lang_lit_i in H5. destruct H5 as (x5 & -> & E5).
      right. simpl. rewrite E1, E2, E3, E4, E5. reflexivity.
    + apply lang_eps_inv in H5. subst s5.
      left. simpl. rewrite E1, E2, E3, E4. reflexivity.
  - intros (scheme & c1 & c2 & rest & -> & Hscheme & Hc1 & Hc2 & Hrest).
    assert (Htail : ∀ s5, Regex.lang (Regex.opt (Regex.lit_i "s")) s5 →
              ∀ x1 x2 x3 x4,
              Regex.to_lower x1 = "h"%char → Regex.to_lower x2 = "t"%char →
              Regex.to_lower x3 = "t"%char → Regex.to_lower x4 = "p"%char →
              Regex.lang Regex.url_pattern
                (String x1 EmptyString ++ String x2 EmptyString ++ String x3 EmptyString
                 ++ String x4 EmptyString ++ s5 ++ ":" ++ "/" ++ "/"
                 ++ String c1 EmptyString ++ String c2 EmptyString ++ rest)).
    { intros s5 H5 x1 x2 x3 x4 E1 E2 E3 E4.
      unfold Regex.url_pattern. cbn [Regex.seq].
      constructor; [apply lang_lit_i; eauto |].
      constructor; [apply lang_lit_i; eauto |].
      constructor; [apply lang_lit_i; eauto |].
      constructor; [apply lang_lit_i; eauto |].
      constructor; [exact H5 |].
      constructor; [apply lang_lit_i; eauto |].
      constructor; [apply lang_lit_i; eauto |].
      constructor; [apply lang_lit_i; eauto |].
      constructor; [constructor; exact Hc1 |].
      constructor; [| apply lang_star_class, Hrest].
      constructor. apply negb_true_iff, Ascii.eqb_neq, Hc2. }
    destruct scheme as [| x1 [| x2 [| x3 [| x4 [| x5 [| x6 scheme]]]]]];
      simpl in Hscheme; destruct Hscheme as [Hs | Hs]; try discriminate Hs.
    + injection Hs as E1 E2 E3 E4.
      apply (Htail EmptyString); auto. apply Regex.lang_alt_r. constructor.
    + injection Hs as E1 E2 E3 E4 E5.
      apply (Htail (String x5 EmptyString)); auto.
      apply Regex.lang_alt_l, lang_lit_i. eauto.
Qed.

(** The address shape in the words of the specification is the shape of
    the pattern. *)
Lemma email_shape_spec_iff (s : string) : email_shape_spec s = true ↔ email_shape s.
Proof. unfold email_shape_spec. rewrite fullmatch_lang. apply email_pattern_lang. Qed.

(** C8, as the code has it.  [validate_url] and [validate_email] are
    functions of their argument alone.  [validate_url] accepts exactly the
    texts made of [http] or [https] in any letter case, [://], one character
    that is neither whitespace nor one of [/$.?#], one character that is not
    a newline, and then characters that are not whitespace; [validate_email]
    accepts exactly the texts [local@domain.tld] with a non-empty local part
    over [a-zA-Z0-9._%+-], a non-empty domain over [a-zA-Z0-9.-] and at least
    two letters after the last dot; each of them also accepts such a text
    followed by one final newline.  The four sample values are as given. *)
Theorem validators_accept :
  (∀ url, validate_url url = true ↔ up_to_newline url_shape url) ∧
  (∀ email, validate_email email = true ↔ up_to_newline email_shape email) ∧
  validate_url "https://example.com/x" = true ∧
  validate_url "ftp://bad" = false ∧
  validate_email "a@b.co" = true ∧
  validate_email "not-an-email" = false.
Proof.
  split; [| split].
  - intros url. unfold validate_url, up_to_newline. rewrite match_to_end_lang.
    rewrite url_pattern_lang. split.
    + intros [H | (w & Hw & H)]; [left; exact H |].
      right. exists w. split; [exact Hw | apply url_pattern_lang, H].
    + intros [H | (w & Hw & H)]; [left; exact H |].
      right. exists w. split; [exact Hw | apply url_pattern_lang, H].
  - intros email. unfold validate_email, up_to_newline. rewrite match_to_end_lang.
    rewrite email_pattern_lang. split.
    + intros [H | (w & Hw & H)]; [left; exact H |].
      right. exists w. split; [exact Hw | apply email_pattern_lang, H].
    + intros [H | (w & Hw & H)]; [left; exact H |].
      right. exists w. split; [exact Hw | apply email_pattern_lang, H].
  - repeat split; vm_compute; reflexivity.
Qed.

(** C8 as stated fails: a URL with a space in its body and an address
    followed by a newline are accepted, a URL with a one-character body is
    rejected. *)
Lemma validators_shape_counterexample :
  validate_url "http://a b" = true ∧ url_shape_spec "http://a b" = false ∧
  validate_url "http://a" = false ∧ url_shape_spec "http://a" = true ∧
  validate_email (with_newline "a@b.co") = true ∧
  email_shape_spec (with_newline "a@b.co") = false.
Proof. repeat split; vm_compute; reflexivity. Qed.

(** * Further properties of the tracker *)

(** What a success outcome of [track_click] tells about the call. *)
Lemma track_click_success_inv st token ip ua u ts n :
  fst (track_click token ip ua st) = Ok (TrackSuccess u ts n) →
  ∃ td expires now stamp clicks,
    _tokens st !! token = Some td ∧
    Datetime.fromisoformat (expires_at td) = Ok expires ∧
    fst (utcnow st) = Ok now ∧
    Datetime.gtb now expires = false ∧
    fst (utcnow (tick st)) = Ok stamp ∧
    _clicks st !! token = Some clicks ∧
    u = target_url td ∧ ts = Datetime.isoformat stamp ∧ n = click_count td + 1 ∧
    snd (track_click token ip ua st)
    = mk_state (<[token := clicked td]> (_tokens st))
        (<[token := (clicks ++ [new_click token ip ua stamp])%list]> (_clicks st))
        (env (tick (tick st))).
Proof.
  rewrite track_click_unfold. unfold caught.
  destruct (_tokens st !! token) as [td |] eqn:Htd; [| discriminate].
  destruct (Datetime.fromisoformat (expires_at td)) as [expires | e] eqn:Hexp;
    [| destruct (is_Exception e); discriminate].
  destruct (fst (utcnow st)) as [now | e] eqn:Hnow;
    [| destruct (is_Exception e); discriminate].
  destruct (Datetime.gtb now expires) eqn:Hg; [discriminate |].
  destruct (fst (utcnow (tick st))) as [stamp | e] eqn:Hstamp;
    [| destruct (is_Exception e); discriminate].
  destruct (_clicks st !! token) as [clicks |] eqn:Hcl; [| discriminate].
  cbn [fst snd]. intros [= <- <- <-].
  exists td, expires, now, stamp, clicks. repeat split; auto.
Qed.

(** Every call of [track_click] either succeeds or leaves both dictionaries
    as they were. *)
Lemma track_click_success_or_same st token ip ua :
  (∃ u ts n, fst (track_click token ip ua st) = Ok (TrackSuccess u ts n)) ∨
  (_tokens (snd (track_click token ip ua st)) = _tokens st ∧
   _clicks (snd (track_click token ip ua st)) = _clicks st).
Proof.
  rewrite track_click_unfold.
  destruct (_tokens st !! token) as [td |]; [| right; auto].
  destruct (Datetime.fromisoformat (expires_at td)) as [expires | e]; [| right; auto].
  destruct (fst (utcnow st)) as [now | e]; [| right; auto].
  destruct (Datetime.gtb now expires); [right; auto |].
  destruct (fst (utcnow (tick st))) as [stamp | e]; [| right; auto].
  destruct (_clicks st !! token) as [clicks |]; [| right; auto].
  left. eauto.
Qed.

(** X1. A call of [track_click] that does not return a success outcome,
    be it for an unknown token, an expired token, a fault turned into an
    outcome or an exception that leaves the call, changes neither the token
    dictionary nor the click dictionary: every reader sees what it saw
    before. *)
Theorem track_click_failure_keeps_store (st : state) (token ip ua : string) :
  (∀ u ts n, fst (track_click token ip ua st) ≠ Ok (TrackSuccess u ts n)) →
  _tokens (snd (track_click token ip ua st)) = _tokens st ∧
  _clicks (snd (track_click token ip ua st)) = _clicks st ∧
  ∀ t, get_click_stats (snd (track_click token ip ua st)) t = get_click_stats st t ∧
       get_token_info (snd (track_click token ip ua st)) t = get_token_info st t.
Proof.
  intros Hfail.
  destruct (track_click_success_or_same st token ip ua) as [(u & ts & n & H) | [Ht Hc]].
  - exfalso. exact (Hfail u ts n H).
  - split; [exact Ht |]. split; [exact Hc |].
    intros t. unfold get_click_stats, get_token_info. rewrite Ht, Hc. auto.
Qed.

Lemma track_click_failure_keeps_store_witness :
  fst (track_click sample_token "9.9.9.9" "Mozilla/5.0" lapsed)
  = Ok (TrackFailure "Token expired") ∧
  _tokens (snd (track_click sample_token "9.9.9.9" "Mozilla/5.0" lapsed)) = _tokens lapsed ∧
  _clicks (snd (track_click sample_token "9.9.9.9" "Mozilla/5.0" lapsed)) = _clicks lapsed.
Proof.
  split; [vm_compute; reflexivity |].
  destruct (track_click_failure_keeps_store lapsed sample_token "9.9.9.9" "Mozilla/5.0")
    as (Ht & Hc & _).
  - intros u ts n. vm_compute. discriminate.
  - split; [exact Ht | exact Hc].
Defined.

(** X2. Whatever its outcome, [track_click] leaves the entries of every
    other token alone and creates no entry.  For the token of the call, the
    stored [target_url], [email], [campaign], [created_at] and [expires_at]
    stay as they are, the counter stays or grows by one, and the click list
    stays or gets one record at its end: recorded clicks are never removed,
    reordered or rewritten. *)
Theorem track_click_touches_one_token (st : state) (token ip ua : string) :
  (∀ other, other ≠ token →
     _tokens (snd (track_click token ip ua st)) !! other = _tokens st !! other ∧
     _clicks (snd (track_click token ip ua st)) !! other = _clicks st !! other) ∧
  (_tokens st !! token = None → _tokens (snd (track_click token ip ua st)) !! token = None) ∧
  (_clicks st !! token = None → _clicks (snd (track_click token ip ua st)) !! token = None) ∧
  (∀ td, _tokens st !! token = Some td →
     ∃ td', _tokens (snd (track_click token ip ua st)) !! token = Some td' ∧
       target_url td' = target_url td ∧ email td' = email td ∧ campaign td' = campaign td ∧
       created_at td' = created_at td ∧ expires_at td' = expires_at td ∧
       click_count td <= click_count td' <= click_count td + 1) ∧
  (∀ clicks, _clicks st !! token = Some clicks →
     ∃ added, _clicks (snd (track_click token ip ua st)) !! token = Some (clicks ++ added)%list ∧
       (length added <= 1)%nat).
Proof.
  destruct (track_click_success_or_same st token ip ua) as [(u & ts & n & H) | [Ht Hc]].
  - apply track_click_success_inv in H.
    destruct H as (td & expires & now & stamp & clicks & Htd & _ & _ & _ & _ & Hcl & _ & _ & _ & ->).
    cbn [_tokens _clicks].
    split; [intros other Hne; rewrite !lookup_insert_ne by done; auto |].
    split; [congruence |]. split; [congruence |]. split.
    + intros td0 Htd0. rewrite Htd in Htd0. injection Htd0 as <-.
      exists (clicked td). rewrite lookup_insert_eq. simpl. repeat split; lia.
    + intros clicks0 Hcl0. rewrite Hcl in Hcl0. injection Hcl0 as <-.
      eexists. rewrite lookup_insert_eq. split; [reflexivity | simpl; lia].
  - rewrite Ht, Hc.
    split; [auto |]. split; [auto |]. split; [auto |]. split.
    + intros td Htd. exists td. repeat split; [exact Htd | lia | lia].
    + intros clicks Hcl. exists []. rewrite app_nil_r. split; [exact Hcl | simpl; lia].
Qed.

Lemma size_ips_snoc (ips : list string) (ip : string) :
  Z.of_nat (size (list_to_set (ips ++ [ip]) : gset string))
  = Z.of_nat (size (list_to_set ips : gset string)) + (if decide (ip ∈ ips) then 0 else 1).
Proof.
  rewrite list_to_set_app_L. simpl. rewrite (right_id_L ∅ (∪)).
  destruct (decide (ip ∈ ips)) as [Hin | Hout].
  - replace (list_to_set ips ∪ {[ip]}) with (list_to_set ips : gset string); [lia |].
    apply set_eq. intros x. rewrite elem_of_union, elem_of_singleton, elem_of_list_to_set.
    split; [auto |]. intros [H | ->]; auto.
  - rewrite size_union.
    + rewrite size_singleton. lia.
    + intros x Hx Hx'. apply elem_of_singleton in Hx'. subst x.
      apply elem_of_list_to_set in Hx. contradiction.
Qed.

(** X3. Clicks are not deduplicated.  After a call of [track_click] that
    returns a success outcome, [total_clicks] is one higher than before
    whether or not the address was seen, while [unique_ips] is one higher
    exactly when no earlier click of the token came from that address; the
    returned [click_count] is the new [total_clicks] when counter and list
    agreed before. *)
Theorem track_click_counts_every_click (st : state) (token ip ua : string)
    (u ts : string) (n : Z) :
  fst (track_click token ip ua st) = Ok (TrackSuccess u ts n) →
  ∃ stats stats',
    get_click_stats st token = Some stats ∧
    get_click_stats (snd (track_click token ip ua st)) token = Some stats' ∧
    total_clicks stats' = total_clicks stats + 1 ∧
    unique_ips stats'
    = unique_ips stats
      + (if decide (ip ∈ map ip_address (clicks_of st token)) then 0 else 1) ∧
    ip ∈ map ip_address (clicks_of (snd (track_click token ip ua st)) token) ∧
    (reachable st → n = total_clicks stats').
Proof.
  intros H. apply track_click_success_inv in H.
  destruct H as (td & expires & now & stamp & clicks & Htd & _ & _ & _ & _ & Hcl & _ & _ & -> & ->).
  unfold get_click_stats, clicks_of. cbn [_tokens _clicks].
  rewrite Htd, Hcl, !lookup_insert_eq. cbn [default from_option id].
  eexists. eexists. split; [reflexivity |]. split; [reflexivity |].
  cbn [total_clicks unique_ips].
  split; [rewrite length_app; simpl; lia |].
  split; [rewrite map_app; apply size_ips_snoc |].
  split.
  - rewrite map_app. apply elem_of_app. right. simpl. apply list_elem_of_singleton. reflexivity.
  - intros Hr. apply reachable_store_ok in Hr.
    destruct (proj1 Hr token td Htd) as [(clicks0 & Hc0 & Hlen) _].
    rewrite Hcl in Hc0. injection Hc0 as <-. rewrite length_app. simpl. lia.
Qed.

Lemma track_click_counts_every_click_witness :
  ∃ stats stats',
    get_click_stats issued sample_token = Some stats ∧
    get_click_stats (snd (track_click sample_token "1.1.1.1" "Mozilla/5.0" issued)) sample_token
    = Some stats' ∧
    total_clicks stats' = total_clicks stats + 1 ∧
    unique_ips stats' = unique_ips stats + 1.
Proof.
  destruct (track_click_counts_every_click issued sample_token "1.1.1.1" "Mozilla/5.0"
              sample_url "2024-01-02T09:30:00.000250" 1)
    as (stats & stats' & Hs & Hs' & Ht & Hu & _).
  - vm_compute. reflexivity.
  - exists stats, stats'. split; [exact Hs |]. split; [exact Hs' |]. split; [exact Ht |].
    rewrite Hu. reflexivity.
Defined.

(** What a returned token tells about a call of [generate_token]. *)
Lemma generate_token_Ok_inv st u em c token :
  fst (generate_token u em c st) = Ok token →
  ∃ created expires,
    snd (generate_token u em c st)
    = mk_state (<[token := fresh_token_data u em c created expires]> (_tokens st))
        (<[token := []]> (_clicks st))
        (env (tick (tick (draw st)))).
Proof.
  rewrite generate_token_unfold.
  destruct (fst (token_urlsafe token_length st)) as [tok | e]; [| discriminate].
  destruct (fst (utcnow (draw st))) as [created | e]; [| discriminate].
  destruct (fst (utcnow (tick (draw st)))) as [now | e]; [| discriminate].
  destruct (Datetime.add_days now 90) as [expires | e]; [| discriminate].
  cbn [fst snd]. intros [= <-]. eauto.
Qed.

(** X4. [generate_token] does not check whether the token it drew is
    already in use.  A call that returns [token] changes the entries of no
    other token, and whatever was stored under [token] before is replaced:
    the record starts again at [click_count = 0] and the click list is
    empty, so clicks recorded under a token drawn a second time are lost. *)
Theorem generate_token_overwrites (st : state) (u : string) (em : option string)
    (c token : string) :
  fst (generate_token u em c st) = Ok token →
  (∀ other, other ≠ token →
     _tokens (snd (generate_token u em c st)) !! other = _tokens st !! other ∧
     _clicks (snd (generate_token u em c st)) !! other = _clicks st !! other) ∧
  (∃ td, get_token_info (snd (generate_token u em c st)) token = Some (td, []) ∧
     target_url td = u ∧ email td = em ∧ campaign td = c ∧ click_count td = 0) ∧
  (∃ stats, get_click_stats (snd (generate_token u em c st)) token = Some stats ∧
     total_clicks stats = 0 ∧ unique_ips stats = 0 ∧ clicks_by_date stats = ∅ ∧
     clicks_by_user_agent stats = ∅ ∧ first_click stats = None ∧ last_click stats = None).
Proof.
  intros H. apply generate_token_Ok_inv in H. destruct H as (created & expires & ->).
  unfold get_token_info, get_click_stats. cbn [_tokens _clicks].
  rewrite !lookup_insert_eq. split.
  - intros other Hne. rewrite !lookup_insert_ne by done. auto.
  - split.
    + eexists. split; [reflexivity |]. repeat split.
    + eexists. split; [reflexivity |]. repeat split.
Qed.

Lemma generate_token_overwrites_witness :
  (∃ stats, get_click_stats before_collision sample_token = Some stats ∧
     total_clicks stats = 1) ∧
  fst (generate_token sample_url None "default" before_collision) = Ok sample_token ∧
  (∃ stats, get_click_stats (snd (generate_token sample_url None "default" before_collision))
              sample_token = Some stats ∧ total_clicks stats = 0).
Proof.
  split; [eexists; split; [vm_compute; reflexivity | reflexivity] |].
  split; [vm_compute; reflexivity |].
  destruct (generate_token_overwrites before_collision sample_url None "default" sample_token)
    as (_ & _ & stats & Hs & Ht & _).
  - vm_compute. reflexivity.
  - exists stats. split; [exact Hs | exact Ht].
Defined.

(** X5. On every store the tracker can reach, [get_token_info] and
    [get_click_stats] agree: both are [None] for the same tokens, and for a
    stored token the click list that [get_token_info] returns is the stored
    one, as long as the [click_count] beside it, which is the
    [total_clicks] of the statistics. *)
Theorem token_info_agrees_with_stats (st : state) (token : string) :
  reachable st →
  (get_token_info st token = None ↔ get_click_stats st token = None) ∧
  (get_token_info st token = None ↔ _tokens st !! token = None) ∧
  (∀ td clicks, get_token_info st token = Some (td, clicks) →
     _tokens st !! token = Some td ∧ _clicks st !! token = Some clicks ∧
     click_count td = Z.of_nat (length clicks) ∧
     ∃ stats, get_click_stats st token = Some stats ∧
       total_clicks stats = click_count td ∧
       first_click stats = timestamp <$> head clicks ∧
       last_click stats = timestamp <$> last clicks).
Proof.
  intros Hr. apply reachable_store_ok in Hr. destruct Hr as [Htok _].
  unfold get_token_info, get_click_stats.
  destruct (_tokens st !! token) as [td |] eqn:Htd.
  - split; [split; discriminate |]. split; [split; discriminate |].
    intros td0 clicks0 [= <- <-].
    destruct (Htok token td Htd) as [(clicks & Hcl & Hlen) _].
    rewrite Hcl. cbn [default from_option id].
    split; [reflexivity |]. split; [reflexivity |]. split; [exact Hlen |].
    eexists. split; [reflexivity |]. cbn [total_clicks first_click last_click].
    split; [lia |]. split; reflexivity.
  - split; [split; reflexivity |]. split; [split; reflexivity |]. discriminate.
Qed.

Lemma token_info_agrees_with_stats_witness :
  ∃ td clicks stats,
    get_token_info clicked_thrice sample_token = Some (td, clicks) ∧
    get_click_stats clicked_thrice sample_token = Some stats ∧
    click_count td = 3 ∧ length clicks = 3%nat ∧ total_clicks stats = 3.
Proof.
  destruct (get_token_info clicked_thrice sample_token) as [[td clicks] |] eqn:Hinfo;
    [| vm_compute in Hinfo; discriminate].
  destruct (token_info_agrees_with_stats clicked_thrice sample_token) as (_ & _ & H).
  - exists sample_world, sample_calls. reflexivity.
  - destruct (H td clicks Hinfo) as (_ & _ & Hlen & stats & Hs & Ht & _).
    exists td, clicks, stats. split; [reflexivity |]. split; [exact Hs |].
    vm_compute in Hinfo. injection Hinfo as <- <-.
    split; [reflexivity |]. split; [reflexivity |]. rewrite Ht. reflexivity.
Defined.

(** ** Well-formed records *)

Lemma records_ok_initial w : records_ok (initial w).
Proof.
  split; [| split].
  - intros token. simpl. rewrite !lookup_empty. tauto.
  - intros token td H. simpl in H. rewrite lookup_empty in H. discriminate.
  - intros token clicks c H. simpl in H. rewrite lookup_empty in H. discriminate.
Qed.

Lemma records_ok_generate_token st u em c :
  records_ok st → records_ok (snd (generate_token u em c st)).
Proof.
  intros Hok. rewrite generate_token_unfold.
  destruct (fst (token_urlsafe _ _)) as [token | e]; [| exact Hok].
  destruct (fst (utcnow (draw st))) as [created | e] eqn:Hcreated; [| exact Hok].
  destruct (fst (utcnow (tick (draw st)))) as [now | e]; [| exact Hok].
  destruct (Datetime.add_days now 90) as [expires | e]; [| exact Hok].
  destruct Hok as (Hkeys & Hrec & Hclk). cbn [snd]. split; [| split]; cbn [_tokens _clicks].
  - intros token'. destruct (decide (token = token')) as [<- | Hne].
    + rewrite !lookup_insert_eq. split; discriminate.
    + rewrite !lookup_insert_ne by done. apply Hkeys.
  - intros token' td'. destruct (decide (token = token')) as [<- | Hne].
    + rewrite lookup_insert_eq. intros [= <-]. exists created.
      split; [eapply utcnow_Ok_valid, Hcreated | reflexivity].
    + rewrite lookup_insert_ne by done. apply Hrec.
  - intros token' clicks cl. destruct (decide (token = token')) as [<- | Hne].
    + rewrite lookup_insert_eq. intros [= <-] Hin. apply elem_of_nil in Hin. contradiction.
    + rewrite lookup_insert_ne by done. apply Hclk.
Qed.

Lemma records_ok_track_click st token ip ua :
  records_ok st → records_ok (snd (track_click token ip ua st)).
Proof.
  intros Hok.
  destruct (track_click_success_or_same st token ip ua) as [(u & ts & n & H) | [Ht Hc]].
  - apply track_click_success_inv in H.
    destruct H as (td & expires & now & stamp & clicks & Htd & _ & _ & _ & _ & Hcl & _ & _ & _ & ->).
    destruct Hok as (Hkeys & Hrec & Hclk). split; [| split]; cbn [_tokens _clicks].
    + intros token'. destruct (decide (token = token')) as [<- | Hne].
      * rewrite !lookup_insert_eq. split; discriminate.
      * rewrite !lookup_insert_ne by done. apply Hkeys.
    + intros token' td'. destruct (decide (token = token')) as [<- | Hne].
      * rewrite lookup_insert_eq. intros [= <-]. simpl. eapply Hrec, Htd.
      * rewrite lookup_insert_ne by done. apply Hrec.
    + intros token' clicks' cl. destruct (decide (token = token')) as [<- | Hne].
      * rewrite lookup_insert_eq. intros [= <-] Hin.
        apply elem_of_app in Hin. destruct Hin as [Hin | Hin].
        -- eapply Hclk; eassumption.
        -- apply list_elem_of_singleton in Hin. subst cl. reflexivity.
      * rewrite lookup_insert_ne by done. apply Hclk.
  - destruct Hok as (Hkeys & Hrec & Hclk). unfold records_ok. rewrite Ht, Hc. auto.
Qed.

Lemma records_ok_run_calls cs : ∀ st, records_ok st → records_ok (run_calls st cs).
Proof.
  induction cs as [| c cs IH]; intros st Hok; simpl; [exact Hok |].
  apply IH. destruct c; simpl.
  - apply records_ok_generate_token, Hok.
  - apply records_ok_track_click, Hok.
  - exact Hok.
  - exact Hok.
  - apply (records_ok_initial (env st)).
Qed.

(** X6. On every store the tracker can reach, the token dictionary and the
    click dictionary have the same keys; the [created_at] and [expires_at]
    of every record and the [timestamp] of every click are texts that
    [datetime.fromisoformat] reads; no counter is negative; and the
    [click_hash] of every click is the SHA-256 digest, in hexadecimal, of
    its token, a colon and its [ip_address]. *)
Theorem stored_records_well_formed (st : state) :
  reachable st →
  (∀ token, _tokens st !! token = None ↔ _clicks st !! token = None) ∧
  (∀ token td, _tokens st !! token = Some td →
     0 <= click_count td ∧
     ∃ created expires,
       Datetime.fromisoformat (created_at td) = Ok created ∧
       Datetime.fromisoformat (expires_at td) = Ok expires) ∧
  (∀ token clicks c, _clicks st !! token = Some clicks → c ∈ clicks →
     click_hash c = Sha256.hexdigest (PyStr.encode (token ++ ":" ++ ip_address c)) ∧
     ∃ stamp, Datetime.fromisoformat (timestamp c) = Ok stamp).
Proof.
  intros Hr.
  assert (Hrec : records_ok st).
  { destruct Hr as (w & cs & ->). apply records_ok_run_calls, records_ok_initial. }
  apply reachable_store_ok in Hr. destruct Hr as [Htok Hstamped].
  destruct Hrec as (Hkeys & Hcreated & Hhash).
  split; [exact Hkeys |]. split.
  - intros token td Htd.
    destruct (Htok token td Htd) as [(clicks & _ & Hlen) (expires & Hve & Hexp)].
    destruct (Hcreated token td Htd) as (created & Hvc & Hcr).
    split; [lia |]. exists created, expires.
    rewrite Hcr, Hexp. split; apply fromisoformat_isoformat; assumption.
  - intros token clicks c Hcl Hin. split; [eapply Hhash; eassumption |].
    pose proof (Hstamped token clicks Hcl) as Hall. rewrite Forall_forall in Hall.
    destruct (Hall c Hin) as (stamp & Hv & Hts).
    exists stamp. rewrite Hts. apply fromisoformat_isoformat, Hv.
Qed.

Lemma stored_records_well_formed_witness :
  (_tokens clicked_thrice !! "doesnotexist" = None
   ↔ _clicks clicked_thrice !! "doesnotexist" = None) ∧
  ∃ created expires,
    Datetime.fromisoformat "2024-01-01T12:00:00" = Ok created ∧
    Datetime.fromisoformat "2024-03-31T12:00:00.000007" = Ok expires.
Proof.
  destruct (stored_records_well_formed clicked_thrice) as (Hkeys & Hrec & _).
  - exists sample_world, sample_calls. reflexivity.
  - split; [apply Hkeys |].
    destruct (Hrec sample_token
                (mk_token_data sample_url (Some "a@b.co") "spring"
                   "2024-01-01T12:00:00" "2024-03-31T12:00:00.000007" 3))
      as (_ & created & expires & Hc & He).
    + vm_compute. reflexivity.
    + exists created, expires. split; [exact Hc | exact He].
Defined.

(** ** Sums of the buckets *)

Lemma sum_counts_insert (d : gmap string Z) (k : string) (v : Z) :
  sum_counts (<[k := v]> d) = sum_counts d - default 0 (d !! k) + v.
Proof.
  unfold sum_counts.
  assert (Hcomm : ∀ (m : gmap string Z) (j1 j2 : string) (z1 z2 y : Z),
            j1 ≠ j2 → m !! j1 = Some z1 → m !! j2 = Some z2 →
            z1 + (z2 + y) = z2 + (z1 + y)) by (intros; lia).
  destruct (d !! k) as [x |] eqn:Hk.
  - rewrite <- insert_delete_eq.
    rewrite map_fold_insert_L; [| apply Hcomm | apply lookup_delete_eq].
    rewrite (map_fold_delete_L _ 0 k x d); [| apply Hcomm | exact Hk].
    simpl. lia.
  - rewrite map_fold_insert_L; [| apply Hcomm | exact Hk]. simpl. lia.
Qed.

Lemma sum_counts_count_by key clicks :
  sum_counts (count_by key clicks) = Z.of_nat (length clicks).
Proof.
  induction clicks as [| c clicks IH] using rev_ind.
  - reflexivity.
  - rewrite count_by_snoc, sum_counts_insert, IH, length_app. simpl. lia.
Qed.

Lemma size_ips_bounds (ips : list string) :
  (size (list_to_set ips : gset string) <= length ips)%nat ∧
  (ips ≠ [] → 1 <= size (list_to_set ips : gset string))%nat.
Proof.
  induction ips as [| ip ips [IH1 IH2]] using rev_ind.
  - assert (H0 : size (list_to_set [] : gset string) = 0%nat) by apply size_empty.
    split; [rewrite H0; simpl; lia | congruence].
  - pose proof (size_ips_snoc ips ip) as H. rewrite length_app. simpl.
    destruct (decide (ip ∈ ips)) as [Hin | Hout].
    + assert (ips ≠ []) by (intros ->; apply elem_of_nil in Hin; contradiction).
      specialize (IH2 ltac:(assumption)). split; [lia | intros _; lia].
    + split; [lia | intros _; lia].
Qed.

(** X7. In the statistics of a token every click falls into exactly one
    date bucket and exactly one user-agent bucket: the counts of
    [clicks_by_date] add up to [total_clicks], and so do the counts of
    [clicks_by_user_agent].  [unique_ips] never exceeds [total_clicks] and is
    zero only when there is no click. *)
Theorem stats_buckets_add_up (st : state) (token : string) (stats : click_stats) :
  get_click_stats st token = Some stats →
  sum_counts (clicks_by_date stats) = total_clicks stats ∧
  sum_counts (clicks_by_user_agent stats) = total_clicks stats ∧
  0 <= unique_ips stats <= total_clicks stats ∧
  (unique_ips stats = 0 ↔ total_clicks stats = 0).
Proof.
  unfold get_click_stats. destruct (_tokens st !! token); [| discriminate].
  intros [= <-]. cbn [clicks_by_date clicks_by_user_agent total_clicks unique_ips].
  generalize (default [] (_clicks st !! token)). intros clicks.
  rewrite !sum_counts_count_by.
  destruct (size_ips_bounds (map ip_address clicks)) as [Hle Hpos].
  rewrite length_map in Hle.
  split; [reflexivity |]. split; [reflexivity |]. split; [lia |].
  split; intros H; [| lia].
  destruct clicks as [| c clicks']; [reflexivity |].
  specialize (Hpos ltac:(discriminate)). lia.
Qed.

Lemma stats_buckets_add_up_witness :
  ∃ stats, get_click_stats clicked_thrice sample_token = Some stats ∧
    sum_counts (clicks_by_date stats) = 3 ∧ sum_counts (clicks_by_user_agent stats) = 3.
Proof.
  destruct (get_click_stats clicked_thrice sample_token) as [stats |] eqn:Hs;
    [| vm_compute in Hs; discriminate].
  exists stats. split; [reflexivity |].
  destruct (stats_buckets_add_up clicked_thrice sample_token stats Hs) as (Hd & Hu & _).
  rewrite Hd, Hu. vm_compute in Hs. injection Hs as <-. split; reflexivity.
Defined.

(** ** The timestamp of the health probe *)

Lemma length_pad_dec (w : nat) (n : Z) (rest : string) :
  String.length (Datetime.pad_dec w n rest) = (w + String.length rest)%nat.
Proof.
  revert n rest. induction w as [| w IH]; intros n rest; [reflexivity |].
  cbn [Datetime.pad_dec]. rewrite IH. simpl. lia.
Qed.

Lemma length_isoformat (d : Datetime.datetime) :
  String.length (Datetime.isoformat d)
  = if Datetime.microsecond d =? 0 then 19%nat else 26%nat.
Proof.
  unfold Datetime.isoformat, Datetime.date_isoformat.
  repeat (rewrite length_pad_dec; cbn [String.length]).
  destruct (Datetime.microsecond d =? 0); cbn [String.length];
    rewrite ?length_pad_dec; cbn [String.length]; lia.
Qed.

(** X8. [get_current_timestamp] reads the clock once and touches neither
    dictionary.  When the clock answers, the result is the ISO text of that
    reading, 19 characters long, or 26 with a microsecond part, and
    [datetime.fromisoformat] reads it back to the same datetime; when the
    clock fails, the exception leaves the call as it is, for nothing catches
    it. *)
Theorem current_timestamp_reads_back (st : state) :
  snd (get_current_timestamp st) = tick st ∧
  (∀ now, fst (utcnow st) = Ok now →
     fst (get_current_timestamp st) = Ok (Datetime.isoformat now) ∧
     Datetime.fromisoformat (Datetime.isoformat now) = Ok now ∧
     String.length (Datetime.isoformat now)
     = (if Datetime.microsecond now =? 0 then 19%nat else 26%nat)) ∧
  (∀ e, fst (utcnow st) = Raise e → fst (get_current_timestamp st) = Raise e).
Proof.
  unfold get_current_timestamp, mbind, M_bind, mret, M_ret.
  change (utcnow st) with ((utcnow st).1, tick st).
  split; [destruct ((utcnow st).1); reflexivity |]. split.
  - intros now Hnow. cbn [fst] in Hnow.
    assert (Hv : Datetime.valid now = true) by (eapply utcnow_Ok_valid; exact Hnow).
    rewrite Hnow. split; [reflexivity |].
    split; [apply fromisoformat_isoformat, Hv | apply length_isoformat].
  - intros e He. cbn [fst] in He. rewrite He. reflexivity.
Qed.

Lemma current_timestamp_reads_back_witness :
  fst (get_current_timestamp issued) = Ok "2024-01-02T09:30:00" ∧
  fst (get_current_timestamp clicked_thrice) = Raise (OSError "clock failure").
Proof.
  split.
  - destruct (current_timestamp_reads_back issued) as (_ & H & _).
    destruct (H (Datetime.mk_datetime 2024 1 2 9 30 0 0)) as (Hres & _).
    + vm_compute. reflexivity.
    + exact Hres.
  - destruct (current_timestamp_reads_back clicked_thrice) as (_ & _ & H).
    apply H. vm_compute. reflexivity.
Defined.

(** ** More on the validators *)

Lemma count_char_app (c : ascii) (s t : string) :
  count_char c (s ++ t) = (count_char c s + count_char c t)%nat.
Proof.
  induction s as [| x s IH]; [reflexivity |].
  rewrite app_cons. simpl. rewrite IH. lia.
Qed.

Lemma all_chars_app (p : ascii → bool) (s t : string) :
  all_chars p (s ++ t) = all_chars p s && all_chars p t.
Proof.
  induction s as [| x s IH]; [reflexivity |].
  rewrite app_cons. simpl. rewrite IH. apply andb_assoc.
Qed.

Lemma all_chars_impl (p q : ascii → bool) (s : string) :
  (∀ c, p c = true → q c = true) → all_chars p s = true → all_chars q s = true.
Proof.
  intros Hpq. induction s as [| x s IH]; [reflexivity |].
  simpl. rewrite !andb_true_iff. intros [Hx Hs]. auto.
Qed.

Lemma count_char_absent (p : ascii → bool) (c : ascii) (s : string) :
  p c = false → all_chars p s = true → count_char c s = O.
Proof.
  intros Hc. induction s as [| x s IH]; [reflexivity |].
  simpl. rewrite andb_true_iff. intros [Hx Hs].
  destruct (Ascii.eqb_spec x c) as [-> | _]; [congruence |]. rewrite IH; auto.
Qed.

Lemma email_local_visible (c : ascii) :
  Regex.email_local c = true → visible_ascii c = true.
Proof.
  destruct c as [[] [] [] [] [] [] [] []]; vm_compute; intros H;
    first [reflexivity | discriminate H].
Qed.

Lemma email_domain_local (c : ascii) :
  Regex.email_domain c = true → Regex.email_local c = true.
Proof.
  destruct c as [[] [] [] [] [] [] [] []]; vm_compute; intros H;
    first [reflexivity | discriminate H].
Qed.

Lemma alpha_domain (c : ascii) : Regex.alpha c = true → Regex.email_domain c = true.
Proof.
  destruct c as [[] [] [] [] [] [] [] []]; vm_compute; intros H;
    first [reflexivity | discriminate H].
Qed.

Lemma email_shape_one_at (w : string) :
  email_shape w → count_char "@" w = 1%nat ∧ all_chars visible_ascii w = true.
Proof.
  intros (local & domain & tld & -> & _ & Hl & _ & Hd & _ & Ht).
  assert (Ht' : all_chars Regex.email_local tld = true).
  { eapply all_chars_impl; [| exact Ht]. intros c Hc. apply email_domain_local, alpha_domain, Hc. }
  assert (Hd' : all_chars Regex.email_local domain = true).
  { eapply all_chars_impl; [| exact Hd]. apply email_domain_local. }
  split.
  - rewrite !count_char_app.
    rewrite (count_char_absent Regex.email_local "@" local eq_refl Hl).
    rewrite (count_char_absent Regex.email_local "@" domain eq_refl Hd').
    rewrite (count_char_absent Regex.email_local "@" tld eq_refl Ht').
    reflexivity.
  - rewrite !all_chars_app.
    rewrite (all_chars_impl _ _ local email_local_visible Hl).
    rewrite (all_chars_impl _ _ domain email_local_visible Hd').
    rewrite (all_chars_impl _ _ tld email_local_visible Ht').
    reflexivity.
Qed.

(** X9. An address that [validate_email] accepts has exactly one [@], and
    apart from one newline that may end it, it consists of visible ASCII
    characters only: no space, no control character and no character
    outside ASCII passes. *)
Theorem validate_email_accepts_plain_ascii (email : string) :
  validate_email email = true →
  count_char "@" email = 1%nat ∧
  ∃ body, (email = body ∨ email = with_newline body) ∧
    all_chars visible_ascii body = true ∧ body ≠ EmptyString.
Proof.
  unfold validate_email. rewrite match_to_end_lang.
  assert (Hne : ∀ w, email_shape w → w ≠ EmptyString).
  { intros w (local & domain & tld & -> & Hl & _). destruct local; [congruence | discriminate]. }
  intros [H | (w & -> & H)]; apply email_pattern_lang in H;
    destruct (email_shape_one_at _ H) as [Hat Hvis].
  - split; [exact Hat |]. exists email. auto.
  - split.
    + unfold with_newline. rewrite count_char_app, Hat. reflexivity.
    + exists w. auto.
Qed.

Lemma validate_email_accepts_plain_ascii_witness :
  count_char "@" "a@b.co" = 1%nat ∧
  ∃ body, ("a@b.co" = body ∨ "a@b.co" = with_newline body) ∧
    all_chars visible_ascii body = true ∧ body ≠ EmptyString.
Proof.
  apply (validate_email_accepts_plain_ascii "a@b.co"). vm_compute. reflexivity.
Defined.

Lemma to_lower_idem (x : ascii) : Regex.to_lower (Regex.to_lower x) = Regex.to_lower x.
Proof. destruct x as [[] [] [] [] [] [] [] []]; reflexivity. Qed.

Lemma to_lower_newline (x : ascii) :
  Ascii.eqb (Regex.to_lower x) Regex.newline = Ascii.eqb x Regex.newline.
Proof. destruct x as [[] [] [] [] [] [] [] []]; reflexivity. Qed.

Lemma deriv_case_blind (r : Regex.regex) (x : ascii) :
  case_blind r →
  Regex.deriv (Regex.to_lower x) r = Regex.deriv x r ∧ case_blind (Regex.deriv x r).
Proof.
  induction r as [| | p | r1 IH1 r2 IH2 | r1 IH1 r2 IH2 | r IH]; simpl; intros H.
  - auto.
  - auto.
  - rewrite <- (H x). destruct (p x); simpl; auto.
  - destruct H as [H1 H2]. destruct (IH1 H1) as [E1 B1]. destruct (IH2 H2) as [E2 B2].
    rewrite E1, E2. destruct (Regex.nullable r1); simpl; auto.
  - destruct H as [H1 H2]. destruct (IH1 H1) as [E1 B1]. destruct (IH2 H2) as [E2 B2].
    rewrite E1, E2. auto.
  - destruct (IH H) as [E B]. rewrite E. auto.
Qed.

Lemma match_to_end_lower (s : string) :
  ∀ r, case_blind r → Regex.match_to_end r (lower_string s) = Regex.match_to_end r s.
Proof.
  induction s as [| x s IH]; intros r Hr; [reflexivity |].
  cbn [lower_string Regex.match_to_end].
  destruct (deriv_case_blind r x Hr) as [E B].
  rewrite to_lower_newline, E, (IH _ B). f_equal. f_equal. f_equal.
  destruct s; reflexivity.
Qed.

Lemma url_pattern_case_blind : case_blind Regex.url_pattern.
Proof.
  unfold Regex.url_pattern. cbn [Regex.seq case_blind Regex.lit_i Regex.opt Regex.dot].
  repeat split; intros x; try (rewrite to_lower_idem; reflexivity);
    destruct x as [[] [] [] [] [] [] [] []]; reflexivity.
Qed.

Lemma email_pattern_case_blind : case_blind Regex.email_pattern.
Proof.
  unfold Regex.email_pattern.
  cbn [Regex.seq case_blind Regex.lit Regex.plus Regex.at_least_2].
  repeat split; intros x; destruct x as [[] [] [] [] [] [] [] []]; reflexivity.
Qed.

(** X10. Both validators are blind to the case of ASCII letters anywhere in
    the text: [validate_url], whose pattern is compiled with
    [re.IGNORECASE], and [validate_email], whose character classes hold both
    cases of every letter, give the same answer on a text and on its
    lower-case form. *)
Theorem validators_ignore_case (s : string) :
  validate_url s = validate_url (lower_string s) ∧
  validate_email s = validate_email (lower_string s).
Proof.
  unfold validate_url, validate_email.
  rewrite (match_to_end_lower s _ url_pattern_case_blind).
  rewrite (match_to_end_lower s _ email_pattern_case_blind).
  split; reflexivity.
Qed.

(** * Properties of the spreadsheet log *)

Lemma filter_of_token_nil (token : string) (rows : list (list string)) :
  List.filter (Sheets.of_token token) rows = []
  ↔ ∀ row, row ∈ rows → row !! 1%nat ≠ Some token.
Proof.
  induction rows as [| r rows IH]; simpl.
  - split; [intros _ row H; apply elem_of_nil in H; contradiction | reflexivity].
  - unfold Sheets.of_token at 1.
    destruct (bool_decide_reflect (r !! 1%nat = Some token)) as [Hr | Hr].
    + assert (Hlen : (1 < length r)%nat) by (eapply lookup_lt_Some; exact Hr).
      rewrite (bool_decide_eq_true_2 _ Hlen). simpl. split; [discriminate |].
      intros H. exfalso. apply (H r); [apply elem_of_cons; auto | exact Hr].
    + rewrite andb_false_r. rewrite IH. split.
      * intros H row Hin. apply elem_of_cons in Hin. destruct Hin as [-> | Hin]; auto.
      * intros H row Hin. apply H. apply elem_of_cons. auto.
Qed.

(** X11. [get_click_stats] of the spreadsheet log sends one request and
    returns [None] in exactly two cases: the request raised an [Exception]
    (which it swallows), or no row below the first has the token in its
    second cell.  The first row is skipped as a header whatever it holds,
    and statistics that are returned count at least one click, so a token
    without logged clicks is reported like an unknown one. *)
Theorem sheet_stats_absent (token : string) (sv : Sheets.service) :
  snd (Sheets.get_click_stats token sv) = Sheets.sent sv ∧
  (fst (Sheets.get_click_stats token sv) = Sheets.Done None
   ↔ (∃ f, Sheets.reply sv = Some f ∧ Sheets.fault_is_Exception f = true)
     ∨ (Sheets.reply sv = None
        ∧ ∀ row, row ∈ tail (Sheets.click_rows sv) → row !! 1%nat ≠ Some token)) ∧
  (∀ stats, fst (Sheets.get_click_stats token sv) = Sheets.Done (Some stats) →
     1 <= Sheets.total_clicks stats ∧
     Sheets.reply sv = None ∧
     ∃ row, row ∈ tail (Sheets.click_rows sv) ∧ row !! 1%nat = Some token).
Proof.
  unfold Sheets.get_click_stats.
  split; [destruct (Sheets.reply sv); reflexivity |].
  destruct (Sheets.reply sv) as [f |]; cbn [fst].
  - split.
    + destruct (Sheets.fault_is_Exception f) eqn:Hf.
      * split; [intros _; left; eauto | reflexivity].
      * split; [discriminate |].
        intros [(f' & [= <-] & Hf') | [H _]]; congruence.
    + intros stats. destruct (Sheets.fault_is_Exception f); discriminate.
  - unfold Sheets.summarize.
    pose proof (filter_of_token_nil token (tail (Sheets.click_rows sv))) as Hnil.
    destruct (List.filter _ _) as [| r rows] eqn:Hf.
    + split.
      * split; [intros _; right; split; [reflexivity | apply Hnil; reflexivity] | reflexivity].
      * discriminate.
    + split.
      * split; [discriminate |].
        intros [(f & Hf' & _) | [_ H]]; [discriminate |].
        apply Hnil in H. discriminate.
      * intros stats [= <-]. cbn [Sheets.total_clicks].
        split; [simpl length; lia |]. split; [reflexivity |].
        assert (Hin : r ∈ List.filter (Sheets.of_token token) (tail (Sheets.click_rows sv)))
          by (rewrite Hf; apply elem_of_cons; auto).
        apply list_elem_of_In, filter_In in Hin. destruct Hin as [Hin Hr].
        exists r. split; [apply list_elem_of_In, Hin |].
        unfold Sheets.of_token in Hr. apply andb_true_iff in Hr. destruct Hr as [_ Hr].
        apply bool_decide_eq_true in Hr. exact Hr.
Qed.

Lemma count_column_snoc i key rows r :
  Sheets.count_column i key (rows ++ [r])
  = match r !! i with
    | Some cell =>
        <[key cell := default 0 (Sheets.count_column i key rows !! key cell) + 1]>
          (Sheets.count_column i key rows)
    | None => Sheets.count_column i key rows
    end.
Proof. unfold Sheets.count_column. rewrite fold_left_app. reflexivity. Qed.






(** The statistics that [summarize] returns. *)
Lemma summarize_Some (values : list (list string)) (token : string) (stats : Sheets.stats) :
  Sheets.summarize values token = Some stats →
  List.filter (Sheets.of_token token) (tail values) ≠ [] ∧
  stats
  = Sheets.mk_stats
      (Z.of_nat (length (List.filter (Sheets.of_token token) (tail values))))
      (Z.of_nat (size (list_to_set
                         (omap (fun click : list string => click !! 2%nat)
                            (List.filter (Sheets.of_token token) (tail values)))
                       : gset string)))
      (Sheets.count_column 0 (PyStr.before "T")
         (List.filter (Sheets.of_token token) (tail values)))
      (Sheets.count_column 3 (PyStr.take 50)
         (List.filter (Sheets.of_token token) (tail values))).
Proof.
  unfold Sheets.summarize.
  destruct (List.filter _ _) as [| r rows]; [discriminate |].
  intros [= <-]. split; [discriminate | reflexivity].
Qed.



Lemma of_token_click_values token ip ua ts :
  Sheets.of_token token (Sheets.click_values token ip ua ts) = true.
Proof.
  unfold Sheets.of_token, Sheets.click_values. apply andb_true_iff.
  split; apply bool_decide_eq_true_2; [simpl; lia | reflexivity].
Qed.

Lemma filter_snoc_row token rows row :
  List.filter (Sheets.of_token token) (rows ++ [row])
  = (List.filter (Sheets.of_token token) rows
     ++ (if Sheets.of_token token row then [row] else []))%list.
Proof. rewrite List.filter_app. reflexivity. Qed.

Lemma tail_snoc {A} (l : list A) (x : A) : l ≠ [] → tail (l ++ [x]) = (tail l ++ [x])%list.
Proof. destruct l; [congruence | reflexivity]. Qed.

(** X13. A click that [log_click] has written is found again by
    [get_click_stats] when the sheet was not empty: with both requests
    executed, the statistics of the token exist and [total_clicks] is one
    higher than before (1 when there were none).  On a sheet without any
    row, not even the header, the row just written becomes the first row
    and is skipped like a header: the statistics stay absent. *)
Theorem sheet_log_then_stats (token ip ua ts url : string) (sv : Sheets.service) :
  Sheets.reply sv = None →
  Sheets.reply (Sheets.sent sv) = None →
  fst (Sheets.log_click token ip ua ts url sv) = Sheets.Done tt ∧
  Sheets.click_rows (snd (Sheets.log_click token ip ua ts url sv))
  = (Sheets.click_rows sv ++ [[ts; token; ip; PyStr.take 100 ua; "1"]])%list ∧
  (Sheets.click_rows sv ≠ [] →
     ∃ stats,
       fst (Sheets.get_click_stats token (snd (Sheets.log_click token ip ua ts url sv)))
       = Sheets.Done (Some stats) ∧
       Sheets.total_clicks stats
       = match Sheets.summarize (Sheets.click_rows sv) token with
         | Some before => Sheets.total_clicks before + 1
         | None => 1
         end) ∧
  (Sheets.click_rows sv = [] →
     fst (Sheets.get_click_stats token (snd (Sheets.log_click token ip ua ts url sv)))
     = Sheets.Done None).
Proof.
  intros Hr1 Hr2. unfold Sheets.log_click. rewrite Hr1. cbn [fst snd Sheets.click_rows].
  split; [reflexivity |]. split; [reflexivity |].
  unfold Sheets.get_click_stats.
  change (Sheets.reply (Sheets.mk_service _ _ _ _)) with (Sheets.reply (Sheets.sent sv)).
  rewrite Hr2. cbn [fst Sheets.click_rows]. split.
  - intros Hne. unfold Sheets.summarize.
    rewrite (tail_snoc _ _ Hne), filter_snoc_row, of_token_click_values.
    fold (Sheets.click_values token ip ua ts).
    destruct (List.filter (Sheets.of_token token) (tail (Sheets.click_rows sv)))
      as [| r rows]; simpl app.
    + eexists. split; [reflexivity | reflexivity].
    + eexists. split; [reflexivity |].
      cbn [Sheets.total_clicks]. simpl length. rewrite length_app. simpl length. lia.
  - intros ->. reflexivity.
Qed.

Lemma sheet_log_then_stats_witness :
  (∃ stats,
     fst (Sheets.get_click_stats sample_token
            (snd (Sheets.log_click sample_token "1.1.1.1" "Mozilla/5.0"
                    "2024-01-02T09:30:00" sample_url sample_service)))
     = Sheets.Done (Some stats) ∧ Sheets.total_clicks stats = 1) ∧
  fst (Sheets.get_click_stats sample_token
         (snd (Sheets.log_click sample_token "1.1.1.1" "Mozilla/5.0"
                 "2024-01-02T09:30:00" sample_url bare_service)))
  = Sheets.Done None.
Proof.
  split.
  - destruct (sheet_log_then_stats sample_token "1.1.1.1" "Mozilla/5.0"
                "2024-01-02T09:30:00" sample_url sample_service)
      as (_ & _ & H & _); [reflexivity | reflexivity |].
    destruct H as (stats & Hs & Ht); [discriminate |].
    exists stats. split; [exact Hs | exact Ht].
  - destruct (sheet_log_then_stats sample_token "1.1.1.1" "Mozilla/5.0"
                "2024-01-02T09:30:00" sample_url bare_service)
      as (_ & _ & _ & H); [reflexivity | reflexivity |].
    apply H. reflexivity.
Defined.

Lemma take_take (n m : nat) (s : string) :
  (n <= m)%nat → PyStr.take n (PyStr.take m s) = PyStr.take n s.
Proof.
  revert m s. induction n as [| n IH]; intros m s Hle; [reflexivity |].
  destruct m as [| m]; [lia |]. destruct s as [| c s]; [reflexivity |].
  simpl. rewrite IH by lia. reflexivity.
Qed.

Lemma omap_row_ips (token : string) (clicks : list click_data) :
  omap (fun click : list string => click !! 2%nat) (map (row_of_click token) clicks)
  = map ip_address clicks.
Proof.
  induction clicks as [| c clicks IH]; [reflexivity |].
  simpl. change (list_omap _ _ ?f ?l) with (omap f l). rewrite IH. reflexivity.
Qed.

Lemma count_column_map (f : click_data → list string) (i : nat) (key : string → string)
    (key' : click_data → string) (clicks : list click_data) :
  (∀ c, key <$> (f c !! i) = Some (key' c)) →
  Sheets.count_column i key (map f clicks) = count_by key' clicks.
Proof.
  intros Hkey. induction clicks as [| c clicks IH] using rev_ind; [reflexivity |].
  rewrite map_app. simpl map. rewrite count_column_snoc, count_by_snoc, IH.
  specialize (Hkey c). destruct (f c !! i) as [cell |]; [| discriminate].
  injection Hkey as ->. reflexivity.
Qed.

Lemma summarize_rows (values : list (list string)) (token : string)
    (clicks : list (list string)) :
  List.filter (Sheets.of_token token) (tail values) = clicks →
  Sheets.summarize values token
  = match clicks with
    | [] => None
    | _ =>
        Some (Sheets.mk_stats
                (Z.of_nat (length clicks))
                (Z.of_nat (size (list_to_set
                                   (omap (fun click : list string => click !! 2%nat) clicks)
                                 : gset string)))
                (Sheets.count_column 0 (PyStr.before "T") clicks)
                (Sheets.count_column 3 (PyStr.take 50) clicks))
    end.
Proof. intros <-. reflexivity. Qed.

Lemma match_nonempty {A C} (l : list A) (v : C) :
  l ≠ [] → match l with [] => None | _ => Some v end = Some v.
Proof. destruct l; [congruence | reflexivity]. Qed.

(** The statistics of the log for rows written from a list of clicks. *)
Lemma summarize_of_clicks (token : string) (values : list (list string))
    (clicks : list click_data) :
  List.filter (Sheets.of_token token) (tail values) = map (row_of_click token) clicks →
  Sheets.summarize values token
  = match clicks with
    | [] => None
    | _ =>
        Some (Sheets.mk_stats
                (Z.of_nat (length clicks))
                (Z.of_nat (size (list_to_set (map ip_address clicks) : gset string)))
                (count_by (fun click => PyStr.before "T" (timestamp click)) clicks)
                (count_by (fun click => PyStr.take 50 (user_agent click)) clicks))
    end.
Proof.
  intros Hrows. rewrite (summarize_rows _ _ _ Hrows).
  destruct (decide (clicks = [])) as [Hnil | Hne].
  - rewrite Hnil. reflexivity.
  - rewrite (match_nonempty clicks) by exact Hne.
    rewrite match_nonempty by (destruct clicks; [congruence | discriminate]).
    f_equal. rewrite length_map, omap_row_ips.
    rewrite (count_column_map (row_of_click token) 0 (PyStr.before "T")
               (fun click => PyStr.before "T" (timestamp click))) by reflexivity.
    rewrite (count_column_map (row_of_click token) 3 (PyStr.take 50)
               (fun click => PyStr.take 50 (user_agent click)));
      [reflexivity |].
    intros c0.
    change (Some (PyStr.take 50 (PyStr.take 100 (user_agent c0)))
            = Some (PyStr.take 50 (user_agent c0))).
    rewrite take_take by lia. reflexivity.
Qed.

(** X14. The spreadsheet log and the tracker compute the same statistics.
    When the rows of a token in the Clicks sheet, below the header, are the
    rows that [log_click] writes for the clicks the tracker holds for it, in
    the same order, then [get_click_stats] of the log yields the
    [total_clicks], [unique_ips], [clicks_by_date] and
    [clicks_by_user_agent] of the tracker's [get_click_stats]: cutting the
    user agent to 100 characters in the log does not change the buckets of
    50.  They differ for a token without clicks, where the tracker reports
    zeros and the log reports nothing. *)
Theorem sheet_agrees_with_tracker (st : state) (token : string) (stats : click_stats)
    (values : list (list string)) :
  get_click_stats st token = Some stats →
  List.filter (Sheets.of_token token) (tail values)
  = map (row_of_click token) (clicks_of st token) →
  Sheets.summarize values token
  = match clicks_of st token with
    | [] => None
    | _ => Some (Sheets.mk_stats (total_clicks stats) (unique_ips stats)
                   (clicks_by_date stats) (clicks_by_user_agent stats))
    end.
Proof.
  unfold get_click_stats. destruct (_tokens st !! token); [| discriminate].
  intros [= <-] Hrows. fold (clicks_of st token) in *.
  rewrite (summarize_of_clicks _ _ _ Hrows).
  destruct (clicks_of st token); reflexivity.
Qed.

Lemma sheet_agrees_with_tracker_witness :
  ∃ stats, get_click_stats clicked_thrice sample_token = Some stats ∧
    Sheets.summarize
      (click_header
       :: ["2024-01-03T00:00:00"; "another-token"; "2.2.2.2"; "curl/8.0"; "1"]
       :: map (row_of_click sample_token) (clicks_of clicked_thrice sample_token))
      sample_token
    = Some (Sheets.mk_stats 3 2 (clicks_by_date stats) (clicks_by_user_agent stats)).
Proof.
  destruct (get_click_stats clicked_thrice sample_token) as [stats |] eqn:Hs;
    [| vm_compute in Hs; discriminate].
  exists stats. split; [reflexivity |].
  rewrite (sheet_agrees_with_tracker clicked_thrice sample_token stats _ Hs).
  - vm_compute in Hs. injection Hs as <-. vm_compute. reflexivity.
  - vm_compute. reflexivity.
Defined.

(** * Properties of the routes *)

(** X15. The track route answers 404 with one and the same body for a
    token the tracker does not know, for a token that has expired, and also
    when the clock fails while the click is checked: [track_click] turns
    the fault into an outcome, so the route's own handler, which would
    answer 500, is never reached.  In each case nothing is sent to the
    spreadsheet and both dictionaries stay as they were. *)
Theorem track_route_not_found (token : string) (request : Main.click_request)
    (a : Main.app) :
  (_tokens (Main.tracker a) !! token = None →
     Main.track_click token request a = (Ok not_found, a)) ∧
  (∀ td expires,
     _tokens (Main.tracker a) !! token = Some td →
     Datetime.fromisoformat (expires_at td) = Ok expires →
     (∀ now, fst (utcnow (Main.tracker a)) = Ok now →
        Datetime.to_micros expires < Datetime.to_micros now →
        fst (Main.track_click token request a) = Ok not_found) ∧
     (∀ e, fst (utcnow (Main.tracker a)) = Raise e → is_Exception e = true →
        fst (Main.track_click token request a) = Ok not_found) ∧
     ((∃ now, fst (utcnow (Main.tracker a)) = Ok now
              ∧ Datetime.to_micros expires < Datetime.to_micros now)
      ∨ (∃ e, fst (utcnow (Main.tracker a)) = Raise e) →
      Main.sheets_api (snd (Main.track_click token request a)) = Main.sheets_api a ∧
      _tokens (Main.tracker (snd (Main.track_click token request a)))
      = _tokens (Main.tracker a) ∧
      _clicks (Main.tracker (snd (Main.track_click token request a)))
      = _clicks (Main.tracker a))).
Proof.
  unfold Main.track_click. split.
  - intros Htd. rewrite track_click_unfold, Htd. destruct a. reflexivity.
  - intros td expires Htd Hexp. rewrite track_click_unfold, Htd, Hexp.
    split; [| split].
    + intros now Hnow Hlt. rewrite Hnow.
      apply gtb_true_chronological in Hlt;
        [| eapply utcnow_Ok_valid; eassumption | eapply fromisoformat_Ok_valid; eassumption].
      rewrite Hlt. reflexivity.
    + intros e He Hexc. rewrite He. unfold caught. rewrite Hexc. reflexivity.
    + intros [(now & Hnow & Hlt) | (e & He)].
      * rewrite Hnow.
        apply gtb_true_chronological in Hlt;
          [| eapply utcnow_Ok_valid; eassumption | eapply fromisoformat_Ok_valid; eassumption].
        rewrite Hlt. auto.
      * rewrite He. unfold caught, Main.handled. destruct (is_Exception e); auto.
Qed.

Lemma track_route_not_found_witness :
  Main.track_click "doesnotexist" sample_request clicked_app = (Ok not_found, clicked_app) ∧
  fst (Main.track_click sample_token sample_request lapsed_app) = Ok not_found ∧
  fst (Main.track_click sample_token sample_request clicked_app) = Ok not_found.
Proof.
  destruct (track_route_not_found "doesnotexist" sample_request clicked_app) as [Hunknown _].
  split; [apply Hunknown; vm_compute; reflexivity |].
  split.
  - destruct (track_route_not_found sample_token sample_request lapsed_app) as [_ H].
    destruct (H (mk_token_data sample_url (Some "a@b.co") "spring"
                   "2024-01-01T12:00:00" "2024-03-31T12:00:00.000007" 3)
                (Datetime.mk_datetime 2024 3 31 12 0 0 7)) as (Hexpired & _);
      [vm_compute; reflexivity | vm_compute; reflexivity |].
    apply (Hexpired (Datetime.mk_datetime 2024 6 1 8 0 0 0)); vm_compute; reflexivity.
  - destruct (track_route_not_found sample_token sample_request clicked_app) as [_ H].
    destruct (H (mk_token_data sample_url (Some "a@b.co") "spring"
                   "2024-01-01T12:00:00" "2024-03-31T12:00:00.000007" 3)
                (Datetime.mk_datetime 2024 3 31 12 0 0 7)) as (_ & Hfault & _);
      [vm_compute; reflexivity | vm_compute; reflexivity |].
    apply (Hfault (OSError "clock failure")); vm_compute; reflexivity.
Defined.




Lemma utcnow_env (st st' : state) : env st = env st' → fst (utcnow st) = fst (utcnow st').
Proof. unfold utcnow. simpl. intros ->. reflexivity. Qed.

(** The state after a call of [generate_token] that returns a token. *)
Lemma generate_token_issued st u em c token created now expires :
  fst (token_urlsafe token_length st) = Ok token →
  fst (utcnow (draw st)) = Ok created →
  fst (utcnow (tick (draw st))) = Ok now →
  Datetime.add_days now 90 = Ok expires →
  generate_token u em c st
  = (Ok token,
     mk_state (<[token := fresh_token_data u em c created expires]> (_tokens st))
       (<[token := []]> (_clicks st))
       (env (tick (tick (draw st))))).
Proof.
  intros Htok Hcreated Hnow Hadd.
  rewrite generate_token_unfold, Htok, Hcreated, Hnow, Hadd. reflexivity.
Qed.

(** X17. The route that issues tokens refuses a request without
    [target_url], or with an empty one, with 400 and touches nothing.  Any
    other [target_url] is taken as it is: neither [validate_url] nor
    [validate_email] is consulted.  When the random source, the clock and
    the tracker's date arithmetic succeed and the spreadsheet request is
    executed or raises [HttpError], the answer is 201 with the token, the
    tracker URL [TRACKER_BASE_URL/track/token], the target URL and the
    campaign ("default" when none is given), and the token is stored with
    that URL and address.  When writing the log fails otherwise, by the
    clock or by the service, the answer is 500 and the token is stored all
    the same. *)
Theorem generate_route (base : string) (data : Main.token_request) (a : Main.app) :
  (Main.req_target_url data = None ∨ Main.req_target_url data = Some EmptyString →
     Main.generate_token base data a
     = (Ok (Main.Reply 400 (Main.Error "target_url is required")), a)) ∧
  (∀ url token created now expires,
     Main.req_target_url data = Some url → url ≠ EmptyString →
     fst (token_urlsafe token_length (Main.tracker a)) = Ok token →
     fst (utcnow (draw (Main.tracker a))) = Ok created →
     fst (utcnow (tick (draw (Main.tracker a)))) = Ok now →
     Datetime.add_days now 90 = Ok expires →
     _tokens (Main.tracker (snd (Main.generate_token base data a))) !! token
     = Some (mk_token_data url (Main.req_email data)
               (default "default" (Main.req_campaign data))
               (Datetime.isoformat created) (Datetime.isoformat expires) 0) ∧
     (∀ logged, fst (utcnow (tick (tick (draw (Main.tracker a))))) = Ok logged →
        (Sheets.reply (Main.sheets_api a) = None
         ∨ ∃ msg, Sheets.reply (Main.sheets_api a) = Some (Sheets.HttpError msg)) →
        fst (Main.generate_token base data a)
        = Ok (Main.Reply 201
                (Main.Created token (base ++ "/track/" ++ token) url
                   (default "default" (Main.req_campaign data))))) ∧
     (∀ e, is_Exception e = true →
        fst (utcnow (tick (tick (draw (Main.tracker a))))) = Raise e
        ∨ ((∃ logged, fst (utcnow (tick (tick (draw (Main.tracker a))))) = Ok logged)
           ∧ Sheets.reply (Main.sheets_api a) = Some (Sheets.Fault e)) →
        fst (Main.generate_token base data a) = Ok Main.internal_error)).
Proof.
  split.
  - unfold Main.generate_token. intros [-> | ->]; reflexivity.
  - intros url token created now expires Hurl Hne Htok Hcreated Hnow Hadd.
    unfold Main.generate_token. rewrite Hurl.
    destruct url as [| c0 url0]; [congruence |].
    rewrite (generate_token_issued _ _ _ _ token created now expires Htok Hcreated Hnow Hadd).
    unfold Sheets.log_token_creation.
    match goal with
    | |- context [fst (utcnow ?s)] =>
        rewrite (utcnow_env s (tick (tick (draw (Main.tracker a))))) by reflexivity
    end.
    split; [| split].
    + destruct (fst (utcnow (tick (tick (draw (Main.tracker a)))))) as [logged | e].
      * destruct (Sheets.reply (Main.sheets_api a)) as [[msg | e] |];
          cbn [snd fst Main.tracker tick _tokens]; apply lookup_insert_eq.
      * cbn [snd fst Main.tracker tick _tokens]. apply lookup_insert_eq.
    + intros logged -> [-> | [msg ->]]; reflexivity.
    + intros e He [-> | [[logged ->] ->]];
        cbn [fst Main.handled_fault]; unfold Main.handled; rewrite He; reflexivity.
Qed.

Lemma generate_route_witness :
  validate_url "ftp://bad" = false ∧ validate_email "not-an-email" = false ∧
  fst (Main.generate_token "http://localhost:5000" unchecked_request sample_app)
  = Ok (Main.Reply 201
          (Main.Created sample_token ("http://localhost:5000/track/" ++ sample_token)
             "ftp://bad" "default")) ∧
  fst (Main.generate_token "http://localhost:5000" unchecked_request offline_start)
  = Ok Main.internal_error ∧
  target_url <$>
    _tokens (Main.tracker
               (snd (Main.generate_token "http://localhost:5000" unchecked_request
                       offline_start))) !! sample_token
  = Some "ftp://bad".
Proof.
  assert (Hissue : ∀ a, Main.tracker a = initial sample_world →
            ∀ P : Prop,
            (_tokens (Main.tracker
                        (snd (Main.generate_token "http://localhost:5000" unchecked_request a)))
               !! sample_token
             = Some (mk_token_data "ftp://bad" (Some "not-an-email") "default"
                       "2024-01-01T12:00:00" "2024-03-31T12:00:00.000007" 0) →
             (∀ logged, fst (utcnow (tick (tick (draw (Main.tracker a))))) = Ok logged →
                (Sheets.reply (Main.sheets_api a) = None
                 ∨ ∃ msg, Sheets.reply (Main.sheets_api a) = Some (Sheets.HttpError msg)) →
                fst (Main.generate_token "http://localhost:5000" unchecked_request a)
                = Ok (Main.Reply 201
                        (Main.Created sample_token
                           ("http://localhost:5000/track/" ++ sample_token)
                           "ftp://bad" "default"))) →
             (∀ e, is_Exception e = true →
                fst (utcnow (tick (tick (draw (Main.tracker a))))) = Raise e
                ∨ ((∃ logged, fst (utcnow (tick (tick (draw (Main.tracker a))))) = Ok logged)
                   ∧ Sheets.reply (Main.sheets_api a) = Some (Sheets.Fault e)) →
                fst (Main.generate_token "http://localhost:5000" unchecked_request a)
                = Ok Main.internal_error) → P) → P).
  { intros a Ha P HP.
    destruct (generate_route "http://localhost:5000" unchecked_request a) as [_ H].
    destruct (H "ftp://bad" sample_token (Datetime.mk_datetime 2024 1 1 12 0 0 0)
                (Datetime.mk_datetime 2024 1 1 12 0 0 7)
                (Datetime.mk_datetime 2024 3 31 12 0 0 7)) as (Hstored & Hok & Hfail).
    - reflexivity.
    - discriminate.
    - rewrite Ha. vm_compute. reflexivity.
    - rewrite Ha. vm_compute. reflexivity.
    - rewrite Ha. vm_compute. reflexivity.
    - vm_compute. reflexivity.
    - apply HP; assumption. }
  split; [vm_compute; reflexivity |]. split; [vm_compute; reflexivity |].
  split; [| split].
  - apply (Hissue sample_app eq_refl). intros _ Hok _.
    apply (Hok (Datetime.mk_datetime 2024 1 2 9 30 0 0)); [vm_compute; reflexivity |].
    left. reflexivity.
  - apply (Hissue offline_start eq_refl). intros _ _ Hfail.
    apply (Hfail (OSError "network unreachable")); [reflexivity |].
    right. split; [eexists; vm_compute; reflexivity | reflexivity].
  - apply (Hissue offline_start eq_refl). intros Hstored _ _.
    rewrite Hstored. reflexivity.
Defined.

(** X18. The statistics route reads the spreadsheet only and never the
    tracker.  It answers 404 "Token not found" exactly when the request to
    the service raised an [Exception] or no row below the header carries the
    token, so a failure of the service and a token that was issued but never
    logged as clicked both look like an unknown token; it never answers
    500. *)
Theorem stats_route (token : string) (a : Main.app) :
  Main.tracker (snd (Main.get_stats token a)) = Main.tracker a ∧
  Main.sheets_api (snd (Main.get_stats token a)) = Sheets.sent (Main.sheets_api a) ∧
  fst (Main.get_stats token a) ≠ Ok Main.internal_error ∧
  (fst (Main.get_stats token a) = Ok token_not_found
   ↔ (∃ f, Sheets.reply (Main.sheets_api a) = Some f ∧ Sheets.fault_is_Exception f = true)
     ∨ (Sheets.reply (Main.sheets_api a) = None
        ∧ ∀ row, row ∈ tail (Sheets.click_rows (Main.sheets_api a)) →
                 row !! 1%nat ≠ Some token)) ∧
  (∀ stats, Sheets.reply (Main.sheets_api a) = None →
     Sheets.summarize (Sheets.click_rows (Main.sheets_api a)) token = Some stats →
     fst (Main.get_stats token a)
     = Ok (Main.Reply 200
             (Main.ClickStats token (Sheets.total_clicks stats) (Sheets.unique_ips stats)
                (Sheets.clicks_by_date stats) (Sheets.clicks_by_user_agent stats)))).
Proof.
  unfold Main.get_stats, Sheets.get_click_stats.
  pose proof (filter_of_token_nil token (tail (Sheets.click_rows (Main.sheets_api a)))) as Hnil.
  destruct (Sheets.reply (Main.sheets_api a)) as [f |].
  - destruct f as [msg | e]; cbn [Sheets.fault_is_Exception].
    + cbn [fst snd Main.tracker Main.sheets_api].
      split; [reflexivity |]. split; [reflexivity |]. split; [discriminate |].
      split; [split; [intros _; left; eauto | reflexivity] | discriminate].
    + destruct (is_Exception e) eqn:He; cbn [fst snd Main.tracker Main.sheets_api];
        (split; [reflexivity |]); (split; [reflexivity |]).
      * split; [discriminate |].
        split; [split; [intros _; left; exists (Sheets.Fault e); auto | reflexivity]
               | discriminate].
      * cbn [Main.handled_fault]. unfold Main.handled. rewrite He.
        split; [discriminate |]. split; [| discriminate].
        split; [discriminate |].
        intros [(f & [= <-] & Hf) | [H _]]; [simpl in Hf; congruence | discriminate].
  - destruct (Sheets.summarize (Sheets.click_rows (Main.sheets_api a)) token) as [stats |] eqn:Hs;
      cbn [fst snd Main.tracker Main.sheets_api];
      (split; [reflexivity |]); (split; [reflexivity |]); (split; [discriminate |]).
    + split.
      * split; [discriminate |].
        intros [(f & Hf & _) | [_ H]]; [discriminate |].
        apply Hnil in H. rewrite (summarize_rows _ _ _ H) in Hs. discriminate.
      * intros stats' _ [= <-]. reflexivity.
    + split; [| discriminate].
      split; [| reflexivity]. intros _. right. split; [reflexivity |].
      apply Hnil. unfold Sheets.summarize in Hs.
      destruct (List.filter _ _); [reflexivity | discriminate].
Qed.

Lemma stats_route_witness :
  (∃ stats, get_click_stats (Main.tracker unlogged_app) sample_token = Some stats
            ∧ total_clicks stats = 3) ∧
  fst (Main.get_stats sample_token unlogged_app) = Ok token_not_found ∧
  fst (Main.get_stats sample_token offline_app) = Ok token_not_found.
Proof.
  split; [eexists; split; [vm_compute; reflexivity | reflexivity] |].
  split.
  - destruct (stats_route sample_token unlogged_app) as (_ & _ & _ & H & _).
    apply H. right. split; [reflexivity |].
    intros row Hin. simpl in Hin. apply elem_of_nil in Hin. contradiction.
  - destruct (stats_route sample_token offline_app) as (_ & _ & _ & H & _).
    apply H. left. exists (Sheets.Fault (OSError "network unreachable")).
    split; reflexivity.
Defined.

(** X19. The health route asks the spreadsheet service first and reads the
    clock only when the service answered.  It reports "healthy", with the
    ISO text of the clock reading, exactly when both succeed; a failure of
    either is answered with 503 and the text of the exception, and when the
    service fails the clock is not read.  The tracker's dictionaries are
    never changed. *)
Theorem health_route (a : Main.app) :
  Main.sheets_api (snd (Main.health_check a)) = Sheets.sent (Main.sheets_api a) ∧
  _tokens (Main.tracker (snd (Main.health_check a))) = _tokens (Main.tracker a) ∧
  _clicks (Main.tracker (snd (Main.health_check a))) = _clicks (Main.tracker a) ∧
  (∀ f, Sheets.reply (Main.sheets_api a) = Some f → Sheets.fault_is_Exception f = true →
     fst (Main.health_check a) = Ok (Main.Reply 503 (Main.Unhealthy (Sheets.fault_str f))) ∧
     Main.tracker (snd (Main.health_check a)) = Main.tracker a) ∧
  (Sheets.reply (Main.sheets_api a) = None →
     Main.tracker (snd (Main.health_check a)) = tick (Main.tracker a) ∧
     (∀ now, fst (utcnow (Main.tracker a)) = Ok now →
        fst (Main.health_check a)
        = Ok (Main.Reply 200 (Main.Healthy (Datetime.isoformat now)))) ∧
     (∀ e, fst (utcnow (Main.tracker a)) = Raise e → is_Exception e = true →
        fst (Main.health_check a) = Ok (Main.Reply 503 (Main.Unhealthy (exc_str e))))) ∧
  (∀ timestamp, fst (Main.health_check a) = Ok (Main.Reply 200 (Main.Healthy timestamp)) →
     Sheets.reply (Main.sheets_api a) = None ∧
     ∃ now, fst (utcnow (Main.tracker a)) = Ok now ∧ timestamp = Datetime.isoformat now).
Proof.
  unfold Main.health_check, Sheets.check_connection, get_current_timestamp,
    mbind, M_bind, mret, M_ret.
  change (utcnow (Main.tracker a)) with ((utcnow (Main.tracker a)).1, tick (Main.tracker a)).
  destruct (Sheets.reply (Main.sheets_api a)) as [f |].
  - cbn [fst snd Main.tracker Main.sheets_api].
    split; [reflexivity |]. split; [reflexivity |]. split; [reflexivity |].
    split; [| split; [discriminate |]].
    + intros f' [= <-] Hf. split; [| reflexivity].
      destruct f as [msg | e]; [reflexivity |]. simpl in Hf. rewrite Hf. reflexivity.
    + intros timestamp H. exfalso.
      destruct f as [msg | e]; [discriminate |]. destruct (is_Exception e); discriminate.
  - destruct ((utcnow (Main.tracker a)).1) as [now |e] eqn:Hnow;
      cbn [fst snd Main.tracker Main.sheets_api].
    + split; [reflexivity |]. split; [reflexivity |]. split; [reflexivity |].
      split; [discriminate |]. split.
      * intros _. split; [reflexivity |]. split; [| discriminate].
        intros now' [= <-]. reflexivity.
      * intros timestamp [= <-]. split; [reflexivity |]. eauto.
    + split; [reflexivity |]. split; [reflexivity |]. split; [reflexivity |].
      split; [discriminate |]. split.
      * intros _. split; [reflexivity |]. split; [discriminate |].
        intros e' [= <-] He. rewrite He. reflexivity.
      * intros timestamp H. exfalso. destruct (is_Exception e); discriminate.
Qed.

Lemma health_route_witness :
  fst (Main.health_check sample_app) = Ok (Main.Reply 200 (Main.Healthy "2024-01-01T12:00:00")) ∧
  fst (Main.health_check offline_app)
  = Ok (Main.Reply 503 (Main.Unhealthy "network unreachable")) ∧
  fst (Main.health_check clicked_app) = Ok (Main.Reply 503 (Main.Unhealthy "clock failure")).
Proof.
  split; [| split].
  - destruct (health_route sample_app) as (_ & _ & _ & _ & H & _).
    destruct H as (_ & Hok & _); [reflexivity |].
    apply (Hok (Datetime.mk_datetime 2024 1 1 12 0 0 0)). vm_compute. reflexivity.
  - destruct (health_route offline_app) as (_ & _ & _ & H & _).
    destruct (H (Sheets.Fault (OSError "network unreachable"))) as [Hres _];
      [reflexivity | reflexivity | exact Hres].
  - destruct (health_route clicked_app) as (_ & _ & _ & _ & H & _).
    destruct H as (_ & _ & Hfail); [reflexivity |].
    apply (Hfail (OSError "clock failure")); [vm_compute; reflexivity | reflexivity].
Defined.




(** * Runs of the application *)

(** [generate_token] either stores the token it drew, or leaves both
    dictionaries as they are. *)
Lemma generate_token_cases st u em c :
  (∃ token created expires,
     token_source (env st) (token_draws (env st)) = Ok token ∧
     generate_token u em c st
     = (Ok token,
        mk_state (<[token := fresh_token_data u em c created expires]> (_tokens st))
          (<[token := []]> (_clicks st))
          (env (tick (tick (draw st)))))) ∨
  (∃ e st',
     generate_token u em c st = (Raise e, st') ∧
     _tokens st' = _tokens st ∧ _clicks st' = _clicks st ∧
     token_source (env st') = token_source (env st) ∧
     (token_draws (env st) <= token_draws (env st'))%nat).
Proof.
  rewrite generate_token_unfold.
  assert (Hsrc : fst (token_urlsafe token_length st)
                 = token_source (env st) (token_draws (env st))) by reflexivity.
  destruct (fst (token_urlsafe token_length st)) as [token | e];
    [| right; exists e, (draw st); simpl; repeat (split; [reflexivity |]); lia].
  destruct (fst (utcnow (draw st))) as [created | e];
    [| right; exists e, (tick (draw st)); simpl; repeat (split; [reflexivity |]); lia].
  destruct (fst (utcnow (tick (draw st)))) as [now | e];
    [| right; exists e, (tick (tick (draw st))); simpl; repeat (split; [reflexivity |]); lia].
  destruct (Datetime.add_days now 90) as [expires | e];
    [| right; exists e, (tick (tick (draw st))); simpl; repeat (split; [reflexivity |]); lia].
  left. exists token, created, expires. split; [symmetry; exact Hsrc | reflexivity].
Qed.

(** [track_click] either records the click, or leaves both dictionaries as
    they are. *)
Lemma track_click_cases st token ip ua :
  (∃ td stamp clicks,
     _tokens st !! token = Some td ∧ _clicks st !! token = Some clicks ∧
     track_click token ip ua st
     = (Ok (TrackSuccess (target_url td) (Datetime.isoformat stamp) (click_count td + 1)),
        mk_state (<[token := clicked td]> (_tokens st))
          (<[token := (clicks ++ [new_click token ip ua stamp])%list]> (_clicks st))
          (env (tick (tick st))))) ∨
  (∃ r st',
     track_click token ip ua st = (r, st') ∧
     (∀ u ts n, r ≠ Ok (TrackSuccess u ts n)) ∧
     _tokens st' = _tokens st ∧ _clicks st' = _clicks st ∧
     token_source (env st') = token_source (env st) ∧
     token_draws (env st') = token_draws (env st)).
Proof.
  assert (Hcaught : ∀ e u ts n, caught e ≠ Ok (TrackSuccess u ts n))
    by (intros e u ts n; unfold caught; destruct (is_Exception e); discriminate).
  rewrite track_click_unfold.
  destruct (_tokens st !! token) as [td |] eqn:Htd;
    [| right; eexists; eexists; split; [reflexivity |];
       split; [discriminate |]; repeat (split; [reflexivity |]); reflexivity].
  destruct (Datetime.fromisoformat (expires_at td)) as [expires | e];
    [| right; eexists; eexists; split; [reflexivity |];
       split; [apply Hcaught |]; repeat (split; [reflexivity |]); reflexivity].
  destruct (fst (utcnow st)) as [now | e];
    [| right; eexists; eexists; split; [reflexivity |];
       split; [apply Hcaught |]; repeat (split; [reflexivity |]); reflexivity].
  destruct (Datetime.gtb now expires);
    [right; eexists; eexists; split; [reflexivity |];
     split; [discriminate |]; repeat (split; [reflexivity |]); reflexivity |].
  destruct (fst (utcnow (tick st))) as [stamp | e];
    [| right; eexists; eexists; split; [reflexivity |];
       split; [apply Hcaught |]; repeat (split; [reflexivity |]); reflexivity].
  destruct (_clicks st !! token) as [clicks |] eqn:Hcl;
    [| right; eexists; eexists; split; [reflexivity |];
       split; [apply Hcaught |]; repeat (split; [reflexivity |]); reflexivity].
  left. exists td, stamp, clicks. split; [reflexivity |]. split; reflexivity.
Qed.

(** The relation looks at the dictionaries, the token source and the Clicks
    sheet only. *)
Lemma log_related_ext R w a a' :
  log_related R w a →
  _tokens (Main.tracker a') = _tokens (Main.tracker a) →
  _clicks (Main.tracker a') = _clicks (Main.tracker a) →
  token_source (env (Main.tracker a')) = token_source (env (Main.tracker a)) →
  (token_draws (env (Main.tracker a)) <= token_draws (env (Main.tracker a')))%nat →
  Sheets.click_rows (Main.sheets_api a') = Sheets.click_rows (Main.sheets_api a) →
  log_related R w a'.
Proof.
  intros (Hsrc & Hne & Hdom & Hdrawn & Hrows) Ht Hc Hs Hd Hcr.
  unfold log_related, clicks_of in *. rewrite Ht, Hc, Hs, Hcr.
  split; [exact Hsrc |]. split; [exact Hne |].
  split; [exact Hdom |]. split; [| exact Hrows].
  intros token Htok. destruct (Hdrawn token Htok) as (i & Hi & Hsi).
  exists i. split; [lia | exact Hsi].
Qed.

Lemma log_related_generate R base w data a :
  tokens_distinct w → log_related R w a →
  log_related R w (snd (Main.generate_token base data a)).
Proof.
  intros Hdist Hinv. unfold Main.generate_token.
  destruct (Main.req_target_url data) as [[| c0 url0] |]; [exact Hinv | | exact Hinv].
  destruct (generate_token_cases (Main.tracker a) (String c0 url0) (Main.req_email data)
              (default "default" (Main.req_campaign data)))
    as [(token & created & expires & Hdraw & ->) | (e & st' & -> & Ht & Hc & Hs & Hd)].
  - pose proof Hinv as (Hsrc & Hne & Hdom & Hdrawn & Hrows).
    assert (Hfresh : _tokens (Main.tracker a) !! token = None).
    { destruct (_tokens (Main.tracker a) !! token) as [td |] eqn:Htd; [| reflexivity].
      destruct (Hdrawn token (mk_is_Some _ _ Htd)) as (i & Hi & Hsi).
      rewrite Hsrc in Hdraw. pose proof (Hdist _ _ _ Hsi Hdraw). lia. }
    assert (Hstep : ∀ st1 sv1,
              _tokens st1 = <[token := fresh_token_data (String c0 url0) (Main.req_email data)
                                         (default "default" (Main.req_campaign data))
                                         created expires]> (_tokens (Main.tracker a)) →
              _clicks st1 = <[token := []]> (_clicks (Main.tracker a)) →
              token_source (env st1) = token_source (env (Main.tracker a)) →
              token_draws (env st1) = S (token_draws (env (Main.tracker a))) →
              Sheets.click_rows sv1 = Sheets.click_rows (Main.sheets_api a) →
              log_related R w (Main.mk_app st1 sv1)).
    { intros st1 sv1 Ht Hc Hs Hd Hcr.
      unfold log_related, clicks_of in *. cbn [Main.tracker Main.sheets_api].
      rewrite Ht, Hc, Hs, Hd, Hcr.
      split; [exact Hsrc |]. split; [exact Hne |].
      split; [| split].
      - intros t. destruct (decide (t = token)) as [-> | Hneq].
        + rewrite lookup_insert_eq. discriminate.
        + rewrite !lookup_insert_ne by congruence. apply Hdom.
      - intros t. destruct (decide (t = token)) as [-> | Hneq].
        + intros _. exists (token_draws (env (Main.tracker a))).
          split; [lia |]. rewrite <- Hsrc. exact Hdraw.
        + rewrite lookup_insert_ne by congruence. intros Htok.
          destruct (Hdrawn t Htok) as (i & Hi & Hsi). exists i. split; [lia | exact Hsi].
      - intros t. specialize (Hrows t). destruct (decide (t = token)) as [-> | Hneq].
        + rewrite lookup_insert_eq. rewrite (Hdom token Hfresh) in Hrows. exact Hrows.
        + rewrite lookup_insert_ne by congruence. exact Hrows. }
    unfold Sheets.log_token_creation.
    destruct (fst (utcnow _)) as [logged | e];
      [destruct (Sheets.reply (Main.sheets_api a)) as [[msg | e] |] |];
      cbn [snd]; apply Hstep; reflexivity.
  - cbn [snd]. eapply log_related_ext; [exact Hinv | | | | | reflexivity];
      cbn [Main.tracker]; assumption.
Qed.

Lemma log_related_track R w token request a :
  keeps_row R → (Sheets.reply (Main.sheets_api a) ≠ None → allows_loss R) →
  log_related R w a → log_related R w (snd (Main.track_click token request a)).
Proof.
  intros Hkeep Hloss Hinv. unfold Main.track_click.
  destruct (track_click_cases (Main.tracker a) token (Main.remote_addr request)
              (default "Unknown" (Main.user_agent_header request)))
    as [(td & stamp & clicks & Htd & Hcl & ->) | (r & st' & -> & Hr & Ht & Hc & Hs & Hd)].
  - pose proof Hinv as (Hsrc & Hne & Hdom & Hdrawn & Hrows).
    assert (Hstep : ∀ sv1,
              (∀ t, R (List.filter (Sheets.of_token t) (tail (Sheets.click_rows sv1)))
                      (map (row_of_click t)
                         (default [] (<[token := (clicks ++ [new_click token
                                                     (Main.remote_addr request)
                                                     (default "Unknown"
                                                        (Main.user_agent_header request))
                                                     stamp])%list]>
                                        (_clicks (Main.tracker a)) !! t)))) →
              Sheets.click_rows sv1 ≠ [] →
              log_related R w
                (Main.mk_app
                   (mk_state (<[token := clicked td]> (_tokens (Main.tracker a)))
                      (<[token := (clicks ++ [new_click token (Main.remote_addr request)
                                                (default "Unknown"
                                                   (Main.user_agent_header request))
                                                stamp])%list]>
                         (_clicks (Main.tracker a)))
                      (env (tick (tick (Main.tracker a)))))
                   sv1)).
    { intros sv1 Hrows1 Hne1. unfold log_related, clicks_of.
      cbn [Main.tracker Main.sheets_api _tokens _clicks env tick token_source token_draws].
      split; [exact Hsrc |]. split; [exact Hne1 |].
      split; [| split; [| exact Hrows1]].
      - intros t. destruct (decide (t = token)) as [-> | Hneq].
        + rewrite lookup_insert_eq. discriminate.
        + rewrite !lookup_insert_ne by congruence. apply Hdom.
      - intros t. destruct (decide (t = token)) as [-> | Hneq].
        + intros _. apply Hdrawn. rewrite Htd. eauto.
        + rewrite lookup_insert_ne by congruence. apply Hdrawn. }
    assert (Hlost : allows_loss R →
              ∀ t, R (List.filter (Sheets.of_token t)
                        (tail (Sheets.click_rows (Main.sheets_api a))))
                     (map (row_of_click t)
                        (default [] (<[token := (clicks ++ [new_click token
                                                    (Main.remote_addr request)
                                                    (default "Unknown"
                                                       (Main.user_agent_header request))
                                                    stamp])%list]>
                                       (_clicks (Main.tracker a)) !! t)))).
    { intros Hl t. specialize (Hrows t). unfold clicks_of in Hrows.
      destruct (decide (t = token)) as [-> | Hneq].
      - rewrite lookup_insert_eq. rewrite Hcl in Hrows. cbn [default from_option id] in *.
        rewrite map_app. apply Hl. exact Hrows.
      - rewrite lookup_insert_ne by congruence. exact Hrows. }
    unfold Sheets.log_click.
    destruct (Sheets.reply (Main.sheets_api a)) as [[msg | e] |] eqn:Hreply; cbn [snd].
    + apply Hstep; [apply Hlost; apply Hloss; discriminate | exact Hne].
    + apply Hstep; [apply Hlost; apply Hloss; discriminate | exact Hne].
    + apply Hstep; cbn [Sheets.click_rows];
        [| intros Happ; apply List.app_eq_nil in Happ; destruct Happ; discriminate].
      intros t. specialize (Hrows t). unfold clicks_of in Hrows.
      rewrite tail_snoc by exact Hne. rewrite filter_snoc_row.
      destruct (decide (t = token)) as [-> | Hneq].
      * rewrite lookup_insert_eq, of_token_click_values. rewrite Hcl in Hrows.
        cbn [default from_option id] in *. rewrite map_app. apply Hkeep. exact Hrows.
      * rewrite lookup_insert_ne by congruence.
        assert (Hother : Sheets.of_token t
                           (Sheets.click_values token (Main.remote_addr request)
                              (default "Unknown" (Main.user_agent_header request))
                              (Datetime.isoformat stamp)) = false).
        { unfold Sheets.of_token, Sheets.click_values. cbn [lookup list_lookup].
          apply andb_false_iff. right. apply bool_decide_eq_false. congruence. }
        rewrite Hother, app_nil_r. exact Hrows.
  - assert (Hsame : ∀ sv, Sheets.click_rows sv = Sheets.click_rows (Main.sheets_api a) →
                          log_related R w (Main.mk_app st' sv)).
    { intros sv Hcr.
      eapply log_related_ext; [exact Hinv | | | | | exact Hcr];
        cbn [Main.tracker]; try assumption. lia. }
    destruct r as [[u ts n | err] | e].
    + exfalso. exact (Hr u ts n eq_refl).
    + cbn [snd]. apply Hsame; reflexivity.
    + cbn [snd]. apply Hsame; reflexivity.
Qed.

Lemma log_related_serve R base w a v :
  tokens_distinct w → keeps_row R → (reliable (Main.sheets_api a) ∨ allows_loss R) →
  log_related R w a → log_related R w (serve base a v).
Proof.
  intros Hdist Hkeep Hloss Hinv. destruct v as [data | token request | token |]; cbn [serve].
  - apply log_related_generate; assumption.
  - apply log_related_track; [assumption | | assumption].
    intros Hreply. destruct Hloss as [Hrel | Hl]; [| exact Hl].
    exfalso. apply Hreply. apply Hrel.
  - unfold Main.get_stats, Sheets.get_click_stats.
    destruct (Sheets.reply (Main.sheets_api a)) as [f |];
      [destruct (Sheets.fault_is_Exception f) |
       destruct (Sheets.summarize (Sheets.click_rows (Main.sheets_api a)) token)];
      cbn [snd]; (eapply log_related_ext; [exact Hinv | reflexivity .. ]).
  - unfold Main.health_check, Sheets.check_connection, get_current_timestamp,
      mbind, M_bind, mret, M_ret.
    change (utcnow (Main.tracker a)) with ((utcnow (Main.tracker a)).1, tick (Main.tracker a)).
    destruct (Sheets.reply (Main.sheets_api a)) as [f |];
      [| destruct ((utcnow (Main.tracker a)).1)];
      cbn [snd fst]; (eapply log_related_ext; [exact Hinv | reflexivity .. ]).
Qed.

(** No route changes what the service will answer. *)
Lemma serve_replies base a v :
  Sheets.replies (Main.sheets_api (serve base a v)) = Sheets.replies (Main.sheets_api a).
Proof.
  destruct v as [data | token request | token |]; cbn [serve].
  - unfold Main.generate_token.
    destruct (Main.req_target_url data) as [[| c0 url0] |]; [reflexivity | | reflexivity].
    destruct (generate_token _ _ _ _) as [[tok | e] st]; [| reflexivity].
    unfold Sheets.log_token_creation.
    destruct (fst (utcnow st)); [| reflexivity].
    destruct (Sheets.reply (Main.sheets_api a)) as [[msg | e] |]; reflexivity.
  - unfold Main.track_click.
    destruct (track_click _ _ _ _) as [[[u ts n | err] | e] st]; [| reflexivity | reflexivity].
    unfold Sheets.log_click.
    destruct (Sheets.reply (Main.sheets_api a)) as [[msg | e] |]; reflexivity.
  - unfold Main.get_stats, Sheets.get_click_stats.
    destruct (Sheets.reply (Main.sheets_api a)) as [f |];
      [destruct (Sheets.fault_is_Exception f) |
       destruct (Sheets.summarize (Sheets.click_rows (Main.sheets_api a)) token)];
      reflexivity.
  - unfold Main.health_check, Sheets.check_connection.
    destruct (Sheets.reply (Main.sheets_api a)) as [f |]; [reflexivity |].
    destruct (get_current_timestamp (Main.tracker a)) as [[ts | e] st]; reflexivity.
Qed.

Lemma log_related_serve_all R base w vs a :
  tokens_distinct w → keeps_row R → (reliable (Main.sheets_api a) ∨ allows_loss R) →
  log_related R w a →
  log_related R w (serve_all base a vs) ∧
  Sheets.replies (Main.sheets_api (serve_all base a vs)) = Sheets.replies (Main.sheets_api a).
Proof.
  intros Hdist Hkeep. revert a.
  induction vs as [| v vs IH]; intros a Hloss Hinv; [split; [exact Hinv | reflexivity] |].
  cbn [serve_all fold_left]. fold (serve_all base (serve base a v) vs).
  destruct (IH (serve base a v)) as [Hall Hrep].
  - destruct Hloss as [Hrel | Hl]; [left | right; exact Hl].
    intros n. rewrite serve_replies. apply Hrel.
  - apply log_related_serve; assumption.
  - split; [exact Hall |]. rewrite Hrep. apply serve_replies.
Qed.

Lemma log_related_initial (R : relation (list (list string))) w sv :
  R [] [] → length (Sheets.click_rows sv) = 1%nat →
  log_related R w (Main.mk_app (initial w) sv).
Proof.
  intros Hnil Hlen. unfold log_related, clicks_of. cbn [Main.tracker Main.sheets_api initial
    _tokens _clicks env].
  split; [reflexivity |].
  split; [intros Hrows; rewrite Hrows in Hlen; discriminate |].
  split; [intros token _; apply lookup_empty |].
  split; [intros token [td Htd]; rewrite lookup_empty in Htd; discriminate |].
  intros token. rewrite lookup_empty.
  destruct (Sheets.click_rows sv) as [| header [| row rows]]; [discriminate | | discriminate].
  exact Hnil.
Qed.

(** X21. The two records of the clicks stay in step.  Start the application
    with an empty tracker and a Clicks sheet that holds its header row, let
    the service execute every request and let the random source never
    return a token twice.  Then after any sequence of requests to the four
    routes, the rows of every token in the Clicks sheet are the rows of the
    clicks the tracker holds for it, in the same order, and the statistics
    route reports the statistics of the tracker for every token that has
    been clicked, and 404 for every other token. *)
Theorem routes_keep_log_in_step (base : string) (w : world) (sv : Sheets.service)
    (vs : list visit) (token : string) :
  tokens_distinct w → reliable sv → length (Sheets.click_rows sv) = 1%nat →
  List.filter (Sheets.of_token token)
    (tail (Sheets.click_rows
             (Main.sheets_api (serve_all base (Main.mk_app (initial w) sv) vs))))
  = map (row_of_click token)
      (clicks_of (Main.tracker (serve_all base (Main.mk_app (initial w) sv) vs)) token) ∧
  fst (Main.get_stats token (serve_all base (Main.mk_app (initial w) sv) vs))
  = match get_click_stats (Main.tracker (serve_all base (Main.mk_app (initial w) sv) vs))
            token with
    | Some stats =>
        if decide (total_clicks stats = 0) then Ok token_not_found
        else Ok (reported token stats)
    | None => Ok token_not_found
    end.
Proof.
  intros Hdist Hrel Hlen.
  destruct (log_related_serve_all eq base w vs (Main.mk_app (initial w) sv) Hdist)
    as [Hinv Hrep].
  - intros l l' x ->. reflexivity.
  - left. exact Hrel.
  - apply log_related_initial; [reflexivity | exact Hlen].
  - destruct Hinv as (_ & _ & Hdom & _ & Hrows).
    split; [apply Hrows |].
    unfold Main.get_stats, Sheets.get_click_stats, Sheets.reply. rewrite Hrep.
    cbn [Main.sheets_api]. rewrite (Hrel _).
    rewrite (summarize_of_clicks _ _ _ (Hrows token)).
    unfold get_click_stats, clicks_of.
    destruct (_tokens _ !! token) as [td |] eqn:Htd.
    + cbn [total_clicks]. destruct (default [] _) as [| c clicks]; [reflexivity |].
      destruct (decide _) as [Hz | _]; [simpl in Hz; lia | reflexivity].
    + rewrite (Hdom token Htd). reflexivity.
Qed.

Lemma routes_keep_log_in_step_witness :
  ∃ stats,
    get_click_stats
      (Main.tracker (serve_all "http://localhost:5000"
                       (Main.mk_app (initial sample_world) reliable_service) sample_visits))
      sample_token = Some stats ∧
    total_clicks stats = 2 ∧
    fst (Main.get_stats sample_token
           (serve_all "http://localhost:5000"
              (Main.mk_app (initial sample_world) reliable_service) sample_visits))
    = Ok (reported sample_token stats).
Proof.
  assert (Hdist : tokens_distinct sample_world)
    by (intros [| [| i]] [| [| j]] token; vm_compute; congruence).
  destruct (routes_keep_log_in_step "http://localhost:5000" sample_world reliable_service
              sample_visits sample_token Hdist) as [_ H];
    [intros n; reflexivity | reflexivity |].
  eexists. split; [vm_compute; reflexivity |]. split; [reflexivity |].
  rewrite H. vm_compute. reflexivity.
Defined.

(** X22. The log never runs ahead of the tracker.  Start the application
    with an empty tracker and a Clicks sheet that holds its header row, and
    let the random source never return a token twice; the service may fail
    on any request.  Then after any sequence of requests to the four routes,
    the rows of every token in the Clicks sheet are among the rows of the
    clicks the tracker holds for it, in the same order, and whenever the
    statistics route reports a number of clicks for a token, the tracker
    knows the token and has counted at least as many. *)
Theorem log_never_ahead (base : string) (w : world) (sv : Sheets.service)
    (vs : list visit) (token : string) :
  tokens_distinct w → length (Sheets.click_rows sv) = 1%nat →
  sublist
    (List.filter (Sheets.of_token token)
       (tail (Sheets.click_rows
                (Main.sheets_api (serve_all base (Main.mk_app (initial w) sv) vs)))))
    (map (row_of_click token)
       (clicks_of (Main.tracker (serve_all base (Main.mk_app (initial w) sv) vs)) token)) ∧
  ∀ n u by_date by_agent,
    fst (Main.get_stats token (serve_all base (Main.mk_app (initial w) sv) vs))
    = Ok (Main.Reply 200 (Main.ClickStats token n u by_date by_agent)) →
    ∃ stats,
      get_click_stats (Main.tracker (serve_all base (Main.mk_app (initial w) sv) vs)) token
      = Some stats ∧
      0 < n <= total_clicks stats.
Proof.
  intros Hdist Hlen.
  destruct (log_related_serve_all sublist base w vs (Main.mk_app (initial w) sv) Hdist)
    as [Hinv _].
  - intros l l' x Hl. apply sublist_app; [exact Hl | reflexivity].
  - right. intros l l' x Hl. apply sublist_inserts_r. exact Hl.
  - apply log_related_initial; [constructor | exact Hlen].
  - destruct Hinv as (_ & _ & Hdom & _ & Hrows).
    split; [apply Hrows |].
    intros n u by_date by_agent. unfold Main.get_stats, Sheets.get_click_stats.
    destruct (Sheets.reply _) as [f |].
    + destruct f as [msg | e]; cbn [Sheets.fault_is_Exception fst]; [discriminate |].
      destruct (is_Exception e) eqn:He; cbn [fst Main.handled_fault]; [discriminate |].
      unfold Main.handled. rewrite He. discriminate.
    + destruct (Sheets.summarize _ token) as [stats |] eqn:Hs; cbn [fst]; [| discriminate].
      intros [= <- _ _ _].
      apply summarize_Some in Hs. destruct Hs as [Hne ->]. cbn [Sheets.total_clicks].
      specialize (Hrows token). pose proof (sublist_length _ _ Hrows) as Hle.
      rewrite length_map in Hle.
      unfold get_click_stats.
      destruct (_tokens _ !! token) as [td |] eqn:Htd.
      * eexists. split; [reflexivity |]. cbn [total_clicks].
        fold (clicks_of (Main.tracker (serve_all base (Main.mk_app (initial w) sv) vs)) token).
        destruct (List.filter _ _) as [| r rows]; [congruence |]. simpl in *. lia.
      * exfalso. unfold clicks_of in Hrows. rewrite (Hdom token Htd) in Hrows.
        apply sublist_nil_r in Hrows. contradiction.
Qed.

Lemma log_never_ahead_witness :
  fst (Main.get_stats sample_token
         (serve_all "http://localhost:5000" sample_app lossy_visits))
  = Ok (Main.Reply 200
          (Main.ClickStats sample_token 1 1 {[ "2024-01-02" := 1 ]} {[ "Mozilla/5.0" := 1 ]})) ∧
  ∃ stats,
    get_click_stats (Main.tracker (serve_all "http://localhost:5000" sample_app lossy_visits))
      sample_token = Some stats ∧
    total_clicks stats = 2.
Proof.
  assert (Hdist : tokens_distinct sample_world)
    by (intros [| [| i]] [| [| j]] token; vm_compute; congruence).
  assert (Hstats : fst (Main.get_stats sample_token
                          (serve_all "http://localhost:5000" sample_app lossy_visits))
                   = Ok (Main.Reply 200
                           (Main.ClickStats sample_token 1 1 {[ "2024-01-02" := 1 ]}
                              {[ "Mozilla/5.0" := 1 ]})))
    by (vm_compute; reflexivity).
  split; [exact Hstats |].
  destruct (log_never_ahead "http://localhost:5000" sample_world sample_service lossy_visits
              sample_token Hdist) as [_ H]; [reflexivity |].
  destruct (H _ _ _ _ Hstats) as (stats & Hs & _).
  exists stats. split; [exact Hs |].
  vm_compute in Hs. injection Hs as <-. reflexivity.
Defined.

(** * Setting up the spreadsheet *)

Lemma with_rows_Tokens f sv :
  Setup.with_rows "Tokens" f sv
  = Sheets.mk_service (f (Sheets.token_rows sv)) (Sheets.click_rows sv)
      (Sheets.replies sv) (Sheets.requests sv).
Proof. reflexivity. Qed.

Lemma with_rows_Clicks f sv :
  Setup.with_rows "Clicks" f sv
  = Sheets.mk_service (Sheets.token_rows sv) (f (Sheets.click_rows sv))
      (Sheets.replies sv) (Sheets.requests sv).
Proof. reflexivity. Qed.

(** X23. On a spreadsheet whose service executes every request,
    [_initialize_sheets] returns, and afterwards the sheets Tokens and
    Clicks both exist and no sheet has gone.  A sheet that was missing is
    created and holds exactly its header row; a sheet that was there is left
    as it is, whatever its first row holds.  One request reads the
    spreadsheet and two more are sent for every missing sheet. *)
Theorem initialize_sheets_sets_up (b : Setup.book) :
  reliable (Setup.content b) → book_ok b →
  fst (Setup._initialize_sheets b) = Sheets.Done tt ∧
  "Tokens" ∈ Setup.titles (snd (Setup._initialize_sheets b)) ∧
  "Clicks" ∈ Setup.titles (snd (Setup._initialize_sheets b)) ∧
  (∀ title, title ∈ Setup.titles b → title ∈ Setup.titles (snd (Setup._initialize_sheets b))) ∧
  Sheets.token_rows (Setup.content (snd (Setup._initialize_sheets b)))
  = (if bool_decide ("Tokens" ∈ Setup.titles b) then Sheets.token_rows (Setup.content b)
     else [token_header]) ∧
  Sheets.click_rows (Setup.content (snd (Setup._initialize_sheets b)))
  = (if bool_decide ("Clicks" ∈ Setup.titles b) then Sheets.click_rows (Setup.content b)
     else [click_header]) ∧
  Sheets.requests (Setup.content (snd (Setup._initialize_sheets b)))
  = (Sheets.requests (Setup.content b) + 1
     + (if bool_decide ("Tokens" ∈ Setup.titles b) then 0 else 2)
     + (if bool_decide ("Clicks" ∈ Setup.titles b) then 0 else 2))%nat.
Proof.
  intros Hrel [Htok Hcl].
  unfold Setup._initialize_sheets, Setup._create_sheet, Setup._set_sheet_headers, Sheets.reply.
  rewrite (Hrel _).
  destruct (bool_decide ("Tokens" ∈ Setup.titles b)) eqn:Ht;
    destruct (bool_decide ("Clicks" ∈ Setup.titles b)) eqn:Hc;
    do 5 (simpl; rewrite ?(Hrel _)).
  all: try apply bool_decide_eq_true in Ht; try apply bool_decide_eq_true in Hc.
  all: try apply bool_decide_eq_false in Ht; try apply bool_decide_eq_false in Hc.
  all: rewrite ?(Htok Ht), ?(Hcl Hc).
  all: split; [reflexivity |].
  all: split; [set_solver |]; split; [set_solver |]; split; [set_solver |].
  all: split; [reflexivity |]; split; [reflexivity | lia].
Qed.

(** X24. When [_initialize_sheets] returns, the sheets Tokens and Clicks
    both exist, but a sheet it created need not have its header:
    [_set_sheet_headers] swallows every [Exception].  If the request that
    writes the header of a new Clicks sheet raises, the call still returns,
    the exception was an [Exception], the sheet is left without any row, and
    the first click that [log_click] then writes is taken for the header by
    [get_click_stats], which reports no statistics for its token. *)
Theorem initialize_sheets_headless (b : Setup.book) :
  fst (Setup._initialize_sheets b) = Sheets.Done tt →
  ("Tokens" ∈ Setup.titles (snd (Setup._initialize_sheets b)) ∧
   "Clicks" ∈ Setup.titles (snd (Setup._initialize_sheets b))) ∧
  ("Clicks" ∉ Setup.titles b → Sheets.click_rows (Setup.content b) = [] →
   ∀ f, Sheets.replies (Setup.content b)
          (before_click_header b + Sheets.requests (Setup.content b)) = Some f →
     Sheets.fault_is_Exception f = true ∧
     Sheets.click_rows (Setup.content (snd (Setup._initialize_sheets b))) = [] ∧
     ∀ token ip ua ts url,
       Sheets.reply (Setup.content (snd (Setup._initialize_sheets b))) = None →
       Sheets.reply (Sheets.sent (Setup.content (snd (Setup._initialize_sheets b)))) = None →
       fst (Sheets.get_click_stats token
              (snd (Sheets.log_click token ip ua ts url
                      (Setup.content (snd (Setup._initialize_sheets b))))))
       = Sheets.Done None).
Proof.
  unfold Setup._initialize_sheets, Setup._create_sheet, Setup._set_sheet_headers,
    before_click_header, Sheets.reply.
  destruct (Sheets.replies (Setup.content b) (Sheets.requests (Setup.content b)))
    as [f0 |] eqn:H0; [discriminate |].
  destruct (bool_decide ("Tokens" ∈ Setup.titles b)) eqn:Ht;
    destruct (bool_decide ("Clicks" ∈ Setup.titles b)) eqn:Hc; simpl.
  all: try apply bool_decide_eq_true in Ht; try apply bool_decide_eq_true in Hc.
  all: try apply bool_decide_eq_false in Ht; try apply bool_decide_eq_false in Hc.
  - intros _. split; [split; assumption | contradiction].
  - destruct (Sheets.replies (Setup.content b) (S (Sheets.requests (Setup.content b))))
      as [f1 |] eqn:H1; simpl; [discriminate |].
    destruct (Sheets.replies (Setup.content b) (S (S (Sheets.requests (Setup.content b)))))
      as [f2 |] eqn:H2; simpl.
    + intros Hdone. split; [split; set_solver |].
      intros _ Hrows f [= <-].
      split; [destruct (Sheets.fault_is_Exception f2); [reflexivity | discriminate] |].
      split; [exact Hrows |].
      intros token ip ua ts url Hr1 Hr2.
      unfold Sheets.log_click, Sheets.get_click_stats, Sheets.reply in *. simpl in *.
      rewrite Hr1. simpl. rewrite Hr2. simpl. rewrite Hrows. reflexivity.
    + intros _. split; [split; set_solver |]. intros _ _ f. discriminate.
  - destruct (Sheets.replies (Setup.content b) (S (Sheets.requests (Setup.content b))))
      as [f1 |] eqn:H1; simpl; [discriminate |].
    destruct (Sheets.replies (Setup.content b) (S (S (Sheets.requests (Setup.content b)))))
      as [f2 |] eqn:H2; simpl.
    + destruct (Sheets.fault_is_Exception f2); simpl; [| discriminate].
      intros _. split; [split; set_solver | contradiction].
    + intros _. split; [split; set_solver | contradiction].
  - destruct (Sheets.replies (Setup.content b) (S (Sheets.requests (Setup.content b))))
      as [f1 |] eqn:H1; simpl; [discriminate |].
    destruct (Sheets.replies (Setup.content b) (S (S (Sheets.requests (Setup.content b)))))
      as [f2 |] eqn:H2; simpl;
      [destruct (Sheets.fault_is_Exception f2); simpl; [| discriminate] |];
      (destruct (Sheets.replies (Setup.content b)
                   (S (S (S (Sheets.requests (Setup.content b))))))
         as [f3 |] eqn:H3; simpl; [discriminate |]);
      (destruct (Sheets.replies (Setup.content b)
                   (S (S (S (S (Sheets.requests (Setup.content b)))))))
         as [f4 |] eqn:H4; simpl).
    all: intros Hdone; (split; [split; set_solver |]); intros _ Hrows f Hf;
      try discriminate Hf.
    all: injection Hf as <-.
    all: (split; [destruct (Sheets.fault_is_Exception f4); [reflexivity | discriminate] |]).
    all: (split; [exact Hrows |]).
    all: intros token ip ua ts url Hr1 Hr2;
      unfold Sheets.log_click, Sheets.get_click_stats, Sheets.reply in *; simpl in *;
      rewrite Hr1; simpl; rewrite Hr2; simpl; rewrite Hrows; reflexivity.
Qed.

Lemma initialize_sheets_sets_up_witness :
  fst (Setup._initialize_sheets new_book) = Sheets.Done tt ∧
  Sheets.token_rows (Setup.content (snd (Setup._initialize_sheets new_book))) = [token_header] ∧
  Sheets.click_rows (Setup.content (snd (Setup._initialize_sheets new_book))) = [click_header] ∧
  Sheets.requests (Setup.content (snd (Setup._initialize_sheets new_book))) = 5%nat.
Proof.
  destruct (initialize_sheets_sets_up new_book) as (Hdone & _ & _ & _ & Ht & Hc & Hr).
  - intros n. reflexivity.
  - split; intros _; reflexivity.
  - split; [exact Hdone |]. split; [exact Ht |]. split; [exact Hc | exact Hr].
Defined.

Lemma initialize_sheets_headless_witness :
  fst (Setup._initialize_sheets flaky_book) = Sheets.Done tt ∧
  "Clicks" ∈ Setup.titles (snd (Setup._initialize_sheets flaky_book)) ∧
  fst (Sheets.get_click_stats sample_token
         (snd (Sheets.log_click sample_token "1.1.1.1" "Mozilla/5.0" "2024-01-02T09:30:00"
                 sample_url (Setup.content (snd (Setup._initialize_sheets flaky_book))))))
  = Sheets.Done None.
Proof.
  assert (Hdone : fst (Setup._initialize_sheets flaky_book) = Sheets.Done tt)
    by (vm_compute; reflexivity).
  destruct (initialize_sheets_headless flaky_book Hdone) as [[_ Htitle] H].
  split; [exact Hdone |]. split; [exact Htitle |].
  assert (Hmissing : "Clicks" ∉ Setup.titles flaky_book)
    by (intros Hin; apply list_elem_of_singleton in Hin; discriminate Hin).
  destruct (H Hmissing eq_refl (Sheets.Fault (OSError "timed out")) eq_refl)
    as (_ & _ & Hlost).
  apply Hlost; reflexivity.
Defined.

(** * The Tokens sheet over runs of the application *)

Lemma elem_of_tail_snoc {A} (l : list A) (x y : A) :
  y ∈ tail (l ++ [x]) → y ∈ tail l ∨ y = x.
Proof.
  destruct l as [| z l]; simpl; [intros H; apply elem_of_nil in H; contradiction |].
  intros H. apply elem_of_app in H. destruct H as [H | H]; [left; exact H |].
  right. apply list_elem_of_singleton in H. exact H.
Qed.

Lemma tokens_logged_ext a a' :
  tokens_logged a →
  _tokens (Main.tracker a') = _tokens (Main.tracker a) →
  Sheets.token_rows (Main.sheets_api a') = Sheets.token_rows (Main.sheets_api a) →
  tokens_logged a'.
Proof. unfold tokens_logged. intros H -> ->. exact H. Qed.

Lemma tokens_logged_generate R base w data a :
  tokens_distinct w → log_related R w a → tokens_logged a →
  tokens_logged (snd (Main.generate_token base data a)).
Proof.
  intros Hdist Hinv Hlog. unfold Main.generate_token.
  destruct (Main.req_target_url data) as [[| c0 url0] |]; [exact Hlog | | exact Hlog].
  destruct (generate_token_cases (Main.tracker a) (String c0 url0) (Main.req_email data)
              (default "default" (Main.req_campaign data)))
    as [(token & created & expires & Hdraw & ->) | (e & st' & -> & Ht & Hc & Hs & Hd)].
  - destruct Hinv as (Hsrc & _ & _ & Hdrawn & _).
    assert (Hfresh : _tokens (Main.tracker a) !! token = None).
    { destruct (_tokens (Main.tracker a) !! token) as [td |] eqn:Htd; [| reflexivity].
      destruct (Hdrawn token (mk_is_Some _ _ Htd)) as (i & Hi & Hsi).
      rewrite Hsrc in Hdraw. pose proof (Hdist _ _ _ Hsi Hdraw). lia. }
    assert (Hold : ∀ row, row ∈ tail (Sheets.token_rows (Main.sheets_api a)) →
              ∃ timestamp token0 td,
                <[token := fresh_token_data (String c0 url0) (Main.req_email data)
                             (default "default" (Main.req_campaign data)) created expires]>
                  (_tokens (Main.tracker a)) !! token0 = Some td ∧
                row = Sheets.token_values timestamp token0 (target_url td) (email td)
                        (campaign td)).
    { intros row Hrow. destruct (Hlog row Hrow) as (ts & token0 & td & Htd & ->).
      exists ts, token0, td. split; [| reflexivity].
      rewrite lookup_insert_ne by congruence. exact Htd. }
    unfold Sheets.log_token_creation.
    destruct (fst (utcnow _)) as [logged | e];
      [destruct (Sheets.reply (Main.sheets_api a)) as [[msg | e] |] |];
      cbn [snd]; unfold tokens_logged;
      cbn [Main.tracker Main.sheets_api tick _tokens Sheets.sent Sheets.token_rows];
      try exact Hold.
    intros row Hrow. apply elem_of_tail_snoc in Hrow. destruct Hrow as [Hrow | ->].
    + apply Hold. exact Hrow.
    + eexists. exists token. eexists. split; [apply lookup_insert_eq | reflexivity].
  - cbn [snd]. eapply tokens_logged_ext; [exact Hlog | exact Ht | reflexivity].
Qed.

Lemma tokens_logged_track token request a :
  tokens_logged a → tokens_logged (snd (Main.track_click token request a)).
Proof.
  intros Hlog. unfold Main.track_click.
  destruct (track_click_cases (Main.tracker a) token (Main.remote_addr request)
              (default "Unknown" (Main.user_agent_header request)))
    as [(td & stamp & clicks & Htd & Hcl & ->) | (r & st' & -> & Hr & Ht & Hc & Hs & Hd)].
  - assert (Hnew : ∀ row, row ∈ tail (Sheets.token_rows (Main.sheets_api a)) →
              ∃ timestamp token0 td0,
                <[token := clicked td]> (_tokens (Main.tracker a)) !! token0 = Some td0 ∧
                row = Sheets.token_values timestamp token0 (target_url td0) (email td0)
                        (campaign td0)).
    { intros row Hrow. destruct (Hlog row Hrow) as (ts & token0 & td0 & Htd0 & ->).
      destruct (decide (token0 = token)) as [-> | Hneq].
      - exists ts, token, (clicked td). split; [apply lookup_insert_eq |].
        rewrite Htd in Htd0. injection Htd0 as <-. reflexivity.
      - exists ts, token0, td0. split; [| reflexivity].
        rewrite lookup_insert_ne by congruence. exact Htd0. }
    unfold Sheets.log_click.
    destruct (Sheets.reply (Main.sheets_api a)) as [[msg | e] |]; cbn [snd]; exact Hnew.
  - destruct r as [[u ts n | err] | e].
    + exfalso. exact (Hr u ts n eq_refl).
    + cbn [snd]. eapply tokens_logged_ext; [exact Hlog | exact Ht | reflexivity].
    + cbn [snd]. eapply tokens_logged_ext; [exact Hlog | exact Ht | reflexivity].
Qed.

Lemma tokens_logged_serve R base w a v :
  tokens_distinct w → log_related R w a → tokens_logged a → tokens_logged (serve base a v).
Proof.
  intros Hdist Hinv Hlog. destruct v as [data | token request | token |]; cbn [serve].
  - eapply tokens_logged_generate; eassumption.
  - apply tokens_logged_track; assumption.
  - unfold Main.get_stats, Sheets.get_click_stats.
    destruct (Sheets.reply (Main.sheets_api a)) as [f |];
      [destruct (Sheets.fault_is_Exception f) |
       destruct (Sheets.summarize (Sheets.click_rows (Main.sheets_api a)) token)];
      cbn [snd]; (eapply tokens_logged_ext; [exact Hlog | reflexivity .. ]).
  - unfold Main.health_check, Sheets.check_connection, get_current_timestamp,
      mbind, M_bind, mret, M_ret.
    change (utcnow (Main.tracker a)) with ((utcnow (Main.tracker a)).1, tick (Main.tracker a)).
    destruct (Sheets.reply (Main.sheets_api a)) as [f |];
      [| destruct ((utcnow (Main.tracker a)).1)];
      cbn [snd fst]; (eapply tokens_logged_ext; [exact Hlog | reflexivity .. ]).
Qed.

Lemma tokens_logged_serve_all base w vs a :
  tokens_distinct w → log_related sublist w a → tokens_logged a →
  tokens_logged (serve_all base a vs).
Proof.
  intros Hdist. revert a. induction vs as [| v vs IH]; intros a Hinv Hlog; [exact Hlog |].
  cbn [serve_all fold_left]. fold (serve_all base (serve base a v) vs).
  apply IH.
  - apply log_related_serve; [exact Hdist | | | exact Hinv].
    + intros l l' x Hl. apply sublist_app; [exact Hl | reflexivity].
    + right. intros l l' x Hl. apply sublist_inserts_r. exact Hl.
  - eapply tokens_logged_serve; eassumption.
Qed.

(** X25. The Tokens sheet names tokens of the tracker only.  Start the
    application with an empty tracker and both sheets holding their header
    row, and let the random source never return a token twice; the service
    and the clock may fail at any time.  Then after any sequence of requests
    to the four routes, every row of the Tokens sheet below the header has
    the six cells time stamp, token, target URL, address (or N/A when there
    is none or it is empty), campaign and Active, where the token is stored
    in the tracker with that target URL, address and campaign.  The last
    cell says Active whether or not the token has expired. *)
Theorem token_log_matches_tracker (base : string) (w : world) (sv : Sheets.service)
    (vs : list visit) (row : list string) :
  tokens_distinct w →
  length (Sheets.token_rows sv) = 1%nat → length (Sheets.click_rows sv) = 1%nat →
  row ∈ tail (Sheets.token_rows
                (Main.sheets_api (serve_all base (Main.mk_app (initial w) sv) vs))) →
  ∃ timestamp token td,
    _tokens (Main.tracker (serve_all base (Main.mk_app (initial w) sv) vs)) !! token = Some td ∧
    row = [timestamp; token; target_url td; Sheets.email_or_na (email td); campaign td;
           "Active"].
Proof.
  intros Hdist Htok Hcl Hrow.
  assert (Hlog : tokens_logged (serve_all base (Main.mk_app (initial w) sv) vs)).
  { apply (tokens_logged_serve_all base w); [exact Hdist | |].
    - apply log_related_initial; [constructor | exact Hcl].
    - intros r Hr. cbn [Main.sheets_api] in Hr.
      destruct (Sheets.token_rows sv) as [| header [| r' rows]]; try discriminate.
      apply elem_of_nil in Hr. contradiction. }
  destruct (Hlog row Hrow) as (ts & token & td & Htd & ->).
  exists ts, token, td. split; [exact Htd | reflexivity].
Qed.

Lemma token_log_matches_tracker_witness :
  ∃ td,
    _tokens (Main.tracker (serve_all "http://localhost:5000" sample_app sample_visits))
      !! sample_token = Some td ∧
    target_url td = sample_url ∧ campaign td = "spring".
Proof.
  assert (Hdist : tokens_distinct sample_world)
    by (intros [| [| i]] [| [| j]] token; vm_compute; congruence).
  destruct (token_log_matches_tracker "http://localhost:5000" sample_world sample_service
              sample_visits
              ["2024-01-02T09:30:00"; sample_token; sample_url; "N/A"; "spring"; "Active"]
              Hdist)
    as (ts & token & td & Htd & Hrow); [reflexivity | reflexivity | |].
  - vm_compute. left.
  - injection Hrow as _ <- Hurl _ Hcampaign. exists td.
    split; [exact Htd |]. split; congruence.
Defined.
